(** * explore_pesticide_data.py: a shallow embedding and its properties

    The script lists the files of [data/], probes each one with a fixed
    sequence of pandas readers, analyses the first table that decodes,
    and writes two reports and a CSV extract.

    The embedding follows the source function by function.  What pandas
    and the operating system decide (the directory listing, whether a
    reader accepts a file, whether a write succeeds) is an input of the
    model; everything the script itself computes is a Rocq function.
    Formatted output is kept as the values that are formatted, and a CSV
    file as its records. *)

From stdpp Require Import gmap strings list pretty.
From Stdlib Require Import ZArith Ascii.

Local Open Scope string_scope.
Local Open Scope list_scope.
Local Open Scope nat_scope.

(** ** Text *)

(** Python [str] values are modelled by [string]; one [ascii] stands for
    one character. *)

Definition nl : string := String "010"%char EmptyString.

(** ["=" * 60] *)
Definition rule : string := String.concat EmptyString (replicate 60 "=").

(** [s[:n]] *)
Definition str_take (n : nat) (s : string) : string := String.substring 0 n s.

(** [s.endswith(suf)] *)
Fixpoint endswith (s suf : string) : bool :=
  if String.eqb s suf then true
  else match s with
       | EmptyString => false
       | String _ s' => endswith s' suf
       end.

(** ** Tables *)

(** The value kind of a column, [Series.dtype]. *)
Inductive dtype :=
  | DObject | DInt64 | DFloat64 | DBool | DDatetime64 | DCategory | DString.

(** [str(dtype)] *)
Definition dtype_str (d : dtype) : string :=
  match d with
  | DObject => "object"
  | DInt64 => "int64"
  | DFloat64 => "float64"
  | DBool => "bool"
  | DDatetime64 => "datetime64[ns]"
  | DCategory => "category"
  | DString => "string"
  end.

#[global] Instance dtype_eq_dec : EqDecision dtype.
Proof. solve_decision. Defined.

(** [dtype == 'object'] *)
Definition is_object (d : dtype) : bool :=
  match d with DObject => true | _ => false end.

(** What a cell holds: a string, a Python integer, a float, a boolean,
    a list or dict that [json.dump] can write, or any other object (a
    [Timestamp], a [Decimal], [bytes], an array, a numpy integer, a list
    that holds one of these).  All but the first, the second and the
    fourth are kept as the text [str] gives for them.  A missing cell
    ([None], [NaN], [NaT]) is [None : option value]. *)
Inductive value :=
  | VStr (s : string)
  | VInt (z : Z)
  | VFloat (repr : string)
  | VBool (b : bool)
  | VJson (repr : string)
  | VObj (repr : string).

#[global] Instance value_eq_dec : EqDecision value.
Proof. solve_decision. Defined.

(** [str(v)] *)
Definition str (v : value) : string :=
  match v with
  | VStr s => s
  | VInt z => pretty z
  | VBool true => "True"
  | VBool false => "False"
  | VFloat repr | VJson repr | VObj repr => repr
  end.

(** What [json.dump] can serialise: [str], [int], [float], [bool], and
    the lists and dicts made of them; any other object makes it raise
    [TypeError]. *)
Definition json_value (v : value) : bool :=
  match v with VObj _ => false | _ => true end.

(** A column label.  The readers give strings, and also integers (a
    table read without a header row), floats, time stamps (a header
    whose cells are dates) and tuples (a header of several rows); the
    last three are kept as the text [str] gives for them. *)
Inductive label :=
  | LStr (s : string)
  | LInt (z : Z)
  | LFloat (repr : string)
  | LTime (repr : string)
  | LTuple (repr : string).

#[global] Instance label_eq_dec : EqDecision label.
Proof. solve_decision. Defined.

Coercion LStr : string >-> label.

(** Whether [format(col, '<30')] is defined, l.82: [str], [int],
    [float] and [datetime] take the format spec; a tuple has only
    [object.__format__], which raises [TypeError] on a spec that is not
    empty. *)
Definition formats (col : label) : bool :=
  match col with LTuple _ => false | _ => true end.

(** Whether [json.dump] writes the label, as an item of a list and as a
    key of a dict: it does for [str], [int] and [float]; a time stamp is
    no item, a tuple no key. *)
Definition json_label (col : label) : bool :=
  match col with LStr _ | LInt _ | LFloat _ => true | _ => false end.

Record Series := {
  s_name : label;
  s_dtype : dtype;
  s_values : list (option value)
}.

#[global] Instance Series_eq_dec : EqDecision Series.
Proof. solve_decision. Defined.

(** A [DataFrame]: the length of its index and its columns, in order.
    Labels may repeat, as pandas allows.  pandas keeps every column as
    long as the index; nothing below depends on it. *)
Record DataFrame := {
  index_len : nat;
  df_data : list Series
}.

#[global] Instance DataFrame_eq_dec : EqDecision DataFrame.
Proof. solve_decision. Defined.

(** [df.columns] *)
Definition df_columns (df : DataFrame) : list label := s_name <$> df_data df.

(** [df.shape[0]], [df.shape[1]] *)
Definition shape0 (df : DataFrame) : nat := index_len df.
Definition shape1 (df : DataFrame) : nat := length (df_data df).

(** [df.head(n)] *)
Definition head (n : nat) (df : DataFrame) : DataFrame :=
  {| index_len := index_len df `min` n;
     df_data := (λ c, {| s_name := s_name c; s_dtype := s_dtype c;
                         s_values := take n (s_values c) |}) <$> df_data df |}.

(** [s.count()] *)
Definition count (s : Series) : nat := length (omap id (s_values s)).

(** [s.dropna()], then [.head(n)] is [take n] and [.tolist()] the list itself *)
Definition dropna (s : Series) : list value := omap id (s_values s).

(** [enumerate(l, start)] *)
Definition enumerate {A} (start : nat) (l : list A) : list (nat * A) :=
  zip (seq start (length l)) l.

(** ** Exceptions *)

Inductive exn := KeyError | AttributeError | TypeError | OSError.

Inductive res (A : Type) :=
  | Ok (a : A)
  | Raise (e : exn).
Arguments Ok {A} a.
Arguments Raise {A} e.

#[global] Instance res_ret : MRet res := λ A a, Ok a.
#[global] Instance res_bind : MBind res := λ A B f r,
  match r with Ok a => f a | Raise e => Raise e end.

(** [df[col]] where the script goes on with a Series.  A label carried
    by one column gives that column; an absent label raises [KeyError];
    a repeated label gives a DataFrame, on which [.dtype] (l.80, l.91,
    l.113) and [.tolist()] (l.120, l.146) are missing:
    [AttributeError].  Only l.139 would go through with a DataFrame, and
    it is reached only after l.113 found every label single. *)
Definition column (df : DataFrame) (col : label) : res Series :=
  match filter (λ c, s_name c = col) (df_data df) with
  | [] => Raise KeyError
  | [c] => Ok c
  | _ :: _ :: _ => Raise AttributeError
  end.

(** ** Dictionaries

    A Python [dict] keeps its keys in insertion order; assigning to a
    key already present keeps its position. *)

Definition dict (V : Type) := list (label * V).

Fixpoint dict_set {V} (k : label) (v : V) (d : dict V) : dict V :=
  match d with
  | [] => [(k, v)]
  | (k', v') :: d' =>
      if decide (k' = k) then (k, v) :: d' else (k', v') :: dict_set k v d'
  end.

Definition dict_keys {V} (d : dict V) : list label := d.*1.

(** ** The world the script runs in *)

(** The pandas readers the prober calls. *)
Inductive reader :=
  | read_parquet            (* pd.read_parquet(file_path) *)
  | read_csv                (* pd.read_csv(file_path) *)
  | read_excel              (* pd.read_excel(file_path) *)
  | read_parquet_pyarrow.   (* pd.read_parquet(file_path, engine='pyarrow') *)

#[global] Instance reader_eq_dec : EqDecision reader.
Proof. solve_decision. Defined.

(** An entry of [data/]: a [Path] with the size [stat] reports, [None]
    when [stat] raises (a link whose target is missing, an entry removed
    since the listing). *)
Record entry := {
  e_name : string;        (* file.name *)
  st_size : option N      (* file.stat().st_size *)
}.

(** [file.stat().st_size]; [FileNotFoundError] is an [OSError]. *)
Definition stat (file : entry) : res N :=
  match st_size file with Some n => Ok n | None => Raise OSError end.

(** [str(file_path)] *)
Definition path_str (p : entry) : string := "data/" +:+ e_name p.

(** What the run cannot change: the listing of [data/] ([None] when the
    directory does not exist) and the outcome of each reader on each
    path, a table or the message of the exception raised. *)
Record Env := {
  data_dir : option (list entry);
  pd_read : reader → string → DataFrame + string
}.

(** What is printed. Lines whose text is fixed are [Say]; a formatted
    line is a constructor carrying the values that are formatted. *)
Inductive line :=
  | Say (s : string)
  | FoundFiles (n : nat)                                (* l.22 *)
  | FileEntry (name : string) (size : N)                (* l.26 *)
  | TryRead (name : string)                             (* l.32 *)
  | ReadOk (r : reader)                                 (* l.37 45 53 62 *)
  | ReadFailed (r : reader) (msg : string)              (* l.40 48 56 65 *)
  | FileFormat (fmt : string)                           (* l.75 *)
  | DataShape (rows cols : nat)                         (* l.76 *)
  | ColumnInfo (i : nat) (col : label) (dt : string) (non_null rows : nat)  (* l.82 *)
  | Preview (df : DataFrame)                            (* l.85 *)
  | TextColumn (col : label)                            (* l.95 *)
  | SamplePreview (j : nat) (preview : string)          (* l.99 *)
  | ReadSuccess (name : string)                         (* l.174 *)
  | SampleSaved (file : string).                        (* l.185 *)

#[global] Instance line_eq_dec : EqDecision line.
Proof. solve_decision. Defined.

(** The analysis report, the [report] dict of [save_report]. *)
Record Report := {
  file_name : string;
  file_format : string;
  rows : nat;
  columns : nat;
  r_columns : list label;
  dtypes : dict string;
  text_columns : list label;
  sample_data : dict (list value)
}.

(** What [f.write] writes to the prose report. *)
Inductive md :=
  | MdText (s : string)
  | MdFileName (name : string)                          (* l.131 *)
  | MdFormat (fmt : string)                             (* l.132 *)
  | MdShape (rows cols : nat)                           (* l.133 *)
  | MdColumnCount (cols : nat)                          (* l.136 *)
  | MdColumn (i : nat) (col : label) (dt : string) (non_null : nat)  (* l.140 *)
  | MdTextCount (n : nat)                               (* l.143 *)
  | MdHeading (col : label)                             (* l.145 *)
  | MdSample (j : nat) (s : string).                    (* l.148 *)

(** What one write operation hands to a file. *)
Inductive chunk :=
  | Json (r : Report)                                   (* json.dump *)
  | JsonPrefix (r : Report)     (* json.dump, up to the value it rejects *)
  | Md (m : md)                                         (* f.write *)
  | Csv (header : list label) (records : list (list (option value))).

(** A file of the working directory: what has been written to it since
    it was last opened for writing, and whether it was closed after the
    last write reached it. *)
Record file := {
  f_chunks : list chunk;
  f_closed : bool
}.

(** [faults] tells, for the write operations still to come (open,
    write, close), which ones fail; past its end they succeed. *)
Record World := {
  stdout : list line;
  reads : list (reader * string);
  files : gmap string file;
  faults : list bool
}.

Definition set_stdout (f : list line → list line) (w : World) : World :=
  {| stdout := f (stdout w); reads := reads w; files := files w; faults := faults w |}.
Definition set_reads (f : list (reader * string) → list (reader * string)) (w : World) : World :=
  {| stdout := stdout w; reads := f (reads w); files := files w; faults := faults w |}.
Definition set_files (f : gmap string file → gmap string file) (w : World) : World :=
  {| stdout := stdout w; reads := reads w; files := f (files w); faults := faults w |}.
Definition set_faults (f : list bool → list bool) (w : World) : World :=
  {| stdout := stdout w; reads := reads w; files := files w; faults := f (faults w) |}.

(** ** The monad of the script: state, and exceptions that keep the state *)

Definition M (A : Type) : Type := World → res A * World.

#[global] Instance M_ret : MRet M := λ A a w, (Ok a, w).
#[global] Instance M_bind : MBind M := λ A B f c w,
  match c w with
  | (Ok a, w') => f a w'
  | (Raise e, w') => (Raise e, w')
  end.

Definition lift {A} (r : res A) : M A := λ w, (r, w).

Definition modify (f : World → World) : M unit := λ w, (Ok tt, f w).

Definition print (l : line) : M unit := modify (set_stdout (λ o, o ++ [l])).

Fixpoint for_each {A} (l : list A) (body : A → M unit) : M unit :=
  match l with
  | [] => mret tt
  | x :: l' => body x;; for_each l' body
  end.

(** One call of a pandas reader: recorded, and answered by the
    environment. *)
Definition call_reader (env : Env) (r : reader) (p : entry) : M (DataFrame + string) :=
  modify (set_reads (λ l, l ++ [(r, path_str p)]));;
  mret (pd_read env r (path_str p)).

(** One write operation: it succeeds or raises [OSError]. *)
Definition io : M unit := λ w,
  match faults w with
  | [] => (Ok tt, w)
  | false :: fs => (Ok tt, set_faults (λ _, fs) w)
  | true :: fs => (Raise OSError, set_faults (λ _, fs) w)
  end.

(** [open(path, "w")]: creates or truncates. *)
Definition f_open (path : string) : M unit :=
  io;; modify (set_files (insert path {| f_chunks := []; f_closed := false |})).

Definition f_write (path : string) (c : chunk) : M unit :=
  io;; modify (set_files (alter (λ f, {| f_chunks := f_chunks f ++ [c]; f_closed := f_closed f |}) path)).

Definition f_close (path : string) : M unit :=
  io;; modify (set_files (alter (λ f, {| f_chunks := f_chunks f; f_closed := true |}) path)).

(** [try: body finally: cleanup]; an exception of the cleanup replaces
    the one of the body. *)
Definition finally {A} (body : M A) (cleanup : M unit) : M A := λ w,
  match body w with
  | (Ok a, w') => (cleanup;; mret a) w'
  | (Raise e, w') =>
      match cleanup w' with
      | (Ok _, w'') => (Raise e, w'')
      | (Raise e', w'') => (Raise e', w'')
      end
  end.

(** [with open(path, "w") as f: body]: the file is closed when the body
    ends, also when it ends by an exception. *)
Definition with_open {A} (path : string) (body : M A) : M A :=
  f_open path;; finally body (f_close path).

(** ** The script *)

(** l.11-28 *)
Definition find_data_files (env : Env) : M (list entry) :=
  match data_dir env with
  | None =>
      print (Say "❌ data/ 目录不存在！");;
      print (Say "请确保数据文件在 pesticide-analysis/data/ 目录下");;
      mret []
  | Some all_files =>
      print (FoundFiles (length all_files));;
      for_each all_files
        (λ file,
           size ← lift (stat file);
           print (FileEntry (e_name file) size));;
      mret all_files
  end.

(** l.30-67.  Each [try] is a reader call whose exception, if any, is
    printed and dropped; [(None, None)] is [None]. *)
Definition try_read_file (env : Env) (file_path : entry)
    : M (option (DataFrame * string)) :=
  print (TryRead (e_name file_path));;
  r1 ← call_reader env read_parquet file_path;
  match r1 with
  | inl df => print (ReadOk read_parquet);; mret (Some (df, "parquet"))
  | inr e1 =>
  print (ReadFailed read_parquet e1);;
  r2 ← call_reader env read_csv file_path;
  match r2 with
  | inl df => print (ReadOk read_csv);; mret (Some (df, "csv"))
  | inr e2 =>
  print (ReadFailed read_csv e2);;
  r3 ← call_reader env read_excel file_path;
  match r3 with
  | inl df => print (ReadOk read_excel);; mret (Some (df, "excel"))
  | inr e3 =>
  print (ReadFailed read_excel e3);;
  if endswith (path_str file_path) ".gzip" then
    r4 ← call_reader env read_parquet_pyarrow file_path;
    match r4 with
    | inl df => print (ReadOk read_parquet_pyarrow);; mret (Some (df, "parquet.gzip"))
    | inr e4 => print (ReadFailed read_parquet_pyarrow e4);; mret None
    end
  else mret None
  end end end.

(** [f"{col:<30}"], l.82 *)
Definition format_spec (col : label) : res unit :=
  if formats col then Ok tt else Raise TypeError.

(** l.98 *)
Definition preview (sample_str : string) : string :=
  if (100 <? String.length sample_str)%nat then str_take 100 sample_str +:+ "..."
  else sample_str.

(** l.90-99, the loop that collects the text columns. *)
Fixpoint text_loop (df : DataFrame) (cols : list label) (text_columns : list label)
    : M (list label) :=
  match cols with
  | [] => mret text_columns
  | col :: rest =>
      s ← lift (column df col);
      if is_object (s_dtype s) then
        let samples := take 2 (dropna s) in
        if (0 <? length samples)%nat then
          print (TextColumn col);;
          for_each (enumerate 1 samples)
            (λ '(j, sample), print (SamplePreview j (preview (str sample))));;
          text_loop df rest (text_columns ++ [col])
        else text_loop df rest text_columns
      else text_loop df rest text_columns
  end.

(** l.69-101 *)
Definition analyze_dataframe (df : DataFrame) (file_format : string)
    : M (list label) :=
  print (Say (nl +:+ rule));;
  print (Say "📊 数据详细分析");;
  print (Say rule);;
  print (FileFormat file_format);;
  print (DataShape (shape0 df) (shape1 df));;
  print (Say (nl +:+ "📋 所有列名:"));;
  for_each (enumerate 1 (df_columns df))
    (λ '(i, col),
       s ← lift (column df col);
       lift (format_spec col);;
       print (ColumnInfo i col (dtype_str (s_dtype s)) (count s) (shape0 df)));;
  print (Say (nl +:+ "👀 前3行数据预览:"));;
  print (Preview (head 3 df));;
  print (Say (nl +:+ "🔍 寻找文本列:"));;
  text_loop df (df_columns df) [].

(** l.113, the [dtypes] comprehension. *)
Fixpoint dtypes_of (df : DataFrame) (cols : list label) (d : dict string)
    : res (dict string) :=
  match cols with
  | [] => mret d
  | col :: rest =>
      s ← column df col;
      dtypes_of df rest (dict_set col (dtype_str (s_dtype s)) d)
  end.

(** l.119-121, the loop that fills [sample_data]. *)
Fixpoint samples_of (df : DataFrame) (cols : list label) (d : dict (list value))
    : res (dict (list value)) :=
  match cols with
  | [] => mret d
  | col :: rest =>
      s ← column df col;
      samples_of df rest (dict_set col (take 3 (dropna s)) d)
  end.

(** l.105-121: the [report] dict of [save_report], before anything is
    written. *)
Definition build_report (df : DataFrame) (text_columns : list label)
    (file_path : entry) (file_format : string) : res Report :=
  dt ← dtypes_of df (df_columns df) [];
  sd ← samples_of df (take 5 text_columns) [];
  mret {| file_name := e_name file_path;
          file_format := file_format;
          rows := shape0 df;
          columns := shape1 df;
          r_columns := df_columns df;
          dtypes := dt;
          text_columns := text_columns;
          sample_data := sd |}.

Definition report_json : string := "data_analysis_report.json".
Definition report_md : string := "data_analysis_report.md".
Definition sample_file : string := "pesticide_data_sample.csv".

(** Whether [json.dump] can serialise the report.  The file name, the
    tags and the kinds are strings and the counts integers; the labels
    (items of [columns] and [text_columns], keys of [dtypes] and
    [sample_data]) and the samples decide. *)
Definition serialisable (report : Report) : bool :=
  forallb json_label (r_columns report) &&
  forallb (λ kv, json_label kv.1) (dtypes report) &&
  forallb json_label (text_columns report) &&
  forallb (λ kv, json_label kv.1 && forallb json_value kv.2) (sample_data report).

(** [json.dump(report, f, ensure_ascii=False, indent=2)].  The encoder
    writes as it goes: on a value it cannot serialise it raises
    [TypeError] with the beginning of the document written. *)
Definition json_dump (path : string) (report : Report) : M unit :=
  if serialisable report then f_write path (Json report)
  else (f_write path (JsonPrefix report);; lift (Raise TypeError)).

(** l.124-125 *)
Definition write_json (report : Report) : M unit :=
  with_open report_json (json_dump report_json report).

(** l.128-148 *)
Definition write_md (df : DataFrame) (text_columns : list label)
    (file_path : entry) (file_format : string) : M unit :=
  with_open report_md (
    let f := λ m, f_write report_md (Md m) in
    f (MdText ("# 农药数据分析报告" +:+ nl +:+ nl));;
    f (MdText ("## 文件信息" +:+ nl));;
    f (MdFileName (e_name file_path));;
    f (MdFormat file_format);;
    f (MdShape (shape0 df) (shape1 df));;
    f (MdText ("## 数据列总览" +:+ nl));;
    f (MdColumnCount (shape1 df));;
    for_each (enumerate 1 (df_columns df))
      (λ '(i, col),
         s ← lift (column df col);
         f (MdColumn i col (dtype_str (s_dtype s)) (count s)));;
    f (MdText (nl +:+ "## 文本列详情" +:+ nl));;
    f (MdTextCount (length text_columns));;
    for_each text_columns
      (λ col,
         f (MdHeading col);;
         s ← lift (column df col);
         for_each (enumerate 1 (take 2 (dropna s)))
           (λ '(j, sample), f (MdSample j (str_take 200 (str sample)))))).

(** l.103-152 *)
Definition save_report (df : DataFrame) (text_columns : list label)
    (file_path : entry) (file_format : string) : M unit :=
  report ← lift (build_report df text_columns file_path file_format);
  write_json report;;
  write_md df text_columns file_path file_format;;
  print (Say (nl +:+ "📄 报告已保存:"));;
  print (Say "  - data_analysis_report.json (机器可读)");;
  print (Say "  - data_analysis_report.md (人可读)").

(** Row [i] of a table, one cell per column, in column order. *)
Definition row (df : DataFrame) (i : nat) : list (option value) :=
  (λ c, mjoin (s_values c !! i)) <$> df_data df.

(** [df.to_csv(path, index=False, encoding='utf-8')]: the header, then
    one record per row. *)
Definition to_csv (df : DataFrame) (path : string) : M unit :=
  with_open path
    (f_write path (Csv (df_columns df) (row df <$> seq 0 (index_len df)))).

(** l.194-199, the [else] of the [for]. *)
Definition no_file_readable : list line :=
  [ Say (nl +:+ "❌ 无法读取任何文件");
    Say (nl +:+ "💡 可能原因:");
    Say "1. 文件已损坏 - 请重新下载";
    Say "2. 需要特殊解码 - 请联系教授确认文件格式";
    Say "3. 需要安装额外库:";
    Say "   运行: pip install pandas pyarrow fastparquet openpyxl" ].

(** l.162-166 *)
Definition no_input : list line :=
  [ Say (nl +:+ "💡 建议操作:");
    Say "1. 确保数据文件已下载到 Mac";
    Say "2. 在终端运行: mkdir -p ~/Desktop/pesticide-analysis/data";
    Say "3. 将数据文件拖放到 data/ 文件夹中";
    Say "4. 重新运行本脚本" ].

(** l.174-191, the body of [if df is not None], up to its [break]. *)
Definition process (file_path : entry) (df : DataFrame) (file_format : string)
    : M unit :=
  print (ReadSuccess (e_name file_path));;
  text_columns ← analyze_dataframe df file_format;
  save_report df text_columns file_path file_format;;
  to_csv (head 100 df) sample_file;;
  print (SampleSaved sample_file);;
  print (Say (nl +:+ rule));;
  print (Say "🎯 下一步建议:");;
  print (Say "1. 查看 data_analysis_report.md 了解数据结构");;
  print (Say "2. 查看 pesticide_data_sample.csv 查看具体数据");;
  print (Say "3. 根据找到的文本列设计DeepSeek API提问").

(** l.170-199: [for file_path in files: ... break / else: ...].  The
    [else] runs when the list is exhausted; [break] leaves the loop
    without it. *)
Fixpoint main_loop (env : Env) (files : list entry) : M unit :=
  match files with
  | [] => for_each no_file_readable print
  | file_path :: rest =>
      r ← try_read_file env file_path;
      match r with
      | Some (df, file_format) => process file_path df file_format
      | None => main_loop env rest
      end
  end.

(** l.154-199 *)
Definition main (env : Env) : M unit :=
  print (Say "🔍 增强版农药数据探索");;
  print (Say rule);;
  files ← find_data_files env;
  match files with
  | [] => for_each no_input print
  | _ :: _ => main_loop env files
  end.

(** A run starts with nothing printed and no reader called; the working
    directory and the faults to come are arbitrary. *)
Definition start (fs : gmap string file) (flt : list bool) : World :=
  {| stdout := []; reads := []; files := fs; faults := flt |}.

(** ** The specification's vocabulary *)

(** The prober as the specification words it: the readers in priority
    order, each with its tag, the fourth only for a file name that ends
    with the compression suffix. *)
Definition priority (file_path : entry) : list (reader * string) :=
  [(read_parquet, "parquet"); (read_csv, "csv"); (read_excel, "excel")] ++
  (if endswith (e_name file_path) ".gzip"
   then [(read_parquet_pyarrow, "parquet.gzip")] else []).

(** The readers tried, and the first table decoded with its tag. *)
Fixpoint first_match (env : Env) (p : entry) (l : list (reader * string))
    : list reader * option (DataFrame * string) :=
  match l with
  | [] => ([], None)
  | (r, tag) :: l' =>
      match pd_read env r (path_str p) with
      | inl df => ([r], Some (df, tag))
      | inr _ => let '(tried, found) := first_match env p l' in (r :: tried, found)
      end
  end.

Definition attempts (env : Env) (p : entry) : list (reader * string) :=
  (λ r, (r, path_str p)) <$> (first_match env p (priority p)).1.

Definition probe (env : Env) (p : entry) : option (DataFrame * string) :=
  (first_match env p (priority p)).2.

(** A column of object kind, and one that also has a value. *)
Definition object_like (c : Series) : Prop := s_dtype c = DObject.
Definition textual (c : Series) : Prop :=
  s_dtype c = DObject ∧ Exists is_Some (s_values c).

#[global] Instance object_like_dec c : Decision (object_like c).
Proof. unfold object_like. apply _. Defined.
#[global] Instance textual_dec c : Decision (textual c).
Proof. unfold textual. apply _. Defined.

(** The first line of the total-failure guidance. *)
Definition guidance_head : line := Say (nl +:+ "❌ 无法读取任何文件").

(** A file written in full and closed. *)
Definition complete (cs : list chunk) : file := {| f_chunks := cs; f_closed := true |}.

(** A candidate on which the reader [x.1] raises. *)
Definition fails (env : Env) (p : entry) (x : reader * string) : Prop :=
  ∃ msg, pd_read env x.1 (path_str p) = inr msg.

(** The labels of the textual columns, in column order. *)
Definition text_cols (df : DataFrame) : list label :=
  s_name <$> filter textual (df_data df).

(** The exception a result stands for. *)
Definition raised {A} (r : res A) : option exn :=
  match r with Ok _ => None | Raise e => Some e end.

(** The world after printing [out] and calling the readers [rd]. *)
Definition after (w : World) (out : list line) (rd : list (reader * string)) : World :=
  {| stdout := stdout w ++ out; reads := reads w ++ rd;
     files := files w; faults := faults w |}.

(** l.155-156 *)
Definition banner : list line := [Say "🔍 增强版农药数据探索"; Say rule].

(** An entry whose size [stat] reports. *)
Definition sized (e : entry) : Prop := is_Some (st_size e).

#[global] Instance sized_dec e : Decision (sized e).
Proof. unfold sized. apply _. Defined.

(** One line per entry, up to the first whose size cannot be had. *)
Fixpoint entry_lines (l : list entry) : list line :=
  match l with
  | [] => []
  | e :: rest =>
      match st_size e with
      | Some n => FileEntry (e_name e) n :: entry_lines rest
      | None => []
      end
  end.

(** What [find_data_files] prints, l.16-17 or l.22-26. *)
Definition listing_lines (env : Env) : list line :=
  match data_dir env with
  | None => [ Say "❌ data/ 目录不存在！";
              Say "请确保数据文件在 pesticide-analysis/data/ 目录下" ]
  | Some all_files => FoundFiles (length all_files) :: entry_lines all_files
  end.

(** The File Locator returns the listing [l]: [data/] exists, holds the
    entries [l], and each of them has a size. *)
Definition listed (env : Env) (l : list entry) : Prop :=
  data_dir env = Some l ∧ Forall sized l.

(** What the File Locator returns or raises. *)
Definition located (env : Env) : res (list entry) :=
  match data_dir env with
  | None => Ok []
  | Some l => if decide (Forall sized l) then Ok l else Raise OSError
  end.

(** The total-failure guidance and the suggestions made when there is
    no input, as the user reads them. *)
Definition guidance : list line :=
  [ Say (nl +:+ "❌ 无法读取任何文件");
    Say (nl +:+ "💡 可能原因:");
    Say "1. 文件已损坏 - 请重新下载";
    Say "2. 需要特殊解码 - 请联系教授确认文件格式";
    Say "3. 需要安装额外库:";
    Say "   运行: pip install pandas pyarrow fastparquet openpyxl" ].

Definition suggestions : list line :=
  [ Say (nl +:+ "💡 建议操作:");
    Say "1. 确保数据文件已下载到 Mac";
    Say "2. 在终端运行: mkdir -p ~/Desktop/pesticide-analysis/data";
    Say "3. 将数据文件拖放到 data/ 文件夹中";
    Say "4. 重新运行本脚本" ].

(** The world a run of [main] ends in. *)
Definition final (env : Env) (fs : gmap string file) (flt : list bool) : World :=
  (main env (start fs flt)).2.

(** The exception that ends it, if any. *)
Definition outcome (env : Env) (fs : gmap string file) (flt : list bool)
    : option exn :=
  raised (main env (start fs flt)).1.

(** The run on a listing whose first candidate that decodes is [p],
    read as the table [df] with the tag [fmt], its labels distinct. *)
Definition decodes (env : Env) (pre : list entry) (p : entry) (post : list entry)
    (df : DataFrame) (fmt : string) : Prop :=
  listed env (pre ++ p :: post) ∧
  Forall (λ q, probe env q = None) pre ∧
  probe env p = Some (df, fmt) ∧
  NoDup (df_columns df).

(** The entries [save_report] computes for one column. *)
Definition dtype_entry (c : Series) : label * string :=
  (s_name c, dtype_str (s_dtype c)).
Definition sample_entry (c : Series) : label * list value :=
  (s_name c, take 3 (dropna c)).

(** A table whose labels all take the format spec of l.82. *)
Definition formattable (df : DataFrame) : Prop :=
  Forall (λ col, formats col = true) (df_columns df).

(** A label carried by more than one column. *)
Definition repeated (df : DataFrame) (col : label) : Prop :=
  1 < length (filter (λ c, s_name c = col) (df_data df)).

#[global] Instance repeated_dec df col : Decision (repeated df col).
Proof. unfold repeated. apply _. Defined.

(** What stops the Analyzer in its overview, if anything: the first
    label, in column order, that repeats (l.80, a DataFrame has no
    [.dtype]) or that does not take the format spec (l.82). *)
Fixpoint stops_at (df : DataFrame) (cols : list label) : option exn :=
  match cols with
  | [] => None
  | col :: rest =>
      if decide (repeated df col) then Some AttributeError
      else if formats col then stops_at df rest
      else Some TypeError
  end.

Definition blocked (df : DataFrame) : option exn := stops_at df (df_columns df).

(** The report of a table whose labels are distinct, for the text
    columns the Analyzer finds in it. *)
Definition report_of (df : DataFrame) (p : entry) (fmt : string) : Report :=
  {| file_name := e_name p;
     file_format := fmt;
     rows := index_len df;
     columns := length (df_data df);
     r_columns := df_columns df;
     dtypes := dtype_entry <$> df_data df;
     text_columns := text_cols df;
     sample_data := sample_entry <$> take 5 (filter textual (df_data df)) |}.

(** The extract: the header, and the first hundred rows. *)
Definition sample_csv (df : DataFrame) : chunk :=
  Csv (df_columns (head 100 df))
      (row (head 100 df) <$> seq 0 (index_len (head 100 df))).

(** The three files of a run that ends well, [mdc] being what went to
    the prose report. *)
Definition outputs (df : DataFrame) (p : entry) (fmt : string)
    (mdc : list chunk) (fs : gmap string file) : gmap string file :=
  <[sample_file := complete [sample_csv df]]>
    (<[report_md := complete mdc]>
       (<[report_json := complete [Json (report_of df p fmt)]]> fs)).

Definition add_chunks (cs : list chunk) (f : file) : file :=
  {| f_chunks := f_chunks f ++ cs; f_closed := f_closed f |}.

(** When no write operation to come fails, [c] returns, having only
    appended [cs] to the file at [path]. *)
Definition writes_chunks (path : string) (cs : list chunk) (c : M unit) : Prop :=
  ∀ w, true ∉ faults w →
    ∃ w', c w = (Ok tt, w') ∧ (true ∉ faults w') ∧
          files w' = alter (add_chunks cs) path (files w).

Definition writes (path : string) (c : M unit) : Prop :=
  ∃ cs, writes_chunks path cs c.

(** ** Invariants of a run

    A relation [T] between the world before, the exception raised if
    any, and the world after.  When the primitive operations keep it,
    every function of the script does: [L] tells which lines may be
    printed and [W] which paths may be written for [T] to be kept. *)

Definition sat (T : World → option exn → World → Prop) {A} (c : M A) : Prop :=
  ∀ w, T w (raised (c w).1) (c w).2.

Class Sound (T : World → option exn → World → Prop)
    (L : line → Prop) (W : string → Prop) := {
  sound_skip w o : T w o w;
  sound_seq w w' w'' o : T w None w' → T w' o w'' → T w o w'';
  sound_cleanup w e w' o w'' :
    T w (Some e) w' → T w' o w'' → o = None ∨ o = Some OSError →
    T w (Some (default e o)) w'';
  sound_print l : L l → sat T (print l);
  sound_read env r p : sat T (call_reader env r p);
  sound_io : sat T io;
  sound_insert path f : W path → sat T (modify (set_files (insert path f)));
  sound_alter path g : W path → sat T (modify (set_files (alter g path)))
}.

(** What is printed does not contain the first line of the
    total-failure guidance. *)
Definition T_quiet (w : World) (o : option exn) (w' : World) : Prop :=
  ∃ out, stdout w' = stdout w ++ out ∧ guidance_head ∉ out.

(** The record of reader calls only grows. *)
Definition T_reads (w : World) (o : option exn) (w' : World) : Prop :=
  reads w `prefix_of` reads w'.

(** The file at path [k] is left as it is. *)
Definition T_keeps (k : string) (w : World) (o : option exn) (w' : World) : Prop :=
  files w' !! k = files w !! k.

(** A write operation that fails ends the computation with [OSError]. *)
Definition T_faults (w : World) (o : option exn) (w' : World) : Prop :=
  ∃ used, faults w = used ++ faults w' ∧ (true ∈ used → o = Some OSError).

(** ** Concrete inputs *)

Definition ex_df : DataFrame :=
  {| index_len := 2;
     df_data :=
       [ {| s_name := "name"; s_dtype := DObject;
            s_values := [Some (VStr "glyphosate"); None] |};
         {| s_name := "note"; s_dtype := DObject; s_values := [None; None] |};
         {| s_name := "dose"; s_dtype := DInt64;
            s_values := [Some (VInt 1); Some (VInt 2)] |} ] |}.

Definition ex_bad : entry := {| e_name := "a.bin"; st_size := Some 10%N |}.
Definition ex_csv : entry := {| e_name := "b.csv"; st_size := Some 20%N |}.

(** Only [b.csv] decodes, and only as delimited text. *)
Definition ex_read (r : reader) (p : string) : DataFrame + string :=
  if decide (r = read_csv ∧ p = "data/b.csv") then inl ex_df else inr "bad".

Definition ex_env_two : Env := {| data_dir := Some [ex_bad; ex_csv]; pd_read := ex_read |}.
Definition ex_env_bad : Env := {| data_dir := Some [ex_bad]; pd_read := ex_read |}.
Definition ex_env_missing : Env := {| data_dir := None; pd_read := ex_read |}.

(** A link whose target is missing, listed after [a.bin]. *)
Definition ex_link : entry := {| e_name := "c.lnk"; st_size := None |}.
Definition ex_env_dangling : Env :=
  {| data_dir := Some [ex_bad; ex_link]; pd_read := ex_read |}.

(** ** Further vocabulary

    What the functions print and write, spelled out, and the
    judgements used on write operations that may fail. *)

(** What the prober prints after the file name: one line per reader
    called, the message of the exception for a reader that raises, the
    success line for the one that returns. *)
Fixpoint status_lines (env : Env) (p : entry) (l : list (reader * string))
    : list line :=
  match l with
  | [] => []
  | (r, tag) :: l' =>
      match pd_read env r (path_str p) with
      | inl _ => [ReadOk r]
      | inr msg => ReadFailed r msg :: status_lines env p l'
      end
  end.

(** What the prober prints for one candidate. *)
Definition probe_lines (env : Env) (p : entry) : list line :=
  TryRead (e_name p) :: status_lines env p (priority p).

(** [c] leaves the observation [f] of the world as it is. *)
Definition frames {X A} (f : World → X) (c : M A) : Prop :=
  ∀ w, f (c w).2 = f w.

(** l.82, one line per column. *)
Definition column_info (df : DataFrame) (ic : nat * Series) : line :=
  ColumnInfo ic.1 (s_name ic.2) (dtype_str (s_dtype ic.2)) (count ic.2) (shape0 df).

(** l.95-99, the label of a text column and the previews of its first
    two values. *)
Definition sample_previews (c : Series) : list line :=
  TextColumn (s_name c)
  :: ((λ jv : nat * value, SamplePreview jv.1 (preview (str jv.2)))
        <$> enumerate 1 (take 2 (dropna c))).

(** l.71-99, for a table whose labels are distinct. *)
Definition analysis_lines (df : DataFrame) (fmt : string) : list line :=
  [ Say (nl +:+ rule); Say "📊 数据详细分析"; Say rule;
    FileFormat fmt; DataShape (shape0 df) (shape1 df);
    Say (nl +:+ "📋 所有列名:") ]
  ++ (column_info df <$> enumerate 1 (df_data df))
  ++ [ Say (nl +:+ "👀 前3行数据预览:"); Preview (head 3 df);
       Say (nl +:+ "🔍 寻找文本列:") ]
  ++ concat (sample_previews <$> filter textual (df_data df)).

(** l.140 *)
Definition md_column (ic : nat * Series) : md :=
  MdColumn ic.1 (s_name ic.2) (dtype_str (s_dtype ic.2)) (count ic.2).

(** l.145-148 *)
Definition md_samples (c : Series) : list md :=
  MdHeading (s_name c)
  :: ((λ jv : nat * value, MdSample jv.1 (str_take 200 (str jv.2)))
        <$> enumerate 1 (take 2 (dropna c))).

(** l.129-148, for a table whose labels are distinct and the text
    columns the Analyzer finds in it. *)
Definition md_of (df : DataFrame) (p : entry) (fmt : string) : list md :=
  [ MdText ("# 农药数据分析报告" +:+ nl +:+ nl);
    MdText ("## 文件信息" +:+ nl);
    MdFileName (e_name p); MdFormat fmt; MdShape (shape0 df) (shape1 df);
    MdText ("## 数据列总览" +:+ nl); MdColumnCount (shape1 df) ]
  ++ (md_column <$> enumerate 1 (df_data df))
  ++ [ MdText (nl +:+ "## 文本列详情" +:+ nl); MdTextCount (length (text_cols df)) ]
  ++ concat (md_samples <$> filter textual (df_data df)).

(** The three files of a run that ends well. *)
Definition written (df : DataFrame) (p : entry) (fmt : string)
    (fs : gmap string file) : gmap string file :=
  outputs df p fmt (Md <$> md_of df p fmt) fs.

(** The first candidate of the listing that decodes, with its table and
    its tag: where the loop of l.170-192 stops. *)
Fixpoint first_decoded (env : Env) (l : list entry)
    : option (entry * DataFrame * string) :=
  match l with
  | [] => None
  | p :: rest =>
      match probe env p with
      | Some (df, fmt) => Some (p, df, fmt)
      | None => first_decoded env rest
      end
  end.

(** The candidates the loop of [main] is given: the listing when the
    File Locator returns it, none when it raises. *)
Definition candidates (env : Env) : list entry :=
  match located env with Ok l => l | Raise _ => [] end.

(** The exception that ends a run in which no write operation fails,
    and the files it leaves: read off the listing and the first
    candidate that decodes. *)
Definition verdict (env : Env) (fs : gmap string file)
    : option exn * gmap string file :=
  match located env with
  | Raise e => (Some e, fs)
  | Ok l =>
      match first_decoded env l with
      | None => (None, fs)
      | Some (p, df, fmt) =>
          match blocked df with
          | Some e => (Some e, fs)
          | None =>
              if serialisable (report_of df p fmt)
              then (None, written df p fmt fs)
              else (Some TypeError,
                    <[report_json := {| f_chunks := [JsonPrefix (report_of df p fmt)];
                                        f_closed := true |}]> fs)
          end
      end
  end.

(** Whatever the write operations do, [c] returns or raises [OSError],
    having appended to the file at [path] the first [k] chunks of [cs]:
    all of them if it returns. *)
Definition appends (path : string) (cs : list chunk) (c : M unit) : Prop :=
  ∀ w, ∃ k, k ≤ length cs ∧
    files (c w).2 = alter (add_chunks (take k cs)) path (files w) ∧
    ((c w).1 = Ok tt ∧ k = length cs ∨ (c w).1 = Raise OSError).

(** A file of which the first chunks of [cs] are written, closed or not. *)
Definition partial (cs : list chunk) (f : option file) : Prop :=
  ∃ k b, k ≤ length cs ∧ f = Some {| f_chunks := take k cs; f_closed := b |}.

(** Up to the candidate [p], the first that decodes, after [pre]. *)
Definition prologue (env : Env) (pre : list entry) (p : entry) : list line :=
  banner ++ listing_lines env ++ concat (probe_lines env <$> pre) ++ probe_lines env p.

(** l.174 and the Analyzer. *)
Definition opening (p : entry) (df : DataFrame) (fmt : string) : list line :=
  ReadSuccess (e_name p) :: analysis_lines df fmt.

(** l.150-152 *)
Definition report_saved : list line :=
  [ Say (nl +:+ "📄 报告已保存:");
    Say "  - data_analysis_report.json (机器可读)";
    Say "  - data_analysis_report.md (人可读)" ].

(** l.185-191 *)
Definition closing : list line :=
  [ SampleSaved sample_file;
    Say (nl +:+ rule);
    Say "🎯 下一步建议:";
    Say "1. 查看 data_analysis_report.md 了解数据结构";
    Say "2. 查看 pesticide_data_sample.csv 查看具体数据";
    Say "3. 根据找到的文本列设计DeepSeek API提问" ].

(** Nothing is printed. *)
Definition T_silent (w : World) (o : option exn) (w' : World) : Prop :=
  stdout w' = stdout w.

(** The line on the structured report, l.151, and the line on the
    extract, l.185. *)
Definition json_announced : line := Say "  - data_analysis_report.json (机器可读)".
Definition extract_announced : line := SampleSaved sample_file.

(** A line that is one of the two. *)
Definition announces (l : line) : bool :=
  bool_decide (l = json_announced) || bool_decide (l = extract_announced).

(** The candidates the loop of l.170-192 reaches: those of the listing
    up to the first that decodes, included. *)
Fixpoint tried (env : Env) (l : list entry) : list entry :=
  match l with
  | [] => []
  | p :: rest =>
      p :: match probe env p with Some _ => [] | None => tried env rest end
  end.

(** *** More concrete inputs *)

(** A sample of 101 characters. *)
Definition long_sample : string := String.concat EmptyString (replicate 101 "a").

(** A prose report left open by an earlier run. *)
Definition stale : gmap string file :=
  {[ report_md := {| f_chunks := [Md (MdText "old")]; f_closed := false |} ]}.

(** A table of two columns and no row, and a listing whose only entry
    decodes to it as delimited text. *)
Definition header_only : DataFrame :=
  {| index_len := 0;
     df_data := [ {| s_name := "name"; s_dtype := DObject; s_values := [] |};
                  {| s_name := "dose"; s_dtype := DObject; s_values := [] |} ] |}.

Definition ex_env_header : Env :=
  {| data_dir := Some [ex_csv];
     pd_read := λ r _, if decide (r = read_csv) then inl header_only else inr "bad" |}.

(** A generic environment: [data/] holds [b.csv] alone, which decodes
    as delimited text to the table [df]. *)
Definition ex_env_of (df : DataFrame) : Env :=
  {| data_dir := Some [ex_csv];
     pd_read := λ r _, if decide (r = read_csv) then inl df else inr "bad" |}.

(** A table whose only column holds calendar dates as Python objects,
    as a Parquet file with a date column decodes. *)
Definition ex_dated : DataFrame :=
  {| index_len := 1;
     df_data := [ {| s_name := "date"; s_dtype := DObject;
                     s_values := [Some (VObj "datetime.date(2020, 1, 1)")] |} ] |}.

(** An object column that holds floats. *)
Definition ex_floats : DataFrame :=
  {| index_len := 2;
     df_data := [ {| s_name := "dose"; s_dtype := DObject;
                     s_values := [Some (VFloat "1.5"); Some (VFloat "2.0")] |} ] |}.

(** A numeric column whose label is a timestamp, as a spreadsheet with
    a date in its header row decodes. *)
Definition ex_time_label : DataFrame :=
  {| index_len := 1;
     df_data := [ {| s_name := LTime "Timestamp('2020-01-01 00:00:00')";
                     s_dtype := DInt64; s_values := [Some (VInt 1)] |} ] |}.

(** A numeric column whose label is a tuple. *)
Definition ex_tuple_label : DataFrame :=
  {| index_len := 1;
     df_data := [ {| s_name := LTuple "('dose', 'mg')";
                     s_dtype := DInt64; s_values := [Some (VInt 1)] |} ] |}.

(** Two columns with the same label. *)
Definition ex_twice : DataFrame :=
  {| index_len := 1;
     df_data := [ {| s_name := "dose"; s_dtype := DInt64; s_values := [Some (VInt 1)] |};
                  {| s_name := "dose"; s_dtype := DInt64; s_values := [Some (VInt 2)] |} ] |}.

(** * Properties *)

(** ** The model at work *)

Example endswith_gzip : endswith "data/t.parquet.gzip" ".gzip" = true.
Proof. reflexivity. Qed.

Example endswith_bare : endswith "data/gzip" ".gzip" = false.
Proof. reflexivity. Qed.

Example dict_set_again :
  dict_set "a" 2 [(LStr "a", 1); (LStr "b", 3)] = [(LStr "a", 2); (LStr "b", 3)].
Proof. reflexivity. Qed.

Example column_twice :
  column {| index_len := 0;
            df_data := [ {| s_name := "a"; s_dtype := DObject; s_values := [] |};
                         {| s_name := "a"; s_dtype := DInt64; s_values := [] |} ] |}
         "a" = Raise AttributeError.
Proof. reflexivity. Qed.

Example probe_csv : probe ex_env_two ex_csv = Some (ex_df, "csv").
Proof. reflexivity. Qed.

Example readers_called :
  reads (final ex_env_two ∅ []) =
  [ (read_parquet, "data/a.bin"); (read_csv, "data/a.bin");
    (read_excel, "data/a.bin");
    (read_parquet, "data/b.csv"); (read_csv, "data/b.csv") ].
Proof. vm_compute. reflexivity. Qed.

Example files_written :
  dom (files (final ex_env_two ∅ [])) =
  {[ report_json; report_md; sample_file ]}.
Proof. vm_compute. reflexivity. Qed.

Example extract_written :
  files (final ex_env_two ∅ []) !! sample_file =
  Some (complete
    [Csv [LStr "name"; LStr "note"; LStr "dose"]
         [ [Some (VStr "glyphosate"); None; Some (VInt 1)];
           [None; None; Some (VInt 2)] ]]).
Proof. vm_compute. reflexivity. Qed.

(** ** Running the monad *)

Lemma bind_run {A B} (c : M A) (f : A → M B) w :
  (c ≫= f) w =
  match c w with (Ok a, w') => f a w' | (Raise e, w') => (Raise e, w') end.
Proof. reflexivity. Qed.

Lemma bind_assoc {A B C} (c : M A) (f : A → M B) (g : B → M C) w :
  ((c ≫= f) ≫= g) w = (c ≫= λ a, f a ≫= g) w.
Proof. rewrite !bind_run. by destruct (c w) as [[a|e] w']. Qed.

Ltac run :=
  unfold print, call_reader, modify, lift, mbind, M_bind, mret, M_ret; cbn.

(** A world is its four components. *)
Lemma world_eq w1 w2 :
  stdout w1 = stdout w2 → reads w1 = reads w2 → files w1 = files w2 →
  faults w1 = faults w2 → w1 = w2.
Proof. destruct w1, w2; cbn; congruence. Qed.

Ltac same_world :=
  f_equal; apply world_eq; cbn;
  rewrite ?(right_id_L [] (++)), <- ?(assoc_L (++)); cbn; done.

Lemma after_after w out rd out' rd' :
  after (after w out rd) out' rd' = after w (out ++ out') (rd ++ rd').
Proof. apply world_eq; cbn; by rewrite ?(assoc_L (++)). Qed.

Lemma after_nil w : after w [] [] = w.
Proof. apply world_eq; cbn; by rewrite ?(right_id_L [] (++)). Qed.

Lemma print_run l w : print l w = (Ok tt, after w [l] []).
Proof. run. f_equal. apply world_eq; cbn; by rewrite ?(right_id_L [] (++)). Qed.

Lemma for_each_print_run (ls : list line) w :
  for_each ls print w = (Ok tt, after w ls []).
Proof.
  revert w. induction ls as [|l ls IH]; intros w; cbn.
  - by rewrite after_nil.
  - rewrite bind_run, print_run, IH, after_after. done.
Qed.

(** ** The File Locator *)

(** The loop of l.24-26 stops at the first entry without a size. *)
Lemma for_each_entries_run (l : list entry) w :
  for_each l (λ file, size ← lift (stat file); print (FileEntry (e_name file) size)) w =
  (if decide (Forall sized l) then Ok tt else Raise OSError,
   after w (entry_lines l) []).
Proof.
  revert w. induction l as [|x l IH]; intros w; cbn [for_each entry_lines].
  - rewrite decide_True by constructor. cbn. by rewrite after_nil.
  - rewrite bind_run. unfold stat, sized.
    destruct (st_size x) as [n|] eqn:Hx; cbn.
    + rewrite bind_run. unfold lift at 1. rewrite print_run, IH, after_after.
      destruct (decide (Forall sized l)) as [Hl|Hl].
      * rewrite decide_True; [done|]. constructor; [|done]. unfold sized. by rewrite Hx.
      * rewrite decide_False; [done|]. by intros [_ ?]%Forall_cons.
    + rewrite decide_False; [by rewrite after_nil|].
      intros [Hs _]%Forall_cons. unfold sized in Hs. rewrite Hx in Hs. by destruct Hs.
Qed.

Lemma find_data_files_run env w :
  find_data_files env w = (located env, after w (listing_lines env) []).
Proof.
  unfold find_data_files, located, listing_lines. destruct (data_dir env) as [l|]; cbn.
  - rewrite bind_run, print_run, bind_run, for_each_entries_run, after_after.
    by destruct (decide (Forall sized l)).
  - rewrite bind_run, print_run, bind_run, print_run, after_after. done.
Qed.

(** A concrete listing is returned when each entry shows its size. *)
Ltac ex_listed :=
  split;
  [ reflexivity
  | repeat (apply Forall_cons; split; [unfold sized; eexists; reflexivity|]);
    by apply Forall_nil ].

(** Facts of a concrete table or fault list, by evaluation. *)
Ltac ex_labels := refine (bool_decide_unpack _ _); vm_compute; exact I.

(** A concrete run that decodes. *)
Ltac ex_decodes :=
  split; [ex_listed|split; [repeat constructor|split; [reflexivity|ex_labels]]].

Lemma located_listed env l : listed env l → located env = Ok l.
Proof. intros [Hdir Hl]. unfold located. by rewrite Hdir, decide_True. Qed.

(** ** The Format Prober *)

Lemma endswith_data n : endswith ("data/" +:+ n) ".gzip" = endswith n ".gzip".
Proof. reflexivity. Qed.

Lemma try_read_file_run env p w :
  ∃ out, try_read_file env p w = (Ok (probe env p), after w out (attempts env p)).
Proof.
  unfold probe, attempts, try_read_file, priority.
  rewrite <- (endswith_data (e_name p)). fold (path_str p).
  rewrite bind_run, print_run. run.
  destruct (pd_read env read_parquet (path_str p)) eqn:E1; cbn.
  { eexists [_; _]. same_world. }
  destruct (pd_read env read_csv (path_str p)) eqn:E2; cbn.
  { eexists [_; _; _]. same_world. }
  destruct (pd_read env read_excel (path_str p)) eqn:E3; cbn.
  { eexists [_; _; _; _]. same_world. }
  destruct (endswith (path_str p) ".gzip"); cbn.
  2: { eexists [_; _; _; _]. same_world. }
  destruct (pd_read env read_parquet_pyarrow (path_str p)) eqn:E4; cbn.
  { eexists [_; _; _; _; _]. same_world. }
  { eexists [_; _; _; _; _]. same_world. }
Qed.

Lemma first_match_cons env p r tag l :
  ∃ tl, (first_match env p ((r, tag) :: l)).1 = r :: tl.
Proof.
  cbn [first_match]. destruct (pd_read env r (path_str p)); [by exists []|].
  destruct (first_match env p l) as [tried found]. by exists tried.
Qed.

(** The columnar-binary reader is always the first one called. *)
Lemma attempts_head env p :
  ∃ tl, attempts env p = (read_parquet, path_str p) :: tl.
Proof.
  unfold attempts, priority. cbn [app].
  destruct (first_match_cons env p read_parquet "parquet"
              ((read_csv, "csv") :: (read_excel, "excel") ::
               (if endswith (e_name p) ".gzip"
                then [(read_parquet_pyarrow, "parquet.gzip")] else [])))
    as [tl ->].
  by exists ((λ r, (r, path_str p)) <$> tl).
Qed.

(** ** The loop over the candidates *)

Lemma main_loop_skip env pre l w :
  Forall (λ p, probe env p = None) pre →
  ∃ out, main_loop env (pre ++ l) w =
         main_loop env l (after w out (concat (attempts env <$> pre))).
Proof.
  revert w. induction pre as [|p pre IH]; intros w Hpre.
  - exists []. cbn. by rewrite after_nil.
  - apply Forall_cons in Hpre as [Hp Hpre]. cbn.
    destruct (try_read_file_run env p w) as [out Hrun].
    rewrite bind_run, Hrun, Hp.
    destruct (IH (after w out (attempts env p)) Hpre) as [out' ->].
    exists (out ++ out'). by rewrite after_after.
Qed.

Lemma main_loop_all_fail env l w :
  Forall (λ p, probe env p = None) l →
  ∃ out, main_loop env l w =
         (Ok tt, after w (out ++ no_file_readable) (concat (attempts env <$> l))).
Proof.
  intros Hl. destruct (main_loop_skip env l [] w Hl) as [out Hrun].
  rewrite (right_id_L [] (++)) in Hrun. rewrite Hrun. exists out.
  cbn [main_loop]. rewrite for_each_print_run, after_after.
  by rewrite (right_id_L [] (++)).
Qed.

(** ** The whole run *)

(** With a listing that is not empty, [main] is its loop. *)
Lemma main_run env w l :
  listed env l → l ≠ [] →
  main env w = main_loop env l (after w (banner ++ listing_lines env) []).
Proof.
  intros Hdir Hne. unfold main.
  rewrite bind_run, print_run, bind_run, print_run, bind_run.
  rewrite find_data_files_run, (located_listed env l Hdir), !after_after.
  destruct l as [|p l]; [done|]. reflexivity.
Qed.

Lemma main_all_fail env w l :
  listed env l → l ≠ [] →
  Forall (λ p, probe env p = None) l →
  ∃ out, main env w =
         (Ok tt, after w (out ++ no_file_readable) (concat (attempts env <$> l))).
Proof.
  intros Hdir Hne Hfail. rewrite (main_run env w l Hdir Hne).
  destruct (main_loop_all_fail env l (after w (banner ++ listing_lines env) []) Hfail)
    as [out ->].
  exists (banner ++ listing_lines env ++ out).
  rewrite after_after, <- !(assoc_L (++)). reflexivity.
Qed.

Lemma probes_dec env l :
  Forall (λ p, probe env p = None) l ∨ Exists (λ p, probe env p ≠ None) l.
Proof.
  induction l as [|p l [IH|IH]].
  - left. constructor.
  - destruct (probe env p) eqn:Hp.
    + right. left. by rewrite Hp.
    + left. by constructor.
  - right. by right.
Qed.

(** ** The prober, and the runs that decode nothing *)

Lemma first_match_spec env p l :
  match (first_match env p l).2 with
  | Some (df, tag) =>
      ∃ l1 r l2, l = l1 ++ (r, tag) :: l2 ∧
        pd_read env r (path_str p) = inl df ∧
        Forall (fails env p) l1 ∧
        (first_match env p l).1 = l1.*1 ++ [r]
  | None => Forall (fails env p) l ∧ (first_match env p l).1 = l.*1
  end.
Proof.
  induction l as [|[r tag] l IH]; cbn [first_match].
  - by split.
  - destruct (pd_read env r (path_str p)) as [df|msg] eqn:Hr; cbn.
    + by exists [], r, l.
    + destruct (first_match env p l) as [tried [[df tag']|]]; cbn in *.
      * destruct IH as (l1 & r' & l2 & -> & Hok & Hl1 & ->).
        exists ((r, tag) :: l1), r', l2. split_and!; try done.
        constructor; [by exists msg|done].
      * destruct IH as [Hl ->]. split; [|done].
        constructor; [by exists msg|done].
Qed.

(** C2. For every candidate file the prober calls the readers in the
    fixed order parquet, csv, excel and, only when the file name ends
    with [.gzip], parquet with the explicit engine.  A reader that
    raises is passed over and the next one is called.  The result is
    the table of the first reader that succeeds, with that reader's
    tag, and no reader after it is called; when every reader raises the
    result is [None].  The prober itself never raises and writes no
    file. *)
Theorem try_read_file_priority env p w :
  ∃ out tried found,
    try_read_file env p w =
      (Ok found, after w out ((λ r, (r, path_str p)) <$> tried)) ∧
    match found with
    | Some (df, tag) =>
        ∃ l1 r l2, priority p = l1 ++ (r, tag) :: l2 ∧
          pd_read env r (path_str p) = inl df ∧
          Forall (fails env p) l1 ∧
          tried = l1.*1 ++ [r]
    | None => Forall (fails env p) (priority p) ∧ tried = (priority p).*1
    end.
Proof.
  destruct (try_read_file_run env p w) as [out Hrun].
  exists out, (first_match env p (priority p)).1, (probe env p).
  split; [exact Hrun|]. apply first_match_spec.
Qed.

(** C7 does not hold of every listing: when [data/] holds an entry
    whose size cannot be had (here a link whose target is missing), no
    candidate decodes, and yet the run ends with [OSError] in the File
    Locator, before any probe and without the guidance. *)
Lemma listing_cut_short :
  Forall (λ p, probe ex_env_dangling p = None) [ex_bad; ex_link] ∧
  outcome ex_env_dangling ∅ [] = Some OSError ∧
  (guidance_head ∉ stdout (final ex_env_dangling ∅ [])) ∧
  reads (final ex_env_dangling ∅ []) = [].
Proof.
  split; [by repeat constructor|]. split; [reflexivity|]. split; [|reflexivity].
  refine (bool_decide_unpack _ _). vm_compute. exact I.
Qed.

(** C7, amended.  If the File Locator returns a listing that is not
    empty and no candidate decodes in any format, the run prints the
    total-failure guidance, all six lines of it, last; it writes no
    file and returns normally. *)
Theorem total_failure env w l :
  listed env l → l ≠ [] →
  Forall (λ p, probe env p = None) l →
  ∃ w', main env w = (Ok tt, w') ∧
        (∃ out, stdout w' = stdout w ++ out ++ guidance) ∧
        files w' = files w ∧ faults w' = faults w.
Proof.
  intros Hdir Hne Hfail.
  destruct (main_all_fail env w l Hdir Hne Hfail) as [out ->].
  eexists; split; [reflexivity|]. cbn [stdout files faults after].
  split_and!; [by exists out|reflexivity..].
Qed.

Lemma total_failure_witness :
  ∃ w', main ex_env_bad (start ∅ []) = (Ok tt, w') ∧
        (∃ out, stdout w' = stdout (start ∅ []) ++ out ++ guidance) ∧
        files w' = files (start ∅ []) ∧ faults w' = faults (start ∅ []).
Proof.
  apply (total_failure ex_env_bad (start ∅ []) [ex_bad]).
  - ex_listed.
  - discriminate.
  - repeat constructor.
Defined.

(** C8. If the listing is empty, because [data/] does not exist or
    holds no entry, the run raises nothing: it reports the condition,
    prints the suggestions, calls no reader, writes no file and
    returns. *)
Theorem no_input_terminates env w :
  data_dir env = None ∨ data_dir env = Some [] →
  ∃ w', main env w = (Ok tt, w') ∧
        stdout w' = stdout w ++ banner ++ listing_lines env ++ suggestions ∧
        reads w' = reads w ∧ files w' = files w ∧ faults w' = faults w.
Proof.
  intros Hdir. unfold main.
  rewrite bind_run, print_run, bind_run, print_run, bind_run.
  rewrite find_data_files_run.
  assert (located env = Ok []) as ->.
  { unfold located. destruct Hdir as [-> | ->]; [done|].
    by rewrite decide_True by constructor. }
  rewrite for_each_print_run. eexists; split; [reflexivity|].
  cbn [stdout reads files faults after].
  rewrite ?(right_id_L [] (++)), <- ?(assoc_L (++)). done.
Qed.

Lemma no_input_terminates_witness :
  ∃ w', main ex_env_missing (start ∅ []) = (Ok tt, w') ∧
        stdout w' = stdout (start ∅ []) ++ banner
                           ++ listing_lines ex_env_missing ++ suggestions ∧
        reads w' = reads (start ∅ []) ∧ files w' = files (start ∅ []) ∧
        faults w' = faults (start ∅ []).
Proof. apply (no_input_terminates ex_env_missing (start ∅ [])). left. reflexivity. Defined.

(** ** Every function keeps a sound invariant *)

Section sound.
Context `{Sound T L W}.

Lemma sat_ret {A} (a : A) : sat T (mret a).
Proof. intros w. apply sound_skip. Qed.

Lemma sat_lift {A} (r : res A) : sat T (lift r).
Proof. intros w. apply sound_skip. Qed.

(** The continuation matters only at the values the first part returns. *)
Lemma sat_bind_run {A B} (c : M A) (f : A → M B) :
  sat T c → (∀ w a w', c w = (Ok a, w') → sat T (f a)) → sat T (c ≫= f).
Proof.
  intros Hc Hf w. rewrite bind_run. specialize (Hc w).
  destruct (c w) as [[a|e] w'] eqn:Hrun; cbn in *; [|done].
  eapply sound_seq; [exact Hc|]. by eapply Hf.
Qed.

Lemma sat_bind {A B} (c : M A) (f : A → M B) :
  sat T c → (∀ a, sat T (f a)) → sat T (c ≫= f).
Proof. intros Hc Hf. apply sat_bind_run; auto. Qed.

Lemma sat_for_each {A} (l : list A) (body : A → M unit) :
  (∀ x, x ∈ l → sat T (body x)) → sat T (for_each l body).
Proof.
  induction l as [|x l IH]; intros Hbody; cbn.
  - apply sat_ret.
  - apply sat_bind; [apply Hbody; left|].
    intros _. apply IH. intros y Hy. apply Hbody. by right.
Qed.

Lemma io_raises w : raised (io w).1 = None ∨ raised (io w).1 = Some OSError.
Proof. unfold io. destruct (faults w) as [|[] ?]; cbn; auto. Qed.

Lemma sat_f_open path : W path → sat T (f_open path).
Proof.
  intros HW. apply sat_bind; [apply sound_io|]. intros _. by apply sound_insert.
Qed.

Lemma sat_f_write path c : W path → sat T (f_write path c).
Proof.
  intros HW. apply sat_bind; [apply sound_io|]. intros _. by apply sound_alter.
Qed.

Lemma sat_f_close path : W path → sat T (f_close path).
Proof.
  intros HW. apply sat_bind; [apply sound_io|]. intros _. by apply sound_alter.
Qed.

Lemma f_close_raises path w :
  raised (f_close path w).1 = None ∨ raised (f_close path w).1 = Some OSError.
Proof.
  unfold f_close. rewrite bind_run. pose proof (io_raises w) as Hio.
  destruct (io w) as [[[]|e] w']; cbn in *; auto.
Qed.

Lemma sat_with_open {A} path (body : M A) :
  W path → sat T body → sat T (with_open path body).
Proof.
  intros HW Hbody. apply sat_bind; [by apply sat_f_open|]. intros _ w.
  unfold finally. specialize (Hbody w).
  destruct (body w) as [[a|e] w'] eqn:Hrun; cbn in *.
  - rewrite bind_run. pose proof (sat_f_close path HW w') as Hclose.
    destruct (f_close path w') as [[[]|e'] w'']; cbn in *;
      eapply sound_seq; eauto.
  - pose proof (sat_f_close path HW w') as Hclose.
    pose proof (f_close_raises path w') as Hr.
    destruct (f_close path w') as [[[]|e'] w'']; cbn in *.
    + by apply (sound_cleanup w e w' None w'').
    + destruct Hr as [?|[= ->]]; [done|].
      by apply (sound_cleanup w e w' (Some OSError) w''); auto.
Qed.

(** *** The functions of the script *)

Hypothesis L_any : ∀ l, l ≠ guidance_head → L l.

Ltac line := apply sound_print, L_any; by (intros [=]).
Ltac seq := repeat first [apply sat_bind; [|intros ?] | apply sat_ret | line].

Lemma sat_find_data_files env : sat T (find_data_files env).
Proof.
  unfold find_data_files. destruct (data_dir env) as [l|]; seq.
  apply sat_for_each. intros file _.
  apply sat_bind; [apply sat_lift|]. intros size. line.
Qed.

Lemma sat_try_read_file env p : sat T (try_read_file env p).
Proof.
  unfold try_read_file.
  repeat first
    [ apply sound_read | apply sat_bind; [|intros ?] | apply sat_ret | line
    | match goal with |- sat _ (match ?x with _ => _ end) => destruct x end ].
Qed.

Lemma sat_text_loop df cols acc : sat T (text_loop df cols acc).
Proof.
  revert acc. induction cols as [|col cols IH]; intros acc; cbn [text_loop].
  - apply sat_ret.
  - apply sat_bind; [apply sat_lift|]. intros s.
    destruct (is_object (s_dtype s)); [|apply IH]. cbv zeta.
    destruct (0 <? length (take 2 (dropna s)))%nat; [|apply IH].
    apply sat_bind; [line|]. intros _.
    apply sat_bind; [|intros _; apply IH].
    apply sat_for_each. intros [j sample] _. line.
Qed.

Lemma sat_analyze_dataframe df fmt : sat T (analyze_dataframe df fmt).
Proof.
  unfold analyze_dataframe.
  repeat (apply sat_bind; [|intros ?]); try line; try apply sat_text_loop.
  apply sat_for_each. intros [i col] _.
  apply sat_bind; [apply sat_lift|]. intros s.
  apply sat_bind; [apply sat_lift|]. intros _. line.
Qed.

Lemma sat_json_dump path report : W path → sat T (json_dump path report).
Proof.
  intros HW. unfold json_dump.
  destruct (serialisable report); [by apply sat_f_write|].
  apply sat_bind; [by apply sat_f_write|]. intros _. apply sat_lift.
Qed.

Lemma sat_write_json report : W report_json → sat T (write_json report).
Proof. intros Wj. by apply sat_with_open, sat_json_dump. Qed.

Lemma sat_write_md df tc p fmt : W report_md → sat T (write_md df tc p fmt).
Proof.
  intros Wm. apply sat_with_open; [done|]. cbv beta zeta.
  repeat first [by apply sat_f_write | apply sat_bind; [|intros ?]].
  - apply sat_for_each. intros [i col] _.
    apply sat_bind; [apply sat_lift|]. intros s. by apply sat_f_write.
  - apply sat_for_each. intros col _.
    apply sat_bind; [by apply sat_f_write|]. intros _.
    apply sat_bind; [apply sat_lift|]. intros s.
    apply sat_for_each. intros [j sample] _. by apply sat_f_write.
Qed.

(** What follows the structured report in [save_report]. *)
Lemma sat_after_json df tc p fmt :
  W report_md →
  sat T (write_md df tc p fmt;;
         print (Say (nl +:+ "📄 报告已保存:"));;
         print (Say "  - data_analysis_report.json (机器可读)");;
         print (Say "  - data_analysis_report.md (人可读)")).
Proof. intros Wm. apply sat_bind; [by apply sat_write_md|]. intros _. seq. Qed.

Lemma sat_save_report df tc p fmt :
  W report_json → W report_md → sat T (save_report df tc p fmt).
Proof.
  intros Wj Wm. unfold save_report.
  apply sat_bind; [apply sat_lift|]. intros report.
  apply sat_bind; [by apply sat_write_json|]. intros _.
  by apply sat_after_json.
Qed.

Lemma sat_to_csv df path : W path → sat T (to_csv df path).
Proof. intros HW. by apply sat_with_open, sat_f_write. Qed.

(** What follows [save_report] in [process]. *)
Lemma sat_after_report df :
  W sample_file →
  sat T (to_csv (head 100 df) sample_file;;
         print (SampleSaved sample_file);;
         print (Say (nl +:+ rule));;
         print (Say "🎯 下一步建议:");;
         print (Say "1. 查看 data_analysis_report.md 了解数据结构");;
         print (Say "2. 查看 pesticide_data_sample.csv 查看具体数据");;
         print (Say "3. 根据找到的文本列设计DeepSeek API提问")).
Proof. intros Ws. apply sat_bind; [by apply sat_to_csv|]. intros _. seq. Qed.

Lemma sat_process df p fmt :
  W report_json → W report_md → W sample_file → sat T (process p df fmt).
Proof.
  intros Wj Wm Ws. unfold process.
  apply sat_bind; [line|]. intros _.
  apply sat_bind; [apply sat_analyze_dataframe|]. intros tc.
  apply sat_bind; [by apply sat_save_report|]. intros _.
  by apply sat_after_report.
Qed.

(** A loop that meets a candidate that decodes never reaches its
    [else]. *)
Lemma sat_main_loop_hit env l :
  W report_json → W report_md → W sample_file →
  Exists (λ p, probe env p ≠ None) l → sat T (main_loop env l).
Proof.
  intros Wj Wm Ws. induction l as [|p l IH]; intros Hhit.
  - by apply Exists_nil in Hhit.
  - cbn [main_loop]. apply sat_bind_run; [apply sat_try_read_file|].
    intros w r w' Hrun. destruct (try_read_file_run env p w) as [out Hrun'].
    rewrite Hrun' in Hrun. injection Hrun as <- _.
    destruct (probe env p) as [[df fmt]|] eqn:Hp.
    + by apply sat_process.
    + apply IH. apply Exists_cons in Hhit as [?|?]; done.
Qed.

Lemma sat_main_loop env l :
  W report_json → W report_md → W sample_file → L guidance_head →
  sat T (main_loop env l).
Proof.
  intros Wj Wm Ws Lg. induction l as [|p l IH]; cbn [main_loop].
  - apply sat_for_each. intros x Hx. apply sound_print.
    unfold no_file_readable in Hx. rewrite !elem_of_cons, elem_of_nil in Hx.
    decompose [or] Hx; subst;
      first [exact Lg | apply L_any; by intros [=] | done].
  - apply sat_bind; [apply sat_try_read_file|]. intros [[df fmt]|]; [|done].
    by apply sat_process.
Qed.

Lemma sat_main env :
  W report_json → W report_md → W sample_file → L guidance_head →
  sat T (main env).
Proof.
  intros Wj Wm Ws Lg. unfold main.
  apply sat_bind; [line|]. intros _.
  apply sat_bind; [line|]. intros _.
  apply sat_bind; [apply sat_find_data_files|]. intros [|p l].
  - apply sat_for_each. intros x Hx. apply sound_print, L_any.
    unfold no_input in Hx. rewrite !elem_of_cons, elem_of_nil in Hx.
    decompose [or] Hx; subst; by intros [=].
  - by apply sat_main_loop.
Qed.

(** So does a run whose listing holds a candidate that decodes. *)
Lemma sat_main_hit env l :
  W report_json → W report_md → W sample_file →
  data_dir env = Some l → Exists (λ p, probe env p ≠ None) l →
  sat T (main env).
Proof.
  intros Wj Wm Ws Hdir Hhit. unfold main.
  apply sat_bind; [line|]. intros _.
  apply sat_bind; [line|]. intros _.
  apply sat_bind_run; [apply sat_find_data_files|]. intros w a w' Hrun.
  rewrite find_data_files_run in Hrun. unfold located in Hrun. rewrite Hdir in Hrun.
  destruct (decide (Forall sized l)); [|done]. injection Hrun as <- _.
  destruct l as [|p l].
  - by apply Exists_nil in Hhit.
  - by apply sat_main_loop_hit.
Qed.
End sound.

(** *** Four invariants *)

#[global] Instance quiet_sound : Sound T_quiet (λ l, l ≠ guidance_head) (λ _, True).
Proof.
  assert (∀ w o w', stdout w' = stdout w → T_quiet w o w') as Hsame.
  { intros w o w' E. exists [].
    split; [by rewrite (right_id_L [] (++))|apply not_elem_of_nil]. }
  assert (∀ w w' w'' o o' o'', T_quiet w o w' → T_quiet w' o' w'' → T_quiet w o'' w'')
    as Hseq.
  { intros w w' w'' o o' o'' (out & E & Hout) (out' & E' & Hout').
    exists (out ++ out'). rewrite E', E, (assoc_L (++)), elem_of_app. tauto. }
  split; unfold sat.
  - intros w o. by apply Hsame.
  - intros w w' w'' o. apply Hseq.
  - intros w e w' o w'' H1 H2 _. by eapply Hseq.
  - intros l Hl w. exists [l]. cbn. split; [done|].
    rewrite list_elem_of_singleton. congruence.
  - intros env r p w. by apply Hsame.
  - intros w. apply Hsame. unfold io. by destruct (faults w) as [|[] ?].
  - intros path f _ w. by apply Hsame.
  - intros path g _ w. by apply Hsame.
Qed.

#[global] Instance reads_sound : Sound T_reads (λ _, True) (λ _, True).
Proof.
  split; unfold sat, T_reads; cbn; try done.
  - intros w w' w'' _ ??. by etrans.
  - intros w _ w' _ w'' ?? _. by etrans.
  - intros env r p w. by apply prefix_app_r.
  - intros w. unfold io. by destruct (faults w) as [|[] ?].
Qed.

#[global] Instance keeps_sound k : Sound (T_keeps k) (λ _, True) (λ path, path ≠ k).
Proof.
  split; unfold sat, T_keeps; cbn; try done.
  - intros w w' w'' _ ??. by etrans.
  - intros w _ w' _ w'' ?? _. by etrans.
  - intros w. unfold io. by destruct (faults w) as [|[] ?].
  - intros path f Hne w. by rewrite lookup_insert_ne.
  - intros path g Hne w. by rewrite lookup_alter_ne.
Qed.

#[global] Instance faults_sound : Sound T_faults (λ _, True) (λ _, True).
Proof.
  assert (∀ w o w', faults w' = faults w → T_faults w o w') as Hsame.
  { intros w o w' E. exists []. split; [by rewrite E|]. by intros ?%elem_of_nil. }
  split; unfold sat.
  - intros w o. by apply Hsame.
  - intros w w' w'' o (u1 & E1 & H1) (u2 & E2 & H2). exists (u1 ++ u2).
    split; [by rewrite E1, E2, (assoc_L (++))|].
    rewrite elem_of_app. intros [Hu|Hu]; [by specialize (H1 Hu)|auto].
  - intros w e w' o w'' (u1 & E1 & H1) (u2 & E2 & H2) Ho. exists (u1 ++ u2).
    split; [by rewrite E1, E2, (assoc_L (++))|].
    rewrite elem_of_app. intros [Hu|Hu].
    + specialize (H1 Hu). destruct Ho as [-> | ->]; cbn; congruence.
    + specialize (H2 Hu). by subst o.
  - intros l _ w. by apply Hsame.
  - intros env r p w. by apply Hsame.
  - intros w. unfold io. destruct (faults w) as [|[] fs] eqn:E; cbn.
    + by apply Hsame.
    + exists [true]. by rewrite E.
    + exists [false]. rewrite E. split; [done|].
      rewrite list_elem_of_singleton. done.
  - intros path f _ w. by apply Hsame.
  - intros path g _ w. by apply Hsame.
Qed.

(** ** The loop goes on after a candidate that does not decode *)

(** C1, as stated, fails: with [a.bin], which no reader accepts, listed
    before [b.csv], the run does not print the total-failure guidance
    and does call a reader on [b.csv]. *)
Lemma first_failure_is_not_final :
  probe ex_env_two ex_bad = None ∧
  (guidance_head ∉ stdout (final ex_env_two ∅ [])) ∧
  (read_parquet, path_str ex_csv) ∈ reads (final ex_env_two ∅ []).
Proof.
  split; [reflexivity|]. split.
  - refine (bool_decide_unpack _ _). vm_compute. exact I.
  - refine (bool_decide_unpack _ _). vm_compute. exact I.
Qed.

(** C1, amended.  If the first candidate fails to decode in every
    format, the run probes the next candidate of the listing, if there
    is one, and the total-failure guidance is printed exactly when
    every candidate of the listing fails in every format: right after
    the first candidate only when it is the only one. *)
Theorem guidance_after_last_candidate env p l fs flt :
  listed env (p :: l) → probe env p = None →
  (∀ q l', l = q :: l' →
     (read_parquet, path_str q) ∈ reads (final env fs flt)) ∧
  (guidance_head ∈ stdout (final env fs flt) ↔
     Forall (λ q, probe env q = None) (p :: l)).
Proof.
  intros Hdir Hp. unfold final. split.
  - intros q l' ->. rewrite (main_run env _ _ Hdir) by done.
    cbn [main_loop]. rewrite bind_run.
    match goal with |- context [try_read_file env p ?w0] =>
      destruct (try_read_file_run env p w0) as [out ->] end.
    rewrite Hp, bind_run.
    match goal with |- context [try_read_file env q ?w0] =>
      destruct (try_read_file_run env q w0) as [out' ->]; set (w1 := after w0 out' (attempts env q)) end.
    assert ((read_parquet, path_str q) ∈ reads w1) as Hin.
    { destruct (attempts_head env q) as [tl Htl]. subst w1. cbn [reads after].
      rewrite Htl, !elem_of_app, elem_of_cons. auto. }
    assert (∀ c : M unit, sat T_reads c → (read_parquet, path_str q) ∈ reads (c w1).2)
      as Hgrow.
    { intros c Hc. destruct (Hc w1) as [k ->]. rewrite elem_of_app. auto. }
    destruct (probe env q) as [[df fmt]|].
    + apply Hgrow. by apply (sat_process (λ _ _, I)).
    + apply Hgrow. by apply (sat_main_loop (λ _ _, I)).
  - split.
    + intros Hin. destruct (probes_dec env (p :: l)) as [?|Hhit]; [done|].
      exfalso. unshelve epose proof (sat_main_hit (T:=T_quiet) (λ _ H, H) env (p :: l) I I I (proj1 Hdir) Hhit (start fs flt)) as (out & Hout & Hno).
      rewrite Hout in Hin. by apply Hno.
    + intros Hall. destruct (main_all_fail env (start fs flt) (p :: l) Hdir) as [out ->]; [done..|].
      cbn. rewrite !elem_of_app. right. left.
Qed.

Lemma guidance_after_last_candidate_witness :
  (∀ q l', [ex_csv] = q :: l' →
     (read_parquet, path_str q) ∈ reads (final ex_env_two ∅ [])) ∧
  (guidance_head ∈ stdout (final ex_env_two ∅ []) ↔
     Forall (λ q, probe ex_env_two q = None) [ex_bad; ex_csv]).
Proof.
  apply (guidance_after_last_candidate ex_env_two ex_bad [ex_csv] ∅ []).
  - ex_listed.
  - reflexivity.
Defined.

(** ** The Analyzer *)

(** *** Looking a column up by its label *)

Lemma filter_none {A} (P : A → Prop) `{∀ x, Decision (P x)} (l : list A) :
  (∀ x, x ∈ l → ¬ P x) → filter P l = [].
Proof.
  induction l as [|x l IH]; intros Hl; [done|].
  rewrite filter_cons_False by (apply Hl; left).
  apply IH. intros y Hy. apply Hl. by right.
Qed.

Lemma filter_label (l : list Series) c :
  NoDup (s_name <$> l) → c ∈ l →
  filter (λ c', s_name c' = s_name c) l = [c].
Proof.
  induction l as [|x l IH]; intros Hnd Hc; [by apply elem_of_nil in Hc|].
  rewrite fmap_cons in Hnd. apply NoDup_cons in Hnd as [Hx Hnd].
  apply elem_of_cons in Hc as [->|Hc].
  - rewrite filter_cons_True by done. f_equal.
    apply filter_none. intros y Hy Heq. apply Hx.
    rewrite <- Heq. by apply list_elem_of_fmap_2.
  - rewrite filter_cons_False; [by apply IH|].
    intros Heq. apply Hx. rewrite Heq. by apply list_elem_of_fmap_2.
Qed.

Lemma column_lookup df c :
  NoDup (df_columns df) → c ∈ df_data df → column df (s_name c) = Ok c.
Proof. intros Hnd Hc. unfold column. by rewrite filter_label. Qed.

(** *** What the two tests of the loop decide *)

Lemma is_object_spec c : is_object (s_dtype c) = true ↔ object_like c.
Proof. unfold object_like. by destruct (s_dtype c). Qed.

Lemma dropna_nil c : dropna c = [] ↔ ¬ Exists is_Some (s_values c).
Proof.
  unfold dropna. induction (s_values c) as [|[v|] l IH]; cbn.
  - split; [|done]. by intros _ ?%Exists_nil.
  - split; [done|]. intros []. left. by eexists.
  - rewrite IH, Exists_cons. split; [|tauto].
    intros Hl [[? [=]]|?]. by apply Hl.
Qed.

Lemma has_samples_spec c :
  (0 <? length (take 2 (dropna c)))%nat = true ↔ Exists is_Some (s_values c).
Proof.
  rewrite Nat.ltb_lt. destruct (decide (Exists is_Some (s_values c))) as [Hc|Hc].
  - split; [done|]. intros _. destruct (dropna c) as [|v l] eqn:E.
    + by apply dropna_nil in E.
    + cbn. lia.
  - apply dropna_nil in Hc as E. rewrite E. cbn. split; [lia|done].
Qed.

(** Every sample kept is a value of the column. *)
Lemma dropna_elem c v : v ∈ dropna c ↔ Some v ∈ s_values c.
Proof.
  unfold dropna. rewrite list_elem_of_omap. split.
  - by intros ([?|] & ? & [= ->]).
  - intros ?. by exists (Some v).
Qed.

(** *** Loops that only print *)

Lemma for_each_prints {A} (l : list A) (body : A → M unit) w :
  (∀ x w, x ∈ l → ∃ out, body x w = (Ok tt, after w out [])) →
  ∃ out, for_each l body w = (Ok tt, after w out []).
Proof.
  revert w. induction l as [|x l IH]; intros w Hbody; cbn.
  - exists []. by rewrite after_nil.
  - destruct (Hbody x w) as [out Hx]; [left|].
    destruct (IH (after w out [])) as [out' Hl].
    { intros y w' Hy. apply Hbody. by right. }
    exists (out ++ out'). by rewrite bind_run, Hx, Hl, after_after.
Qed.

Lemma enumerate_elem {A} (l : list A) start i x :
  (i, x) ∈ enumerate start l → x ∈ l.
Proof. apply elem_of_zip_r. Qed.

Lemma text_loop_run df cs acc w :
  (∀ c, c ∈ cs → column df (s_name c) = Ok c) →
  ∃ out, text_loop df (s_name <$> cs) acc w =
         (Ok (acc ++ (s_name <$> filter textual cs)), after w out []).
Proof.
  revert acc w. induction cs as [|c cs IH]; intros acc w Hcol.
  - exists []. cbn. by rewrite (right_id_L [] (++)), after_nil.
  - rewrite fmap_cons. cbn [text_loop]. rewrite bind_run. unfold lift at 1.
    rewrite Hcol by left. cbv zeta.
    assert (∀ c', c' ∈ cs → column df (s_name c') = Ok c') as Hcs.
    { intros c' Hc'. apply Hcol. by right. }
    destruct (is_object (s_dtype c)) eqn:Hobj.
    2: { rewrite filter_cons_False; [by apply IH|].
         intros [Hc _]. apply is_object_spec in Hc. congruence. }
    destruct (0 <? length (take 2 (dropna c)))%nat eqn:Hval.
    2: { rewrite filter_cons_False; [by apply IH|].
         intros [_ Hc]. apply has_samples_spec in Hc. congruence. }
    rewrite filter_cons_True.
    2: { split; [by apply is_object_spec|by apply has_samples_spec]. }
    rewrite bind_run, print_run, bind_run.
    edestruct (for_each_prints (enumerate 1 (take 2 (dropna c)))) as [out ->].
    { intros [j sample] w' _. eexists. apply print_run. }
    destruct (IH (acc ++ [s_name c]) (after (after w [TextColumn (s_name c)] []) out []) Hcs)
      as [out' ->].
    eexists. rewrite !after_after, fmap_cons, <- (assoc_L (++)). done.
Qed.

Lemma format_spec_ok df col :
  formattable df → col ∈ df_columns df → format_spec col = Ok tt.
Proof.
  intros Hfmt Hcol. unfold formattable in Hfmt. rewrite Forall_forall in Hfmt.
  unfold format_spec. by rewrite (Hfmt col Hcol).
Qed.

Lemma analyze_dataframe_run df fmt w :
  NoDup (df_columns df) → formattable df →
  ∃ out, analyze_dataframe df fmt w = (Ok (text_cols df), after w out []).
Proof.
  intros Hnd Hfmt. unfold analyze_dataframe.
  do 6 rewrite bind_run, print_run. rewrite bind_run.
  edestruct (for_each_prints (enumerate 1 (df_columns df))) as [out ->].
  { intros [i col] w' Hcol%enumerate_elem.
    pose proof (format_spec_ok df col Hfmt Hcol) as Hf.
    apply list_elem_of_fmap in Hcol as (c & -> & Hc).
    rewrite bind_run. unfold lift at 1. rewrite (column_lookup df c Hnd Hc).
    rewrite bind_run. unfold lift at 1. rewrite Hf.
    eexists. apply print_run. }
  do 3 rewrite bind_run, print_run.
  edestruct (text_loop_run df (df_data df) []) as [out' ->].
  { intros c Hc. by apply column_lookup. }
  eexists. by rewrite !after_after.
Qed.

(** *** When a label repeats *)

Lemma filter_label_dup (l : list Series) :
  ¬ NoDup (s_name <$> l) →
  ∃ c, c ∈ l ∧ 2 ≤ length (filter (λ c', s_name c' = s_name c) l).
Proof.
  induction l as [|x l IH]; intros Hnd.
  - destruct Hnd. constructor.
  - rewrite fmap_cons, NoDup_cons in Hnd.
    destruct (decide (s_name x ∈ s_name <$> l)) as [Hin|Hnin].
    + apply list_elem_of_fmap in Hin as (c' & Heq & Hc'). exists x.
      split; [left|]. rewrite filter_cons_True by done.
      assert (c' ∈ filter (λ c, s_name c = s_name x) l) as Hf
        by (by apply list_elem_of_filter).
      destruct (filter _ l); [by apply elem_of_nil in Hf|cbn; lia].
    + destruct IH as (c & Hc & Hlen); [tauto|]. exists c.
      split; [by right|]. rewrite filter_cons. case_decide; cbn; lia.
Qed.

Lemma column_dup df :
  ¬ NoDup (df_columns df) →
  ∃ c, c ∈ df_data df ∧ column df (s_name c) = Raise AttributeError.
Proof.
  intros (c & Hc & Hlen)%filter_label_dup. exists c. split; [done|].
  unfold column. destruct (filter _ _) as [|a [|b t]]; cbn in Hlen; [lia..|done].
Qed.

(** The label of a column of the table is never missing from it. *)
Lemma column_present df c :
  c ∈ df_data df →
  (∃ c', column df (s_name c) = Ok c') ∨
  column df (s_name c) = Raise AttributeError.
Proof.
  intros Hc. unfold column.
  assert (c ∈ filter (λ c', s_name c' = s_name c) (df_data df)) as Hf
    by (by apply list_elem_of_filter).
  destruct (filter _ _) as [|a [|b t]]; [by apply elem_of_nil in Hf|eauto..].
Qed.

Lemma enumerate_cons {A} start (x : A) l :
  enumerate start (x :: l) = (start, x) :: enumerate (S start) l.
Proof. done. Qed.

Lemma enumerate_covers {A} (l : list A) start x :
  x ∈ l → ∃ i, (i, x) ∈ enumerate start l.
Proof.
  revert start. induction l as [|y l IH]; intros start Hx.
  - by apply elem_of_nil in Hx.
  - rewrite enumerate_cons. apply elem_of_cons in Hx as [->|Hx].
    + exists start. left.
    + destruct (IH (S start) Hx) as [i Hi]. exists i. by right.
Qed.

(** *** When the overview stops *)

Lemma column_repeated df col :
  repeated df col → column df col = Raise AttributeError.
Proof.
  unfold repeated, column. destruct (filter _ _) as [|a [|b t]]; cbn; [lia..|done].
Qed.

Lemma column_single df col :
  col ∈ df_columns df → ¬ repeated df col → ∃ c, column df col = Ok c.
Proof.
  intros (c & -> & Hc)%list_elem_of_fmap Hrep.
  destruct (column_present df c Hc) as [?|Hcol]; [done|].
  destruct Hrep. unfold repeated. unfold column in Hcol.
  destruct (filter _ _) as [|a [|b t]]; cbn; [done..|lia].
Qed.

Lemma NoDup_repeated df :
  NoDup (df_columns df) ↔ ∀ col, col ∈ df_columns df → ¬ repeated df col.
Proof.
  split.
  - intros Hnd col (c & -> & Hc)%list_elem_of_fmap. unfold repeated.
    rewrite filter_label by done. cbn. lia.
  - intros Hno. destruct (decide (NoDup (df_columns df))) as [|Hdup]; [done|].
    apply filter_label_dup in Hdup as (c & Hc & Hlen).
    destruct (Hno (s_name c)); [by apply list_elem_of_fmap_2|].
    unfold repeated. lia.
Qed.

Lemma stops_at_none df cols :
  stops_at df cols = None ↔
  (∀ col, col ∈ cols → ¬ repeated df col) ∧ Forall (λ col, formats col = true) cols.
Proof.
  induction cols as [|col cols IH]; cbn.
  - split; [|done]. intros _. split; [by intros ? ?%elem_of_nil|constructor].
  - destruct (decide (repeated df col)) as [Hrep|Hrep].
    { split; [done|]. intros [Hno _]. destruct (Hno col); [left|done]. }
    destruct (formats col) eqn:Hfmt.
    + rewrite IH. split.
      * intros [Hno Hall]. split; [|by constructor].
        intros c [->|Hc]%elem_of_cons; [done|by apply Hno].
      * intros [Hno [_ Hall]%Forall_cons]. split; [|done].
        intros c Hc. apply Hno. by right.
    + split; [done|]. intros [_ [Hf _]%Forall_cons]. congruence.
Qed.

Lemma blocked_none df : blocked df = None ↔ NoDup (df_columns df) ∧ formattable df.
Proof. unfold blocked. by rewrite stops_at_none, NoDup_repeated. Qed.

(** What stops the overview is [AttributeError] or [TypeError]: the
    second only at a label that does not take the format spec, the
    first only at a label that repeats. *)
Lemma stops_at_some df cols e :
  stops_at df cols = Some e →
  e = AttributeError ∧ (∃ col, col ∈ cols ∧ repeated df col) ∨
  e = TypeError ∧ (∃ col, col ∈ cols ∧ formats col = false).
Proof.
  induction cols as [|col cols IH]; cbn; [done|].
  destruct (decide (repeated df col)) as [Hrep|Hrep].
  { intros [= <-]. left. split; [done|]. exists col. split; [left|done]. }
  destruct (formats col) eqn:Hfmt.
  - intros [(-> & c & Hc & ?)|(-> & c & Hc & ?)]%IH; [left|right];
      (split; [done|]); exists c; (split; [by right|done]).
  - intros [= <-]. right. split; [done|]. exists col. split; [left|done].
Qed.

Lemma blocked_some df e :
  blocked df = Some e →
  e = AttributeError ∧ ¬ NoDup (df_columns df) ∨ e = TypeError ∧ ¬ formattable df.
Proof.
  intros [(-> & col & Hcol & Hrep)|(-> & col & Hcol & Hfmt)]%stops_at_some.
  - left. split; [done|]. rewrite NoDup_repeated. intros Hno. by apply (Hno col).
  - right. split; [done|]. unfold formattable. rewrite Forall_forall.
    intros Hall. specialize (Hall col Hcol). congruence.
Qed.

(** The loop of l.79-82: it prints a line per column and stops where
    [stops_at] tells. *)
Lemma overview_run df cols i w :
  (∀ col, col ∈ cols → col ∈ df_columns df) →
  ∃ out,
    for_each (enumerate i cols)
      (λ '(i, col),
         s ← lift (column df col);
         lift (format_spec col);;
         print (ColumnInfo i col (dtype_str (s_dtype s)) (count s) (shape0 df))) w =
    (match stops_at df cols with None => Ok tt | Some e => Raise e end,
     after w out []).
Proof.
  revert i w. induction cols as [|col cols IH]; intros i w Hcols.
  - exists []. cbn. by rewrite after_nil.
  - rewrite enumerate_cons. cbn [for_each stops_at]. rewrite !bind_run.
    unfold lift at 1. destruct (decide (repeated df col)) as [Hrep|Hrep].
    { rewrite (column_repeated df col Hrep). exists []. by rewrite after_nil. }
    destruct (column_single df col) as [c ->]; [apply Hcols; left|done|].
    rewrite bind_run. unfold lift at 1, format_spec.
    destruct (formats col).
    + rewrite print_run. edestruct (IH (S i)) as [out ->].
      { intros c' Hc'. apply Hcols. by right. }
      eexists. by rewrite after_after.
    + exists []. by rewrite after_nil.
Qed.

(** The Analyzer stops in its overview on the first label that repeats
    or that does not take the format spec. *)
Lemma analyze_dataframe_blocked df fmt w e :
  blocked df = Some e →
  ∃ out, analyze_dataframe df fmt w = (Raise e, after w out []).
Proof.
  intros Hb. unfold analyze_dataframe.
  do 6 rewrite bind_run, print_run. rewrite bind_run.
  edestruct (overview_run df (df_columns df) 1) as [out ->]; [done|].
  unfold blocked in Hb. rewrite Hb. eexists. by rewrite !after_after.
Qed.

Lemma blocked_dup df :
  ¬ NoDup (df_columns df) → formattable df → blocked df = Some AttributeError.
Proof.
  intros Hdup Hfmt. destruct (blocked df) as [e|] eqn:Hb.
  - by apply blocked_some in Hb as [[-> _]|[_ ?]].
  - by apply blocked_none in Hb as [? _].
Qed.

Lemma blocked_format df :
  NoDup (df_columns df) → ¬ formattable df → blocked df = Some TypeError.
Proof.
  intros Hnd Hfmt. destruct (blocked df) as [e|] eqn:Hb.
  - by apply blocked_some in Hb as [[_ ?]|[-> _]].
  - by apply blocked_none in Hb as [_ ?].
Qed.

(** With labels that all take the format spec, the Analyzer stops at
    l.80 on the first label that repeats. *)
Lemma analyze_dataframe_dup df fmt w :
  ¬ NoDup (df_columns df) → formattable df →
  ∃ out, analyze_dataframe df fmt w = (Raise AttributeError, after w out []).
Proof. intros Hdup Hfmt. by apply analyze_dataframe_blocked, blocked_dup. Qed.

(** C4. Whatever the table, the Analyzer either returns or stops in
    its overview, on a label that repeats or that does not take the
    format spec of l.82.  When no label repeats and all take the spec,
    it returns the labels of exactly the columns of object kind that
    hold at least one non-missing value, in column order: an object
    column whose values are all missing is left out.  When a label
    repeats, the others taking the spec, it raises [AttributeError] and
    returns nothing; when a label does not take the spec it raises
    [TypeError], or [AttributeError] if a label also repeats.  It writes
    no file. *)
Theorem text_columns_exact df fmt w :
  (NoDup (df_columns df) → formattable df →
   ∃ tc out,
     analyze_dataframe df fmt w = (Ok tc, after w out []) ∧
     tc = s_name <$> filter textual (df_data df) ∧
     ∀ c, c ∈ df_data df →
       (s_name c ∈ tc ↔ s_dtype c = DObject ∧ ∃ v, Some v ∈ s_values c)) ∧
  (¬ NoDup (df_columns df) → formattable df →
   ∃ out, analyze_dataframe df fmt w = (Raise AttributeError, after w out [])) ∧
  (¬ formattable df →
   ∃ e out, analyze_dataframe df fmt w = (Raise e, after w out []) ∧
            (e = TypeError ∨ e = AttributeError ∧ ¬ NoDup (df_columns df))).
Proof.
  split; [|split; [apply analyze_dataframe_dup|]].
  2: { intros Hfmt. destruct (blocked df) as [e|] eqn:Hb.
       - destruct (analyze_dataframe_blocked df fmt w e Hb) as [out Hrun].
         exists e, out. split; [done|].
         apply blocked_some in Hb as [[-> ?]|[-> _]]; auto.
       - by apply blocked_none in Hb as [_ ?]. }
  intros Hnd Hfmt. destruct (analyze_dataframe_run df fmt w Hnd Hfmt) as [out Hrun].
  exists (text_cols df), out. split_and!; [done..|].
  intros c Hc. unfold text_cols. rewrite list_elem_of_fmap. split.
  - intros (c' & Hname & [[Hobj Hval] Hc']%list_elem_of_filter).
    assert (c' = c) as ->.
    { pose proof (column_lookup df c Hnd Hc) as E1.
      pose proof (column_lookup df c' Hnd Hc') as E2.
      rewrite <- Hname in E2. congruence. }
    split; [done|]. apply Exists_exists in Hval as ([v|] & Hv & Hsome).
    + by exists v.
    + by destruct Hsome.
  - intros [Hobj (v & Hv)]. exists c. split; [done|].
    apply list_elem_of_filter. split; [|done]. split; [done|].
    apply Exists_exists. exists (Some v). split; [done|by eexists].
Qed.

Lemma text_columns_exact_witness :
  ∃ tc out,
    analyze_dataframe ex_df "csv" (start ∅ []) = (Ok tc, after (start ∅ []) out []) ∧
    tc = s_name <$> filter textual (df_data ex_df) ∧
    ∀ c, c ∈ df_data ex_df →
      (s_name c ∈ tc ↔ s_dtype c = DObject ∧ ∃ v, Some v ∈ s_values c).
Proof.
  apply (proj1 (text_columns_exact ex_df "csv" (start ∅ []))); ex_labels.
Defined.

(** *** How many textual columns there are *)

Lemma textual_count (l : list Series) :
  length (filter textual l) ≤ length (filter object_like l) ∧
  (length (filter textual l) = length (filter object_like l) ↔
   Forall (λ c, object_like c → Exists is_Some (s_values c)) l).
Proof.
  induction l as [|c l [IHle IHeq]]; [by split|].
  rewrite Forall_cons. destruct (decide (object_like c)) as [Hobj|Hobj].
  - rewrite (filter_cons_True object_like) by done.
    destruct (decide (Exists is_Some (s_values c))) as [Hval|Hval].
    + rewrite (filter_cons_True textual) by done. cbn. split; [lia|].
      rewrite <- IHeq. split; [intros [=]; by split|intros [_ ->]; done].
    + rewrite (filter_cons_False textual) by (by intros [_ ?]). cbn.
      split; [lia|]. split; [lia|]. intros [Hc _]. by destruct Hval; auto.
  - rewrite (filter_cons_False object_like) by done.
    rewrite (filter_cons_False textual) by (by intros [? _]).
    split; [done|]. rewrite IHeq. split; [by split|by intros [_ ?]].
Qed.

(** ** The report *)

Lemma dict_set_fresh {V} k (v : V) (d : dict V) :
  k ∉ d.*1 → dict_set k v d = d ++ [(k, v)].
Proof.
  induction d as [|[k' v'] d IH]; intros Hk; [done|]. cbn in *.
  apply not_elem_of_cons in Hk as [Hne Hk].
  rewrite decide_False by done. by rewrite IH.
Qed.

Section fill.
Context (df : DataFrame) {V : Type} (f : Series → V).
Context (fill : list label → dict V → res (dict V)).
Hypothesis fill_nil : ∀ d, fill [] d = Ok d.
Hypothesis fill_cons : ∀ col rest d,
  fill (col :: rest) d = s ← column df col; fill rest (dict_set col (f s) d).

(** A loop that assigns one entry per label, over labels that are
    distinct and not yet keys, appends the entries in order. *)
Lemma fill_run cs d :
  (∀ c, c ∈ cs → column df (s_name c) = Ok c) →
  NoDup (s_name <$> cs) →
  (∀ c, c ∈ cs → s_name c ∉ d.*1) →
  fill (s_name <$> cs) d = Ok (d ++ ((λ c, (s_name c, f c)) <$> cs)).
Proof.
  revert d. induction cs as [|c cs IH]; intros d Hcol Hnd Hfresh.
  - cbn. by rewrite fill_nil, (right_id_L [] (++)).
  - rewrite !fmap_cons, fill_cons, Hcol by left. cbn.
    rewrite fmap_cons in Hnd. apply NoDup_cons in Hnd as [Hc Hnd].
    rewrite dict_set_fresh by (apply Hfresh; left).
    rewrite IH, <- (assoc_L (++)); [done| |done|].
    + intros c' Hc'. apply Hcol. by right.
    + intros c' Hc'. rewrite fmap_app, not_elem_of_app. split.
      * apply Hfresh. by right.
      * cbn. rewrite list_elem_of_singleton. intros Heq. apply Hc.
        rewrite <- Heq. by apply list_elem_of_fmap_2.
Qed.
End fill.

Lemma build_report_run df p fmt :
  NoDup (df_columns df) →
  build_report df (text_cols df) p fmt = Ok (report_of df p fmt).
Proof.
  intros Hnd. unfold build_report, df_columns.
  rewrite (fill_run df (λ c, dtype_str (s_dtype c)) (dtypes_of df)); try done.
  2: { intros c Hc. by apply column_lookup. }
  2: { intros c _. apply not_elem_of_nil. }
  unfold text_cols. rewrite <- fmap_take.
  rewrite (fill_run df (λ c, take 3 (dropna c)) (samples_of df)); try done.
  - intros c Hc. apply column_lookup; [done|].
    eapply elem_of_sublist; [exact Hc|].
    etrans; [apply sublist_take|apply sublist_filter].
  - eapply sublist_NoDup; [exact Hnd|]. apply fmap_sublist.
    etrans; [apply sublist_take|apply sublist_filter].
  - intros c _. apply not_elem_of_nil.
Qed.

(** Whatever the text columns, a report that is built records the
    shape of the table. *)
Lemma build_report_shape df tc p fmt r :
  build_report df tc p fmt = Ok r →
  rows r = shape0 df ∧ columns r = shape1 df.
Proof.
  unfold build_report. destruct (dtypes_of df (df_columns df) []); [|done].
  destruct (samples_of df (take 5 tc) []); [|done]. cbn. by intros [= <-].
Qed.

(** A label [json.dump] writes takes the format spec: no report can be
    serialised of a table the Analyzer stops on. *)
Lemma json_label_formats col : json_label col = true → formats col = true.
Proof. by destruct col. Qed.

Lemma serialisable_labels r :
  serialisable r = true → Forall (λ col, json_label col = true) (r_columns r).
Proof.
  unfold serialisable. rewrite !andb_true_iff. intros [[[Hcols _] _] _].
  rewrite Forall_forall. intros col Hin%list_elem_of_In.
  by apply (proj1 (forallb_forall _ _) Hcols).
Qed.

Lemma serialisable_formattable df p fmt :
  serialisable (report_of df p fmt) = true → formattable df.
Proof.
  intros Hok%serialisable_labels. unfold formattable. cbn in Hok.
  eapply Forall_impl; [exact Hok|]. intros col. apply json_label_formats.
Qed.

(** ** Writing *)

(** *** When no write operation fails *)

Lemma io_run w :
  true ∉ faults w →
  ∃ w', io w = (Ok tt, w') ∧ (true ∉ faults w') ∧ files w' = files w.
Proof.
  intros Hflt. unfold io. destruct (faults w) as [|[] fs] eqn:E.
  - exists w. by rewrite E.
  - destruct Hflt. left.
  - eexists. split; [done|]. cbn. split; [|done].
    intros Hin. apply Hflt. by right.
Qed.

Lemma writes_write path c : writes_chunks path [c] (f_write path c).
Proof.
  intros w Hflt. unfold f_write. rewrite bind_run.
  destruct (io_run w Hflt) as (w' & -> & Hflt' & Hfiles).
  eexists. split; [done|]. cbn. by rewrite Hfiles.
Qed.

Lemma writes_seq path (c c' : M unit) :
  writes path c → writes path c' → writes path (c;; c').
Proof.
  intros [cs Hc] [cs' Hc']. exists (cs ++ cs'). intros w Hflt.
  destruct (Hc w Hflt) as (w1 & Hrun & Hflt1 & Hfiles1).
  destruct (Hc' w1 Hflt1) as (w2 & Hrun' & Hflt2 & Hfiles2).
  exists w2. rewrite bind_run, Hrun, Hrun'. split_and!; [done..|].
  rewrite Hfiles2, Hfiles1, alter_alter_eq. apply alter_ext.
  intros [cs0 b] _. unfold add_chunks. cbn. by rewrite (assoc_L (++)).
Qed.

Lemma writes_lift {A} path (a : A) (f : A → M unit) :
  writes path (f a) → writes path (x ← lift (Ok a); f x).
Proof.
  intros [cs Hc]. exists cs. intros w Hflt. rewrite bind_run. by apply Hc.
Qed.

Lemma writes_for_each {A} path (l : list A) (body : A → M unit) :
  (∀ x, x ∈ l → writes path (body x)) → writes path (for_each l body).
Proof.
  induction l as [|x l IH]; intros Hbody.
  - exists []. intros w Hflt. exists w. split_and!; [done..|].
    symmetry. apply alter_id. intros [cs b] _. unfold add_chunks. cbn.
    by rewrite (right_id_L [] (++)).
  - cbn. apply writes_seq; [apply Hbody; left|].
    apply IH. intros y Hy. apply Hbody. by right.
Qed.

(** A file opened, written and closed without a failure is whole. *)
Lemma with_open_run path cs (body : M unit) w :
  writes_chunks path cs body → true ∉ faults w →
  ∃ w', with_open path body w = (Ok tt, w') ∧ (true ∉ faults w') ∧
        files w' = <[path := complete cs]> (files w).
Proof.
  intros Hbody Hflt. unfold with_open, f_open, f_close.
  rewrite !bind_run. destruct (io_run w Hflt) as (w1 & -> & Hflt1 & Hfiles1).
  unfold modify at 1. unfold finally.
  match goal with |- context [body ?w0] =>
    destruct (Hbody w0 Hflt1) as (w2 & -> & Hflt2 & Hfiles2) end.
  rewrite !bind_run. destruct (io_run w2 Hflt2) as (w3 & -> & Hflt3 & Hfiles3).
  eexists. split; [done|]. cbn. split; [done|].
  rewrite Hfiles3, Hfiles2. cbn. by rewrite Hfiles1, !alter_insert_eq.
Qed.

Lemma text_cols_elem df col :
  col ∈ text_cols df → ∃ c, col = s_name c ∧ c ∈ df_data df.
Proof.
  intros (c & -> & [_ Hc]%list_elem_of_filter)%list_elem_of_fmap. by exists c.
Qed.

Lemma write_json_run report w :
  serialisable report = true → true ∉ faults w →
  ∃ w', write_json report w = (Ok tt, w') ∧ (true ∉ faults w') ∧
        files w' = <[report_json := complete [Json report]]> (files w).
Proof.
  intros Hok Hflt. apply with_open_run; [|done].
  unfold json_dump. rewrite Hok. apply writes_write.
Qed.

Lemma write_md_run df p fmt :
  NoDup (df_columns df) →
  ∃ mdc, ∀ w, true ∉ faults w →
    ∃ w', write_md df (text_cols df) p fmt w = (Ok tt, w') ∧
          (true ∉ faults w') ∧
          files w' = <[report_md := complete mdc]> (files w).
Proof.
  intros Hnd.
  assert (∀ c, writes report_md (f_write report_md c)) as Hw.
  { intros c. eexists. apply writes_write. }
  unfold write_md. cbv beta zeta.
  match goal with |- context [with_open _ ?body] =>
    assert (writes report_md body) as [mdc Hbody] end.
  { repeat first [apply Hw | apply writes_seq].
    - apply writes_for_each. intros [i col] Hcol%enumerate_elem.
      apply list_elem_of_fmap in Hcol as (c & -> & Hc).
      rewrite (column_lookup df c Hnd Hc). apply writes_lift, Hw.
    - apply writes_for_each. intros col (c & -> & Hc)%text_cols_elem.
      apply writes_seq; [apply Hw|].
      rewrite (column_lookup df c Hnd Hc). apply writes_lift.
      apply writes_for_each. intros [j sample] _. apply Hw. }
  exists mdc. intros w Hflt. by apply with_open_run.
Qed.

Lemma to_csv_run df path w :
  true ∉ faults w →
  ∃ w', to_csv df path w = (Ok tt, w') ∧ (true ∉ faults w') ∧
        files w' =
        <[path := complete [Csv (df_columns df)
                                (row df <$> seq 0 (index_len df))]]> (files w).
Proof. intros Hflt. apply with_open_run; [apply writes_write|done]. Qed.

(** A run that reaches a candidate that decodes is [process] on it,
    started with the files and the faults of the run. *)
Lemma main_hit env fs flt pre p post df fmt :
  listed env (pre ++ p :: post) →
  Forall (λ q, probe env q = None) pre →
  probe env p = Some (df, fmt) →
  ∃ w0, main env (start fs flt) = process p df fmt w0 ∧
        files w0 = fs ∧ faults w0 = flt.
Proof.
  intros Hdir Hpre Hp. rewrite (main_run env _ _ Hdir) by (by destruct pre).
  match goal with |- context [main_loop env _ ?w0] =>
    destruct (main_loop_skip env pre (p :: post) w0 Hpre) as [out ->] end.
  cbn [main_loop]. rewrite bind_run.
  match goal with |- context [try_read_file env p ?w0] =>
    destruct (try_read_file_run env p w0) as [out' ->] end.
  rewrite Hp. by eexists.
Qed.

Lemma process_run p df fmt :
  NoDup (df_columns df) → serialisable (report_of df p fmt) = true →
  ∃ mdc, ∀ w, true ∉ faults w →
    ∃ w', process p df fmt w = (Ok tt, w') ∧
          files w' = outputs df p fmt mdc (files w).
Proof.
  intros Hnd Hok. destruct (write_md_run df p fmt Hnd) as [mdc Hmd].
  pose proof (serialisable_formattable df p fmt Hok) as Hfmt.
  exists mdc. intros w Hflt. unfold process.
  rewrite bind_run, print_run, bind_run.
  edestruct (analyze_dataframe_run df fmt) as [out ->]; [done..|].
  unfold save_report.
  rewrite 2!bind_run. unfold lift at 1. rewrite build_report_run by done.
  rewrite bind_run.
  match goal with |- context [write_json _ ?w0] =>
    destruct (write_json_run (report_of df p fmt) w0 Hok Hflt)
      as (w1 & -> & Hflt1 & Hfiles1) end.
  rewrite bind_run. destruct (Hmd w1 Hflt1) as (w2 & -> & Hflt2 & Hfiles2).
  do 2 rewrite bind_run, print_run. rewrite print_run, bind_run.
  match goal with |- context [to_csv _ _ ?w0] =>
    destruct (to_csv_run (head 100 df) sample_file w0 Hflt2)
      as (w3 & -> & Hflt3 & Hfiles3) end.
  do 5 rewrite bind_run, print_run. rewrite print_run.
  eexists. split; [reflexivity|]. cbn [files after] in *.
  by rewrite Hfiles3, Hfiles2, Hfiles1.
Qed.

Lemma main_success env fs flt pre p post df fmt :
  decodes env pre p post df fmt →
  serialisable (report_of df p fmt) = true → true ∉ flt →
  ∃ mdc w', main env (start fs flt) = (Ok tt, w') ∧
            files w' = outputs df p fmt mdc fs.
Proof.
  intros (Hdir & Hpre & Hp & Hnd) Hok Hflt.
  destruct (process_run p df fmt Hnd Hok) as [mdc Hrun]. exists mdc.
  destruct (main_hit env fs flt pre p post df fmt) as (w0 & -> & <- & <-);
    try done.
  by apply Hrun.
Qed.

(** *** When a write operation fails *)

Ltac run_io :=
  unfold write_json, json_dump, with_open, finally, f_open, f_write, f_close,
    io, modify, lift, mbind, M_bind, mret, M_ret;
  cbn [faults files stdout reads set_files set_faults fst snd].

(** The structured report takes three write operations: open, write,
    close. *)
Lemma write_json_ok r w :
  serialisable r = true → true ∉ take 3 (faults w) →
  ∃ w', write_json r w = (Ok tt, w') ∧
        files w' = <[report_json := complete [Json r]]> (files w).
Proof.
  destruct w as [o rd fs flt]. cbn [faults files]. intros Hok Hflt.
  destruct flt as [|[] [|[] [|[] flt]]]; cbn in Hflt;
    try (exfalso; apply Hflt; rewrite !elem_of_cons; tauto);
    run_io; rewrite Hok; cbn [faults files stdout reads set_files set_faults];
    (eexists; split; [reflexivity|]); cbn [files set_files set_faults];
    by rewrite !alter_insert_eq.
Qed.

(** Whether or not the report can be serialised. *)
Lemma write_json_fail r w :
  true ∈ take 3 (faults w) → raised (write_json r w).1 = Some OSError.
Proof.
  destruct w as [o rd fs flt]. cbn [faults]. intros Hflt.
  destruct flt as [|[] [|[] [|[] flt]]]; cbn in Hflt;
    repeat (apply elem_of_cons in Hflt as [[=]|Hflt]);
    try (by apply elem_of_nil in Hflt); try done;
    run_io; destruct (serialisable r);
    cbn [faults files stdout reads set_files set_faults]; done.
Qed.

(** [process] up to the structured report. *)
Lemma process_to_json p df fmt w :
  NoDup (df_columns df) → formattable df →
  ∃ w1, files w1 = files w ∧ faults w1 = faults w ∧
    process p df fmt w =
      (write_json (report_of df p fmt);;
       (write_md df (text_cols df) p fmt;;
        print (Say (nl +:+ "📄 报告已保存:"));;
        print (Say "  - data_analysis_report.json (机器可读)");;
        print (Say "  - data_analysis_report.md (人可读)"));;
       to_csv (head 100 df) sample_file;;
       print (SampleSaved sample_file);;
       print (Say (nl +:+ rule));;
       print (Say "🎯 下一步建议:");;
       print (Say "1. 查看 data_analysis_report.md 了解数据结构");;
       print (Say "2. 查看 pesticide_data_sample.csv 查看具体数据");;
       print (Say "3. 根据找到的文本列设计DeepSeek API提问")) w1.
Proof.
  intros Hnd Hfmt. unfold process. rewrite bind_run, print_run, bind_run.
  edestruct (analyze_dataframe_run df fmt) as [out ->]; [done..|].
  exists (after (after w [ReadSuccess (e_name p)] []) out []).
  split_and!; [reflexivity..|].
  unfold save_report. rewrite bind_assoc, bind_run. unfold lift at 1.
  rewrite build_report_run by done. by rewrite bind_assoc.
Qed.

Lemma process_json p df fmt w :
  NoDup (df_columns df) → serialisable (report_of df p fmt) = true →
  true ∉ take 3 (faults w) →
  files (process p df fmt w).2 !! report_json =
  Some (complete [Json (report_of df p fmt)]).
Proof.
  intros Hnd Hok Hflt.
  pose proof (serialisable_formattable df p fmt Hok) as Hfmt.
  destruct (process_to_json p df fmt w Hnd Hfmt) as (w1 & Hfs & Hf & ->).
  rewrite <- Hf in Hflt.
  destruct (write_json_ok (report_of df p fmt) w1 Hok Hflt) as (w2 & Hrun & Hfiles).
  rewrite bind_run, Hrun.
  match goal with |- files (?c w2).2 !! _ = _ =>
    assert (sat (T_keeps report_json) c) as Hkeep end.
  { apply sat_bind.
    - by apply (sat_after_json (λ _ _, I)).
    - intros _. by apply (sat_after_report (λ _ _, I)). }
  rewrite (Hkeep w2), Hfiles. apply lookup_insert_eq.
Qed.

Lemma process_json_fail p df fmt w k :
  NoDup (df_columns df) → formattable df →
  true ∈ take 3 (faults w) → k ≠ report_json →
  raised (process p df fmt w).1 = Some OSError ∧
  files (process p df fmt w).2 !! k = files w !! k.
Proof.
  intros Hnd Hfmt Hflt Hk.
  destruct (process_to_json p df fmt w Hnd Hfmt) as (w1 & Hfs & Hf & ->).
  rewrite <- Hf in Hflt. rewrite <- Hfs.
  pose proof (write_json_fail (report_of df p fmt) w1 Hflt) as Hfail.
  assert (report_json ≠ k) as Hk' by done.
  pose proof (sat_write_json (T:=T_keeps k) (L:=λ _, True) (W:=λ path, path ≠ k)
                (report_of df p fmt) Hk' w1) as Hkeep.
  rewrite bind_run. by destruct (write_json _ w1) as [[[]|e] w2].
Qed.

(** No write failure is caught, anywhere in the run. *)
Lemma main_faults env : sat T_faults (main env).
Proof. by apply (sat_main (λ _ _, I)). Qed.

(** ** Tables the script cannot report

    The outputs are those of a table whose labels are distinct and
    whose sampled values can be serialised.  On the others the run
    stops before the extract is written. *)

Lemma dtypes_of_ok df cols d d' :
  dtypes_of df cols d = Ok d' → ∀ col, col ∈ cols → ∃ s, column df col = Ok s.
Proof.
  revert d. induction cols as [|c cols IH]; intros d Hrun col Hcol.
  - by apply elem_of_nil in Hcol.
  - cbn in Hrun. destruct (column df c) as [s|e] eqn:Hc; [|done]. cbn in Hrun.
    apply elem_of_cons in Hcol as [->|Hcol]; [by exists s|by eapply IH].
Qed.

(** Once [save_report] has its report, at l.113, every label is known
    to be carried by one column: the lookups that follow find a
    Series. *)
Lemma build_report_labels df tc p fmt r :
  build_report df tc p fmt = Ok r → NoDup (df_columns df).
Proof.
  intros Hrun. destruct (decide (NoDup (df_columns df))) as [|Hdup]; [done|].
  destruct (column_dup df Hdup) as (c & Hc & Hcol). unfold build_report in Hrun.
  destruct (dtypes_of df (df_columns df) []) as [dt|e] eqn:Hdt; [|done].
  destruct (dtypes_of_ok df _ _ _ Hdt (s_name c)) as [s Hs].
  { by apply list_elem_of_fmap_2. }
  congruence.
Qed.

(** A label that repeats, or that does not take the format spec, stops
    the run in the Analyzer, before any file is written. *)
Lemma main_blocked env fs flt pre p post df fmt e :
  listed env (pre ++ p :: post) →
  Forall (λ q, probe env q = None) pre →
  probe env p = Some (df, fmt) →
  blocked df = Some e →
  outcome env fs flt = Some e ∧ files (final env fs flt) = fs.
Proof.
  intros Hdir Hpre Hp Hb. unfold outcome, final.
  destruct (main_hit env fs flt pre p post df fmt) as (w0 & -> & <- & _);
    try done.
  unfold process. rewrite bind_run, print_run, bind_run.
  by edestruct (analyze_dataframe_blocked df fmt) as [out ->].
Qed.

Lemma main_dup env fs flt pre p post df fmt :
  listed env (pre ++ p :: post) →
  Forall (λ q, probe env q = None) pre →
  probe env p = Some (df, fmt) →
  ¬ NoDup (df_columns df) → formattable df →
  outcome env fs flt = Some AttributeError ∧ files (final env fs flt) = fs.
Proof.
  intros Hdir Hpre Hp Hdup Hfmt.
  by apply (main_blocked env fs flt pre p post df fmt), blocked_dup.
Qed.

Lemma write_json_type_error r w :
  serialisable r = false → true ∉ faults w →
  ∃ w', write_json r w = (Raise TypeError, w') ∧
        files w' =
        <[report_json := {| f_chunks := [JsonPrefix r]; f_closed := true |}]>
          (files w).
Proof.
  intros Hno Hflt. unfold write_json, with_open, f_open, f_close, json_dump.
  rewrite Hno, !bind_run. destruct (io_run w Hflt) as (w1 & -> & Hflt1 & Hfiles1).
  unfold modify at 1. unfold finally. rewrite bind_run.
  match goal with |- context [f_write _ _ ?w0] =>
    destruct (writes_write report_json (JsonPrefix r) w0 Hflt1)
      as (w2 & -> & Hflt2 & Hfiles2) end.
  unfold lift at 1. rewrite bind_run.
  destruct (io_run w2 Hflt2) as (w3 & -> & Hflt3 & Hfiles3).
  eexists. split; [done|]. cbn. rewrite Hfiles3, Hfiles2. cbn.
  by rewrite Hfiles1, !alter_insert_eq.
Qed.

(** A label or a sampled value that cannot be serialised stops the run
    in [json.dump]: the structured report is left truncated, and
    neither the prose report nor the extract is written. *)
Lemma main_unserialisable env fs flt pre p post df fmt :
  decodes env pre p post df fmt → formattable df →
  serialisable (report_of df p fmt) = false → true ∉ flt →
  outcome env fs flt = Some TypeError ∧
  files (final env fs flt) =
    <[report_json := {| f_chunks := [JsonPrefix (report_of df p fmt)];
                        f_closed := true |}]> fs.
Proof.
  intros (Hdir & Hpre & Hp & Hnd) Hfmt Hno Hflt. unfold outcome, final.
  destruct (main_hit env fs flt pre p post df fmt) as (w0 & -> & <- & <-);
    try done.
  destruct (process_to_json p df fmt w0 Hnd Hfmt) as (w1 & Hfs & Hf & ->).
  rewrite <- Hf in Hflt. rewrite bind_run.
  destruct (write_json_type_error _ w1 Hno Hflt) as (w2 & -> & Hfiles).
  cbn. by rewrite Hfiles, Hfs.
Qed.

(** ** What the Analyzer returns and what the outputs hold *)

(** C3, as stated, fails: the example table has two columns of object
    kind, and the Analyzer returns one label, because the column [note]
    holds no value. *)
Lemma object_column_without_values :
  length (filter object_like (df_data ex_df)) = 2 ∧
  (analyze_dataframe ex_df "csv" (start ∅ [])).1 = Ok [LStr "name"] ∧
  length [LStr "name"] ≠ length (filter object_like (df_data ex_df)).
Proof. split_and!; [reflexivity|reflexivity|discriminate]. Qed.

(** The Analyzer returns only for a table whose labels are distinct and
    all take the format spec. *)
Lemma analyze_dataframe_returns df fmt w tc w' :
  analyze_dataframe df fmt w = (Ok tc, w') →
  NoDup (df_columns df) ∧ formattable df.
Proof.
  intros Hrun. apply blocked_none. destruct (blocked df) as [e|] eqn:Hb; [|done].
  destruct (analyze_dataframe_blocked df fmt w e Hb) as [out Hraise]. congruence.
Qed.

(** C3, amended.  The Analyzer produces a list exactly for a table
    whose labels are distinct and take the format spec of l.82.  The
    list has one entry per column of object kind that holds at least one
    non-missing value.  With M columns of object kind its length is at
    most M, and it is M exactly when every column of object kind holds
    a non-missing value. *)
Theorem text_columns_length df fmt w :
  (NoDup (df_columns df) → formattable df →
   ∃ tc out,
     analyze_dataframe df fmt w = (Ok tc, after w out []) ∧
     length tc = length (filter textual (df_data df)) ∧
     length tc ≤ length (filter object_like (df_data df)) ∧
     (length tc = length (filter object_like (df_data df)) ↔
      ∀ c, c ∈ df_data df → s_dtype c = DObject → ∃ v, Some v ∈ s_values c)) ∧
  (∀ tc w', analyze_dataframe df fmt w = (Ok tc, w') →
     NoDup (df_columns df) ∧ formattable df).
Proof.
  split; [|apply analyze_dataframe_returns].
  intros Hnd Hfmt. destruct (analyze_dataframe_run df fmt w Hnd Hfmt) as [out Hrun].
  exists (text_cols df), out. unfold text_cols. rewrite length_fmap.
  destruct (textual_count (df_data df)) as [Hle Heq].
  split_and!; [done..|]. rewrite Heq, Forall_forall. unfold object_like.
  split; intros Hall c Hc Hobj.
  - pose proof (Hall c Hc Hobj) as Hval.
    apply Exists_exists in Hval as ([v|] & Hv & Hsome).
    + by exists v.
    + by destruct Hsome.
  - destruct (Hall c Hc Hobj) as [v Hv]. apply Exists_exists.
    exists (Some v). split; [done|by eexists].
Qed.

Lemma text_columns_length_witness :
  ∃ tc out,
    analyze_dataframe ex_df "csv" (start ∅ []) = (Ok tc, after (start ∅ []) out []) ∧
    length tc = length (filter textual (df_data ex_df)) ∧
    length tc ≤ length (filter object_like (df_data ex_df)) ∧
    (length tc = length (filter object_like (df_data ex_df)) ↔
     ∀ c, c ∈ df_data ex_df → s_dtype c = DObject → ∃ v, Some v ∈ s_values c).
Proof.
  apply (proj1 (text_columns_length ex_df "csv" (start ∅ []))); ex_labels.
Defined.

Lemma json_written env fs flt pre p post df fmt :
  decodes env pre p post df fmt →
  serialisable (report_of df p fmt) = true → true ∉ flt →
  files (final env fs flt) !! report_json =
  Some (complete [Json (report_of df p fmt)]).
Proof.
  intros Hdec Hok Hflt. unfold final.
  destruct (main_success env fs flt pre p post df fmt)
    as (mdc & w' & Hrun & Hfiles); try done.
  rewrite Hrun. cbn [snd]. rewrite Hfiles.
  unfold outputs. do 2 rewrite lookup_insert_ne by done. apply lookup_insert_eq.
Qed.

(** C5. In a run that decodes a table whose labels are distinct,
    [save_report] builds a report that lists as text columns what the
    Analyzer returns (it returns when the labels take the format spec
    of l.82), and whose [sample_data] has one entry per text column
    among the first five, in order: min(M, 5) entries for M text
    columns.  Each entry holds the first three non-missing values of its
    column, so at most three, all of them values of that column.  When
    the labels and these values can be serialised and no write
    operation fails, this report is what [data_analysis_report.json]
    holds. *)
Theorem sample_data_bounds env fs flt pre p post df fmt :
  decodes env pre p post df fmt →
  ∃ r,
    (formattable df → ∀ w, (analyze_dataframe df fmt w).1 = Ok (text_columns r)) ∧
    build_report df (text_columns r) p fmt = Ok r ∧
    dict_keys (sample_data r) = take 5 (text_columns r) ∧
    length (sample_data r) = length (text_columns r) `min` 5 ∧
    (∀ col samples, (col, samples) ∈ sample_data r →
      length samples ≤ 3 ∧
      ∃ c, c ∈ df_data df ∧ s_name c = col ∧
           samples = take 3 (dropna c) ∧
           ∀ v, v ∈ samples → Some v ∈ s_values c) ∧
    (serialisable r = true → true ∉ flt →
     files (final env fs flt) !! report_json = Some (complete [Json r])).
Proof.
  intros Hdec. exists (report_of df p fmt).
  pose proof Hdec as (_ & _ & _ & Hnd).
  cbn [text_columns sample_data report_of]. split_and!.
  - intros Hfmt w. by destruct (analyze_dataframe_run df fmt w Hnd Hfmt) as [out ->].
  - by apply build_report_run.
  - unfold dict_keys, text_cols. rewrite <- fmap_take, <- list_fmap_compose.
    done.
  - unfold text_cols. rewrite !length_fmap, length_take. lia.
  - intros col samples (c & [= -> ->] & Hc)%list_elem_of_fmap.
    split; [rewrite length_take; lia|]. exists c. split_and!; try done.
    + eapply elem_of_sublist; [exact Hc|].
      etrans; [apply sublist_take|apply sublist_filter].
    + intros v Hv. apply dropna_elem. eapply elem_of_sublist; [exact Hv|].
      apply sublist_take.
  - intros Hok Hflt. by eapply json_written.
Qed.

Lemma sample_data_bounds_witness :
  ∃ r,
    (formattable ex_df →
     ∀ w, (analyze_dataframe ex_df "csv" w).1 = Ok (text_columns r)) ∧
    build_report ex_df (text_columns r) ex_csv "csv" = Ok r ∧
    dict_keys (sample_data r) = take 5 (text_columns r) ∧
    length (sample_data r) = length (text_columns r) `min` 5 ∧
    (∀ col samples, (col, samples) ∈ sample_data r →
      length samples ≤ 3 ∧
      ∃ c, c ∈ df_data ex_df ∧ s_name c = col ∧
           samples = take 3 (dropna c) ∧
           ∀ v, v ∈ samples → Some v ∈ s_values c) ∧
    (serialisable r = true → true ∉ [false] →
     files (final ex_env_two ∅ [false]) !! report_json = Some (complete [Json r])).
Proof.
  apply (sample_data_bounds ex_env_two ∅ [false] [ex_bad] ex_csv [] ex_df "csv").
  ex_decodes.
Defined.

(** C10. In a run that decodes a table whose labels are distinct, the
    row count and the column count of the report [save_report] builds
    are the two components of the table's shape, whatever the text
    columns passed to it; when the report can be serialised and no write
    operation fails, it is what [data_analysis_report.json] holds. *)
Theorem report_shape env fs flt pre p post df fmt :
  decodes env pre p post df fmt →
  (∃ r, build_report df (text_cols df) p fmt = Ok r ∧
        rows r = shape0 df ∧ columns r = shape1 df ∧
        (serialisable r = true → true ∉ flt →
         files (final env fs flt) !! report_json = Some (complete [Json r]))) ∧
  (∀ tc r, build_report df tc p fmt = Ok r →
           rows r = shape0 df ∧ columns r = shape1 df).
Proof.
  intros Hdec. split.
  - exists (report_of df p fmt). pose proof Hdec as (_ & _ & _ & Hnd).
    split_and!; [by apply build_report_run|done..|].
    intros Hok Hflt. by eapply json_written.
  - intros tc r. apply build_report_shape.
Qed.

Lemma report_shape_witness :
  (∃ r, build_report ex_df (text_cols ex_df) ex_csv "csv" = Ok r ∧
        rows r = shape0 ex_df ∧ columns r = shape1 ex_df ∧
        (serialisable r = true → true ∉ [false] →
         files (final ex_env_two ∅ [false]) !! report_json =
         Some (complete [Json r]))) ∧
  (∀ tc r, build_report ex_df tc ex_csv "csv" = Ok r →
           rows r = shape0 ex_df ∧ columns r = shape1 ex_df).
Proof.
  apply (report_shape ex_env_two ∅ [false] [ex_bad] ex_csv [] ex_df "csv").
  ex_decodes.
Defined.

(** *** The extract *)

Lemma head_columns n df : df_columns (head n df) = df_columns df.
Proof. unfold df_columns, head. cbn. by rewrite <- list_fmap_compose. Qed.

Lemma head_row n df i : i < n → row (head n df) i = row df i.
Proof.
  intros Hi. unfold row, head. cbn. rewrite <- list_fmap_compose.
  apply list_fmap_ext. intros _ c _. cbn. by rewrite lookup_take_lt.
Qed.

(** *** Write failures *)

(** C9, as stated, fails: when the first three write operations succeed
    and the fourth fails, the run ends with [OSError] and the
    structured report is on disk, whole and closed. *)
Lemma structured_report_survives :
  outcome ex_env_two ∅ [false; false; false; true] = Some OSError ∧
  files (final ex_env_two ∅ [false; false; false; true]) !! report_json =
    Some (complete [Json (report_of ex_df ex_csv "csv")]).
Proof. split; vm_compute; reflexivity. Qed.

(** C9, amended.  A write operation that fails is not caught: the run
    ends with [OSError].  The outputs are written one after the other.
    When the three operations on the structured report succeed (and the
    report can be serialised), it stays on disk whole and closed
    whatever fails later; when one of them fails, neither the prose
    report nor the extract is touched, and the run ends there with
    [OSError] (the labels taking the format spec of l.82, so that the
    Analyzer returns). *)
Theorem write_failure_aborts env fs flt pre p post df fmt :
  decodes env pre p post df fmt →
  (∃ used, flt = used ++ faults (final env fs flt) ∧
           (true ∈ used → outcome env fs flt = Some OSError)) ∧
  (serialisable (report_of df p fmt) = true → true ∉ take 3 flt →
     files (final env fs flt) !! report_json =
     Some (complete [Json (report_of df p fmt)])) ∧
  (true ∈ take 3 flt →
     (formattable df → outcome env fs flt = Some OSError) ∧
     files (final env fs flt) !! report_md = fs !! report_md ∧
     files (final env fs flt) !! sample_file = fs !! sample_file).
Proof.
  intros (Hdir & Hpre & Hp & Hnd). split; [apply (main_faults env (start fs flt))|].
  split.
  - unfold final.
    destruct (main_hit env fs flt pre p post df fmt) as (w0 & -> & <- & <-);
      try done.
    intros Hok Hflt. by apply process_json.
  - intros Hflt. destruct (blocked df) as [e|] eqn:Hb.
    { destruct (main_blocked env fs flt pre p post df fmt e) as [_ ->]; try done.
      split; [|done]. intros Hfmt. apply blocked_some in Hb as [[_ ?]|[_ ?]]; done. }
    apply blocked_none in Hb as [_ Hfmt]. unfold final, outcome.
    destruct (main_hit env fs flt pre p post df fmt) as (w0 & -> & <- & <-);
      try done.
    destruct (process_json_fail p df fmt w0 report_md) as [Hr Hmd]; try done.
    destruct (process_json_fail p df fmt w0 sample_file) as [_ Hcsv]; done.
Qed.

Lemma write_failure_aborts_witness :
  (∃ used, [false; false; false; true] =
             used ++ faults (final ex_env_two ∅ [false; false; false; true]) ∧
           (true ∈ used →
            outcome ex_env_two ∅ [false; false; false; true] = Some OSError)) ∧
  (serialisable (report_of ex_df ex_csv "csv") = true →
   true ∉ take 3 [false; false; false; true] →
     files (final ex_env_two ∅ [false; false; false; true]) !! report_json =
     Some (complete [Json (report_of ex_df ex_csv "csv")])) ∧
  (true ∈ take 3 [false; false; false; true] →
     (formattable ex_df →
      outcome ex_env_two ∅ [false; false; false; true] = Some OSError) ∧
     files (final ex_env_two ∅ [false; false; false; true]) !! report_md =
       (∅ : gmap string file) !! report_md ∧
     files (final ex_env_two ∅ [false; false; false; true]) !! sample_file =
       (∅ : gmap string file) !! sample_file).
Proof.
  apply (write_failure_aborts ex_env_two ∅ [false; false; false; true]
           [ex_bad] ex_csv [] ex_df "csv").
  ex_decodes.
Defined.

(** * Further properties *)

(** ** Text: suffix test and truncation *)

Lemma str_app_nil (t : string) : EmptyString +:+ t = t.
Proof. reflexivity. Qed.

Lemma str_app_cons a (s t : string) : String a s +:+ t = String a (s +:+ t).
Proof. reflexivity. Qed.

Lemma str_length_app (s t : string) :
  String.length (s +:+ t) = String.length s + String.length t.
Proof.
  induction s as [|a s IH]; [done|]. rewrite str_app_cons. cbn. by f_equal.
Qed.

Lemma str_take_length n (s : string) :
  String.length (str_take n s) = n `min` String.length s.
Proof.
  unfold str_take. revert s. induction n as [|n IH]; intros [|a s]; cbn; try done.
  f_equal. apply IH.
Qed.

Lemma str_take_all n (s : string) : String.length s ≤ n → str_take n s = s.
Proof.
  unfold str_take. revert s. induction n as [|n IH]; intros [|a s]; cbn;
    try done; try lia.
  intros Hn. rewrite IH; [done|lia].
Qed.

(** What is cut off can be put back. *)
Lemma str_take_prefix n (s : string) : ∃ rest, s = str_take n s +:+ rest.
Proof.
  unfold str_take. revert s. induction n as [|n IH]; intros [|a s]; cbn.
  - by exists EmptyString.
  - by exists (String a s).
  - by exists EmptyString.
  - destruct (IH s) as [rest Hrest]. exists rest.
    by rewrite str_app_cons, <- Hrest.
Qed.

Lemma str_take_app (t u : string) : str_take (String.length t) (t +:+ u) = t.
Proof.
  unfold str_take. induction t as [|a t IH].
  - rewrite str_app_nil. by destruct u.
  - rewrite str_app_cons. cbn. by rewrite IH.
Qed.

Lemma endswith_spec (s suf : string) :
  endswith s suf = true ↔ ∃ stem, s = stem +:+ suf.
Proof.
  induction s as [|a s IH]; cbn [endswith].
  - destruct (String.eqb_spec EmptyString suf) as [<-|Hne].
    + split; [by exists EmptyString|done].
    + split; [done|]. intros [[|b stem] Hs]; [by subst|done].
  - destruct (String.eqb_spec (String a s) suf) as [<-|Hne].
    + split; [by exists EmptyString|done].
    + rewrite IH. split.
      * intros [stem ->]. by exists (String a stem).
      * intros [[|b stem] Hs]; [by subst|].
        rewrite str_app_cons in Hs. injection Hs as -> ->. by exists stem.
Qed.

(** X1 (l.59).  The test [str(file_path).endswith('.gzip')] is made on
    the path, [data/] followed by the name; it holds exactly when the
    name itself is some stem followed by [.gzip], the stem possibly
    empty. *)
Theorem gzip_test_on_name p :
  endswith (path_str p) ".gzip" = true ↔ ∃ stem, e_name p = stem +:+ ".gzip".
Proof. unfold path_str. by rewrite endswith_data, endswith_spec. Qed.

Lemma preview_length (s : string) : String.length (preview s) ≤ 103.
Proof.
  unfold preview. destruct (Nat.ltb_spec 100 (String.length s)); [|lia].
  rewrite str_length_app, str_take_length.
  change (String.length "...") with 3. lia.
Qed.

(** X2 (l.97-98).  The preview of a sample is the sample itself when it
    has at most 100 characters; otherwise it is its first 100 characters
    followed by three dots, 103 characters in all.  A preview is never
    longer than 103 characters and always starts as the sample does. *)
Theorem preview_bound (s : string) :
  String.length (preview s) ≤ 103 ∧
  (String.length s ≤ 100 → preview s = s) ∧
  (100 < String.length s →
     String.length (preview s) = 103 ∧
     ∃ rest, preview s = str_take 100 s +:+ "..." ∧ s = str_take 100 s +:+ rest) ∧
  str_take 100 (preview s) = str_take 100 s.
Proof.
  unfold preview. destruct (Nat.ltb_spec 100 (String.length s)) as [Hlong|Hshort].
  - assert (String.length (str_take 100 s) = 100) as Hcut
      by (rewrite str_take_length; lia).
    assert (String.length (str_take 100 s +:+ "...") = 103) as Hlen
      by (by rewrite str_length_app, Hcut).
    split_and!; [lia|lia| |].
    + intros _. split; [done|]. destruct (str_take_prefix 100 s) as [rest Hrest].
      by exists rest.
    + by rewrite <- Hcut at 1; rewrite str_take_app.
  - split_and!; [lia|done|lia|done].
Qed.

Lemma preview_bound_witness :
  String.length (preview long_sample) = 103 ∧
  ∃ rest, preview long_sample = str_take 100 long_sample +:+ "..." ∧
          long_sample = str_take 100 long_sample +:+ rest.
Proof.
  apply (proj1 (proj2 (proj2 (preview_bound long_sample)))).
  vm_compute. lia.
Defined.

(** ** The prober's status lines *)

Lemma status_lines_length env p l :
  length (status_lines env p l) = length (first_match env p l).1.
Proof.
  induction l as [|[r tag] l IH]; cbn; [done|].
  destruct (pd_read env r (path_str p)); [done|].
  destruct (first_match env p l). cbn in *. by rewrite IH.
Qed.

Lemma try_read_file_exact env p w :
  try_read_file env p w =
    (Ok (probe env p), after w (probe_lines env p) (attempts env p)).
Proof.
  unfold probe_lines, probe, attempts, try_read_file, priority.
  rewrite <- (endswith_data (e_name p)). fold (path_str p).
  rewrite bind_run, print_run. run.
  destruct (pd_read env read_parquet (path_str p)) eqn:E1; cbn.
  { same_world. }
  destruct (pd_read env read_csv (path_str p)) eqn:E2; cbn.
  { same_world. }
  destruct (pd_read env read_excel (path_str p)) eqn:E3; cbn.
  { same_world. }
  destruct (endswith (path_str p) ".gzip"); cbn.
  2: { same_world. }
  destruct (pd_read env read_parquet_pyarrow (path_str p)) eqn:E4; cbn;
    same_world.
Qed.

(** X3 (l.32-65).  The prober prints the name of the file, then exactly
    one status line per reader it calls, in call order: a failure line
    with the message of the exception for each reader that raises, and
    the success line, last, for the reader that returns. *)
Theorem try_read_file_lines env p w :
  try_read_file env p w =
    (Ok (probe env p),
     after w (TryRead (e_name p) :: status_lines env p (priority p))
             (attempts env p)) ∧
  length (status_lines env p (priority p)) = length (attempts env p) ∧
  (∀ r, ReadOk r ∈ status_lines env p (priority p) →
        last (status_lines env p (priority p)) = Some (ReadOk r) ∧
        ∃ df tag, probe env p = Some (df, tag) ∧ pd_read env r (path_str p) = inl df) ∧
  (∀ r msg, ReadFailed r msg ∈ status_lines env p (priority p) →
        pd_read env r (path_str p) = inr msg).
Proof.
  split_and!.
  - apply try_read_file_exact.
  - unfold attempts. by rewrite length_fmap, status_lines_length.
  - unfold probe. generalize (priority p). intros l r.
    induction l as [|[r' tag] l IH]; cbn; [by intros ?%elem_of_nil|].
    destruct (pd_read env r' (path_str p)) as [df|msg] eqn:E.
    + intros [= ->]%list_elem_of_singleton. split; [done|].
      by exists df, tag.
    + intros [[=]|Hin]%elem_of_cons. destruct (IH Hin) as (Hlast & df & tag' & Hp & Hr).
      split.
      * destruct (status_lines env p l); [done|]. by rewrite last_cons, Hlast.
      * destruct (first_match env p l). cbn in *. by exists df, tag'.
  - generalize (priority p). intros l r msg.
    induction l as [|[r' tag] l IH]; cbn; [by intros ?%elem_of_nil|].
    destruct (pd_read env r' (path_str p)) as [df|msg'] eqn:E.
    + by intros [=]%list_elem_of_singleton.
    + intros [[= -> ->]|Hin]%elem_of_cons; [done|by apply IH].
Qed.

(** ** What the processing of a table leaves alone *)

Section frame.
(** An observation that printing and writing do not change. *)
Context {X : Type} (f : World → X).
Hypothesis f_stdout : ∀ g w, f (set_stdout g w) = f w.
Hypothesis f_files : ∀ g w, f (set_files g w) = f w.
Hypothesis f_faults : ∀ g w, f (set_faults g w) = f w.

Lemma frames_ret {A} (a : A) : frames f (mret a).
Proof. by intros w. Qed.

Lemma frames_lift {A} (r : res A) : frames f (lift r).
Proof. by intros w. Qed.

Lemma frames_bind {A B} (c : M A) (k : A → M B) :
  frames f c → (∀ a, frames f (k a)) → frames f (c ≫= k).
Proof.
  intros Hc Hk w. rewrite bind_run. specialize (Hc w).
  destruct (c w) as [[a|e] w']; cbn in *; [|done]. by rewrite Hk.
Qed.

Lemma frames_for_each {A} (l : list A) (body : A → M unit) :
  (∀ x, frames f (body x)) → frames f (for_each l body).
Proof.
  intros Hbody. induction l as [|x l IH]; cbn; [apply frames_ret|].
  apply frames_bind; [apply Hbody|done].
Qed.

Lemma frames_print l : frames f (print l).
Proof. intros w. apply f_stdout. Qed.

Lemma frames_io : frames f io.
Proof. intros w. unfold io. destruct (faults w) as [|[] ?]; cbn; by rewrite ?f_faults. Qed.

Lemma frames_files g : frames f (modify (set_files g)).
Proof. intros w. apply f_files. Qed.

Lemma frames_f_write path c : frames f (f_write path c).
Proof. apply frames_bind; [apply frames_io|intros _; apply frames_files]. Qed.

Lemma frames_with_open {A} path (body : M A) :
  frames f body → frames f (with_open path body).
Proof.
  assert (frames f (f_close path)) as Hclose.
  { apply frames_bind; [apply frames_io|intros _; apply frames_files]. }
  intros Hbody. apply frames_bind.
  { apply frames_bind; [apply frames_io|intros _; apply frames_files]. }
  intros _ w. unfold finally. specialize (Hbody w).
  destruct (body w) as [[a|e] w']; cbn in *.
  - rewrite bind_run. specialize (Hclose w').
    destruct (f_close path w') as [[[]|e'] w'']; cbn in *; congruence.
  - specialize (Hclose w').
    destruct (f_close path w') as [[[]|e'] w'']; cbn in *; congruence.
Qed.

Ltac frame :=
  repeat first
    [ apply frames_print | apply frames_lift | apply frames_ret
    | apply frames_f_write
    | apply frames_with_open
    | apply frames_for_each; intros ?
    | apply frames_bind; [|intros ?]
    | match goal with |- frames _ (let '(_, _) := ?x in _) => destruct x end
    | match goal with |- frames _ (if ?b then _ else _) => destruct b end ].

Lemma frames_text_loop df cols acc : frames f (text_loop df cols acc).
Proof.
  revert acc. induction cols as [|col cols IH]; intros acc; cbn [text_loop].
  - apply frames_ret.
  - apply frames_bind; [apply frames_lift|]. intros s. cbv zeta.
    destruct (is_object (s_dtype s)); [|apply IH].
    destruct (0 <? length (take 2 (dropna s))); [|apply IH].
    apply frames_bind; [apply frames_print|]. intros _.
    apply frames_bind; [|intros _; apply IH]. frame.
Qed.

Lemma frames_analyze_dataframe df fmt : frames f (analyze_dataframe df fmt).
Proof.
  unfold analyze_dataframe.
  repeat (apply frames_bind; [|intros ?]); try apply frames_text_loop; frame.
Qed.

Lemma frames_save_report df tc p fmt : frames f (save_report df tc p fmt).
Proof.
  unfold save_report, write_json, write_md, json_dump. cbv beta zeta. frame.
Qed.

Lemma frames_process p df fmt : frames f (process p df fmt).
Proof.
  unfold process, to_csv.
  apply frames_bind; [apply frames_print|]. intros _.
  apply frames_bind; [apply frames_analyze_dataframe|]. intros tc.
  apply frames_bind; [apply frames_save_report|]. intros _. frame.
Qed.
End frame.

(** The same run as [main_hit] describes, with the reader calls made
    before the table is processed. *)
Lemma main_hit_reads env fs flt pre p post df fmt :
  listed env (pre ++ p :: post) →
  Forall (λ q, probe env q = None) pre →
  probe env p = Some (df, fmt) →
  ∃ w0, main env (start fs flt) = process p df fmt w0 ∧
        reads w0 = concat (attempts env <$> pre) ++ attempts env p.
Proof.
  intros Hdir Hpre Hp. rewrite (main_run env _ _ Hdir) by (by destruct pre).
  match goal with |- context [main_loop env _ ?w0] =>
    destruct (main_loop_skip env pre (p :: post) w0 Hpre) as [out ->] end.
  cbn [main_loop]. rewrite bind_run.
  match goal with |- context [try_read_file env p ?w0] =>
    destruct (try_read_file_run env p w0) as [out' ->] end.
  rewrite Hp. eexists. split; [done|]. cbn. by rewrite ?(right_id_L [] (++)).
Qed.

(** X4 (l.170-192).  At most one table is processed per run: the readers
    are called on the candidates up to the first one that decodes, in
    listing order, and on no candidate after it, whether the processing
    of the table then succeeds or raises.  When no candidate decodes,
    every candidate is probed. *)
Theorem one_table_per_run env fs flt :
  (∀ pre p post df fmt,
     listed env (pre ++ p :: post) →
     Forall (λ q, probe env q = None) pre →
     probe env p = Some (df, fmt) →
     reads (final env fs flt) = concat (attempts env <$> pre) ++ attempts env p) ∧
  (∀ l, listed env l →
     Forall (λ q, probe env q = None) l →
     reads (final env fs flt) = concat (attempts env <$> l)).
Proof.
  split.
  - intros pre p post df fmt Hdir Hpre Hp. unfold final.
    destruct (main_hit_reads env fs flt pre p post df fmt) as (w0 & -> & <-);
      try done.
    by apply (frames_process reads).
  - intros l Hdir Hl. unfold final. destruct l as [|q l].
    + unfold main. rewrite bind_run, print_run, bind_run, print_run, bind_run.
      rewrite find_data_files_run, (located_listed env [] Hdir).
      by rewrite for_each_print_run.
    + destruct (main_all_fail env (start fs flt) (q :: l) Hdir) as [out ->];
        done.
Qed.

Lemma one_table_per_run_witness :
  reads (final ex_env_two ∅ [true]) =
  concat (attempts ex_env_two <$> [ex_bad]) ++ attempts ex_env_two ex_csv.
Proof.
  apply (proj1 (one_table_per_run ex_env_two ∅ [true]) [ex_bad] ex_csv [] ex_df "csv").
  - ex_listed.
  - repeat constructor.
  - reflexivity.
Defined.

(** X5 (l.124, l.128, l.183-184).  Whatever the listing, the readers and
    the write failures, a run creates or changes no file of the working
    directory other than the two reports and the extract. *)
Theorem only_three_files env fs flt k :
  k ≠ report_json → k ≠ report_md → k ≠ sample_file →
  files (final env fs flt) !! k = fs !! k.
Proof.
  intros Hj Hm Hs. unfold final.
  apply (sat_main (T:=T_keeps k) (L:=λ _, True) (W:=λ path, path ≠ k)
           (λ _ _, I) env); done.
Qed.

Lemma only_three_files_witness :
  files (final ex_env_two {[ "notes.txt" := complete [] ]} [false; true]) !! "notes.txt"
  = ({[ "notes.txt" := complete [] ]} : gmap string file) !! "notes.txt".
Proof.
  apply (only_three_files ex_env_two {[ "notes.txt" := complete [] ]} [false; true]
           "notes.txt"); discriminate.
Defined.

(** ** What the Analyzer prints and what the prose report holds *)

(** *** Loops, line by line *)

Lemma enumerate_fmap {A B} (h : A → B) start (l : list A) :
  enumerate start (h <$> l) = prod_map id h <$> enumerate start l.
Proof.
  revert start. induction l as [|x l IH]; intros start; [done|].
  rewrite fmap_cons, !enumerate_cons, fmap_cons. by rewrite IH.
Qed.

Lemma for_each_fmap {A B} (h : A → B) (l : list A) (body : B → M unit) :
  for_each (h <$> l) body = for_each l (λ x, body (h x)).
Proof. induction l as [|x l IH]; cbn; [done|by rewrite IH]. Qed.

Lemma enumerate_index {A} (l : list A) start i x :
  (i, x) ∈ enumerate start l → start ≤ i < start + length l ∧ l !! (i - start) = Some x.
Proof.
  revert start. induction l as [|y l IH]; intros start.
  - by intros ?%elem_of_nil.
  - rewrite enumerate_cons. intros [[= -> ->]|Hin]%elem_of_cons.
    + cbn. rewrite Nat.sub_diag. split; [lia|done].
    + destruct (IH _ Hin) as [Hi Hx]. cbn. split; [lia|].
      replace (i - start) with (S (i - S start)) by lia. done.
Qed.

Lemma for_each_lines {A} (l : list A) (body : A → M unit) (g : A → list line) w :
  (∀ x w, x ∈ l → body x w = (Ok tt, after w (g x) [])) →
  for_each l body w = (Ok tt, after w (concat (g <$> l)) []).
Proof.
  revert w. induction l as [|x l IH]; intros w Hbody; cbn.
  - by rewrite after_nil.
  - rewrite bind_run, Hbody by left. rewrite IH, after_after; [done|].
    intros y w' Hy. apply Hbody. by right.
Qed.

Lemma concat_singletons {A B} (h : A → B) (l : list A) :
  concat ((λ x, [h x]) <$> l) = h <$> l.
Proof. induction l as [|x l IH]; cbn; [done|by rewrite IH]. Qed.

Lemma text_loop_lines df cs acc w :
  (∀ c, c ∈ cs → column df (s_name c) = Ok c) →
  text_loop df (s_name <$> cs) acc w =
  (Ok (acc ++ (s_name <$> filter textual cs)),
   after w (concat (sample_previews <$> filter textual cs)) []).
Proof.
  revert acc w. induction cs as [|c cs IH]; intros acc w Hcol.
  - cbn. by rewrite (right_id_L [] (++)), after_nil.
  - rewrite fmap_cons. cbn [text_loop]. rewrite bind_run. unfold lift at 1.
    rewrite Hcol by left. cbv zeta.
    assert (∀ c', c' ∈ cs → column df (s_name c') = Ok c') as Hcs.
    { intros c' Hc'. apply Hcol. by right. }
    destruct (is_object (s_dtype c)) eqn:Hobj.
    2: { rewrite filter_cons_False; [by apply IH|].
         intros [Hc _]. apply is_object_spec in Hc. congruence. }
    destruct (0 <? length (take 2 (dropna c))) eqn:Hval.
    2: { rewrite filter_cons_False; [by apply IH|].
         intros [_ Hc]. apply has_samples_spec in Hc. congruence. }
    rewrite filter_cons_True.
    2: { split; [by apply is_object_spec|by apply has_samples_spec]. }
    rewrite bind_run, print_run, bind_run.
    rewrite (for_each_lines _ _
               (λ jv : nat * value, [SamplePreview jv.1 (preview (str jv.2))])).
    2: { intros [j sample] w' _. apply print_run. }
    rewrite IH by done. rewrite !after_after, !fmap_cons, concat_singletons.
    by rewrite <- (assoc_L (++)).
Qed.

Lemma analyze_dataframe_lines df fmt w :
  NoDup (df_columns df) → formattable df →
  analyze_dataframe df fmt w =
  (Ok (text_cols df), after w (analysis_lines df fmt) []).
Proof.
  intros Hnd Hfmt. unfold analyze_dataframe, df_columns.
  do 6 rewrite bind_run, print_run. rewrite bind_run.
  rewrite enumerate_fmap, for_each_fmap.
  rewrite (for_each_lines _ _ (λ ic, [column_info df ic])).
  2: { intros [i c] w' Hc%enumerate_elem. cbn. rewrite bind_run. unfold lift at 1.
       rewrite (column_lookup df c Hnd Hc), bind_run. unfold lift at 1.
       rewrite (format_spec_ok df (s_name c) Hfmt) by (by apply list_elem_of_fmap_2).
       apply print_run. }
  do 3 rewrite bind_run, print_run.
  fold (df_columns df). unfold df_columns.
  rewrite text_loop_lines by (intros c Hc; by apply column_lookup).
  rewrite !after_after, concat_singletons. done.
Qed.

Lemma elem_of_concat {A} (x : A) (ls : list (list A)) :
  x ∈ concat ls ↔ ∃ l, l ∈ ls ∧ x ∈ l.
Proof.
  induction ls as [|l ls IH]; cbn.
  - split; [by intros ?%elem_of_nil|by intros (l & ?%elem_of_nil & _)].
  - rewrite elem_of_app, IH. split.
    + intros [Hx|(l' & Hl' & Hx)]; [exists l; split; [left|done]|].
      exists l'. split; [by right|done].
    + intros (l' & [->|Hl']%elem_of_cons & Hx); [by left|right; by exists l'].
Qed.

Lemma enumerate_take2 {A} (l : list A) j x :
  (j, x) ∈ enumerate 1 (take 2 l) → 1 ≤ j ≤ 2 ∧ l !! (j - 1) = Some x.
Proof.
  intros [Hj Hx]%enumerate_index. rewrite length_take in Hj.
  split; [lia|]. rewrite lookup_take_lt in Hx by lia. done.
Qed.

Ltac fixed_line H :=
  repeat (destruct H as [H|H]; [discriminate H|]); first [discriminate H|destruct H].

Lemma enumerate_lookup {A} (l : list A) i x :
  l !! i = Some x → (S i, x) ∈ enumerate 1 l.
Proof.
  intros Hx. unfold enumerate. apply list_elem_of_lookup. exists i.
  rewrite lookup_zip_with. rewrite lookup_seq_lt by (by eapply lookup_lt_Some).
  cbn. by rewrite Hx.
Qed.

(** The lines of the column overview are the columns, numbered from 1. *)
Lemma column_info_elem df fmt i col dt n rows :
  ColumnInfo i col dt n rows ∈ analysis_lines df fmt ↔
  1 ≤ i ∧ rows = shape0 df ∧
  ∃ c, df_data df !! (i - 1) = Some c ∧ col = s_name c ∧
       dt = dtype_str (s_dtype c) ∧ n = count c.
Proof.
  unfold analysis_lines. rewrite !elem_of_app, !elem_of_cons, elem_of_nil.
  rewrite list_elem_of_fmap, elem_of_concat. split.
  - intros [H|[([i' c] & [= -> -> -> -> ->] & Hin)|[H|(l & Hl & Hin)]]].
    + fixed_line H.
    + apply enumerate_index in Hin as [Hi Hc]. cbn in *.
      split; [lia|]. split; [done|]. by exists c.
    + fixed_line H.
    + apply list_elem_of_fmap in Hl as (c & -> & _). unfold sample_previews in Hin.
      apply elem_of_cons in Hin as [[=]|Hin].
      by apply list_elem_of_fmap in Hin as (jv & [=] & _).
  - intros (Hi & -> & c & Hc & -> & -> & ->). right. left.
    exists (i, c). split; [done|].
    replace i with (S (i - 1)) at 1 by lia. by apply enumerate_lookup.
Qed.

(** The lines that name a text column are the text columns. *)
Lemma text_column_elem df fmt col :
  TextColumn col ∈ analysis_lines df fmt ↔ col ∈ text_cols df.
Proof.
  unfold analysis_lines. rewrite !elem_of_app, !elem_of_cons, elem_of_nil.
  rewrite list_elem_of_fmap, elem_of_concat. unfold text_cols.
  rewrite list_elem_of_fmap. split.
  - intros [H|[([i' c] & [=] & _)|[H|(l & Hl & Hin)]]]; [fixed_line H|fixed_line H|].
    apply list_elem_of_fmap in Hl as (c & -> & Hc). unfold sample_previews in Hin.
    apply elem_of_cons in Hin as [[= ->]|Hin]; [by exists c|].
    by apply list_elem_of_fmap in Hin as (jv & [=] & _).
  - intros (c & -> & Hc). do 3 right. exists (sample_previews c).
    split; [by apply list_elem_of_fmap_2|left].
Qed.

(** The sample lines are the first two values of the text columns. *)
Lemma sample_preview_elem df fmt j s :
  SamplePreview j s ∈ analysis_lines df fmt ↔
  1 ≤ j ≤ 2 ∧
  ∃ c v, c ∈ df_data df ∧ textual c ∧ dropna c !! (j - 1) = Some v ∧
         s = preview (str v).
Proof.
  unfold analysis_lines. rewrite !elem_of_app, !elem_of_cons, elem_of_nil.
  rewrite list_elem_of_fmap, elem_of_concat. split.
  - intros [H|[([i' c] & [=] & _)|[H|(l & Hl & Hin)]]]; [fixed_line H|fixed_line H|].
    apply list_elem_of_fmap in Hl as (c & -> & [Htxt Hc]%list_elem_of_filter).
    unfold sample_previews in Hin. apply elem_of_cons in Hin as [[=]|Hin].
    apply list_elem_of_fmap in Hin as ([j' v] & [= -> ->] & Hin).
    apply enumerate_take2 in Hin as [Hj Hv]. cbn in *.
    split; [done|]. by exists c, v.
  - intros (Hj & c & v & Hc & Htxt & Hv & ->). do 3 right.
    exists (sample_previews c). split.
    + apply list_elem_of_fmap_2. by apply list_elem_of_filter.
    + unfold sample_previews. right. apply list_elem_of_fmap.
      exists (j, v). split; [done|].
      replace j with (S (j - 1)) at 1 by lia. apply enumerate_lookup.
      rewrite lookup_take_lt by lia. done.
Qed.

(** X6 (l.69-101).  On a table whose labels are distinct and take the
    format spec of l.82 the Analyzer prints exactly [analysis_lines]: the heading, one line per column
    numbered from 1 in column order, giving its label, kind, non-missing
    count and the row count, the preview of the first three rows, and
    for each text column (and no other) its label followed by at most
    two samples numbered from 1, none longer than 103 characters. *)
Theorem analyzer_console df fmt w :
  NoDup (df_columns df) → formattable df →
  analyze_dataframe df fmt w = (Ok (text_cols df), after w (analysis_lines df fmt) []) ∧
  (∀ i col dt n rows, ColumnInfo i col dt n rows ∈ analysis_lines df fmt →
     1 ≤ i ≤ shape1 df ∧ rows = shape0 df ∧
     ∃ c, df_data df !! (i - 1) = Some c ∧ col = s_name c ∧
          dt = dtype_str (s_dtype c) ∧ n = count c) ∧
  (∀ i c, df_data df !! i = Some c →
     ColumnInfo (S i) (s_name c) (dtype_str (s_dtype c)) (count c) (shape0 df)
       ∈ analysis_lines df fmt) ∧
  (∀ col, TextColumn col ∈ analysis_lines df fmt ↔ col ∈ text_cols df) ∧
  (∀ j s, SamplePreview j s ∈ analysis_lines df fmt →
     1 ≤ j ≤ 2 ∧ String.length s ≤ 103 ∧
     ∃ c v, c ∈ df_data df ∧ textual c ∧ dropna c !! (j - 1) = Some v ∧
            s = preview (str v)).
Proof.
  intros Hnd Hfmt. split; [by apply analyze_dataframe_lines|]. split_and!.
  - intros i col dt n rows (Hi & Hrows & c & Hc & Hrest)%column_info_elem.
    split; [|split; [done|by exists c]].
    apply lookup_lt_Some in Hc. unfold shape1. lia.
  - intros i c Hc. apply column_info_elem. split; [lia|]. split; [done|].
    exists c. cbn. by rewrite Nat.sub_0_r.
  - apply text_column_elem.
  - intros j s (Hj & c & v & Hc & Htxt & Hv & ->)%sample_preview_elem.
    split; [done|]. split; [apply preview_length|]. by exists c, v.
Qed.

Lemma analyzer_console_witness :
  analyze_dataframe ex_df "csv" (start ∅ []) =
    (Ok (text_cols ex_df), after (start ∅ []) (analysis_lines ex_df "csv") []) ∧
  TextColumn "name" ∈ analysis_lines ex_df "csv" ∧
  ColumnInfo 3 "dose" "int64" 2 2 ∈ analysis_lines ex_df "csv".
Proof.
  assert (NoDup (df_columns ex_df)) as Hnd by ex_labels.
  assert (formattable ex_df) as Hfmt by ex_labels.
  destruct (analyzer_console ex_df "csv" (start ∅ []) Hnd Hfmt)
    as (Hrun & _ & Hcol & Htxt & _).
  split; [exact Hrun|]. split.
  - apply Htxt. ex_labels.
  - exact (Hcol 2 _ eq_refl).
Defined.

(** *** The prose report, chunk by chunk *)

Lemma writes_chunks_seq path cs cs' (c c' : M unit) :
  writes_chunks path cs c → writes_chunks path cs' c' →
  writes_chunks path (cs ++ cs') (c;; c').
Proof.
  intros Hc Hc' w Hflt.
  destruct (Hc w Hflt) as (w1 & Hrun & Hflt1 & Hfiles1).
  destruct (Hc' w1 Hflt1) as (w2 & Hrun' & Hflt2 & Hfiles2).
  exists w2. rewrite bind_run, Hrun, Hrun'. split_and!; [done..|].
  rewrite Hfiles2, Hfiles1, alter_alter_eq. apply alter_ext.
  intros [cs0 b] _. unfold add_chunks. cbn. by rewrite (assoc_L (++)).
Qed.

(** What [write_md] puts between opening and closing, for any judgement
    [J path cs c] on the chunks [cs] a computation [c] sends to [path]
    that the write operation and sequencing keep. *)
Section chunks.
Context (J : string → list chunk → M unit → Prop).
Hypothesis J_skip : ∀ path, J path [] (mret tt).
Hypothesis J_write : ∀ path c, J path [c] (f_write path c).
Hypothesis J_seq : ∀ path cs cs' (c c' : M unit),
  J path cs c → J path cs' c' → J path (cs ++ cs') (c;; c').

Lemma J_for_each {A} path (l : list A) (body : A → M unit) (g : A → list chunk) :
  (∀ x, x ∈ l → J path (g x) (body x)) →
  J path (concat (g <$> l)) (for_each l body).
Proof.
  induction l as [|x l IH]; intros Hbody; [apply J_skip|].
  cbn. apply J_seq; [apply Hbody; left|].
  apply IH. intros y Hy. apply Hbody. by right.
Qed.

Lemma J_eq path cs cs' (c c' : M unit) :
  cs = cs' → c = c' → J path cs c → J path cs' c'.
Proof. by intros -> ->. Qed.

Lemma md_body df p fmt :
  NoDup (df_columns df) →
  ∃ body, write_md df (text_cols df) p fmt = with_open report_md body ∧
          J report_md (Md <$> md_of df p fmt) body.
Proof.
  intros Hnd. eexists. split; [reflexivity|]. cbv zeta.
  eapply J_eq; [|reflexivity|]; cycle 1.
  - do 7 (eapply J_seq; [apply J_write|]).
    eapply J_seq.
    { unfold df_columns. rewrite enumerate_fmap, for_each_fmap.
      apply (J_for_each _ _ _ (λ ic, [Md (md_column ic)])).
      intros [i c] Hc%enumerate_elem. cbn. unfold lift.
      rewrite (column_lookup df c Hnd Hc). apply J_write. }
    do 2 (eapply J_seq; [apply J_write|]).
    unfold text_cols. rewrite for_each_fmap.
    apply (J_for_each _ _ _ (λ c, Md <$> md_samples c)).
    intros c [_ Hc]%list_elem_of_filter.
    unfold md_samples. rewrite fmap_cons.
    apply (J_seq _ [_]); [apply J_write|].
    unfold lift. rewrite (column_lookup df c Hnd Hc).
    eapply J_eq; [|reflexivity|].
    2: { apply (J_for_each _ _ _
                  (λ jv : nat * value, [Md (MdSample jv.1 (str_take 200 (str jv.2)))])).
         intros [j v] _. apply J_write. }
    rewrite concat_singletons. by rewrite <- list_fmap_compose.
  - unfold md_of. rewrite !fmap_app, concat_singletons.
    rewrite <- !list_fmap_compose. cbn [fmap list_fmap app].
    do 8 f_equal. unfold text_cols. rewrite length_fmap. do 2 f_equal.
    induction (filter textual (df_data df)) as [|c l IH]; [done|].
    cbn [fmap list_fmap concat]. by rewrite fmap_app, IH.
Qed.

End chunks.

Lemma writes_chunks_skip path : writes_chunks path [] (mret tt).
Proof.
  intros w Hflt. exists w. split_and!; [done..|].
  symmetry. apply alter_id. intros [cs b] _. unfold add_chunks. cbn.
  by rewrite (right_id_L [] (++)).
Qed.

Lemma write_md_exact df p fmt w :
  NoDup (df_columns df) → true ∉ faults w →
  ∃ w', write_md df (text_cols df) p fmt w = (Ok tt, w') ∧
        (true ∉ faults w') ∧
        files w' = <[report_md := complete (Md <$> md_of df p fmt)]> (files w).
Proof.
  intros Hnd Hflt.
  destruct (md_body writes_chunks writes_chunks_skip writes_write writes_chunks_seq
              df p fmt Hnd) as (body & -> & Hbody).
  by apply with_open_run.
Qed.

Lemma process_exact p df fmt w :
  NoDup (df_columns df) → serialisable (report_of df p fmt) = true →
  true ∉ faults w →
  ∃ w', process p df fmt w = (Ok tt, w') ∧ files w' = written df p fmt (files w).
Proof.
  intros Hnd Hok Hflt. unfold process.
  pose proof (serialisable_formattable df p fmt Hok) as Hfmt.
  rewrite bind_run, print_run, bind_run.
  rewrite analyze_dataframe_lines by done.
  unfold save_report.
  rewrite 2!bind_run. unfold lift at 1. rewrite build_report_run by done.
  rewrite bind_run.
  match goal with |- context [write_json _ ?w0] =>
    destruct (write_json_run (report_of df p fmt) w0 Hok Hflt)
      as (w1 & -> & Hflt1 & Hfiles1) end.
  rewrite bind_run.
  destruct (write_md_exact df p fmt w1 Hnd Hflt1) as (w2 & -> & Hflt2 & Hfiles2).
  do 2 rewrite bind_run, print_run. rewrite print_run, bind_run.
  match goal with |- context [to_csv _ _ ?w0] =>
    destruct (to_csv_run (head 100 df) sample_file w0 Hflt2)
      as (w3 & -> & Hflt3 & Hfiles3) end.
  do 5 rewrite bind_run, print_run. rewrite print_run.
  eexists. split; [reflexivity|]. cbn [files after] in *.
  by rewrite Hfiles3, Hfiles2, Hfiles1.
Qed.

Lemma main_written env fs flt pre p post df fmt :
  decodes env pre p post df fmt →
  serialisable (report_of df p fmt) = true → true ∉ flt →
  outcome env fs flt = None ∧ files (final env fs flt) = written df p fmt fs.
Proof.
  intros (Hdir & Hpre & Hp & Hnd) Hok Hflt. unfold outcome, final.
  destruct (main_hit env fs flt pre p post df fmt) as (w0 & -> & <- & <-);
    try done.
  destruct (process_exact p df fmt w0 Hnd Hok Hflt) as (w' & -> & Hfiles).
  cbn [fst snd raised]. by rewrite Hfiles.
Qed.

Lemma md_heading_elem df p fmt col :
  MdHeading col ∈ md_of df p fmt ↔ col ∈ text_cols df.
Proof.
  unfold md_of. rewrite !elem_of_app, !elem_of_cons, elem_of_nil.
  rewrite list_elem_of_fmap, elem_of_concat. unfold text_cols at 2.
  rewrite list_elem_of_fmap. split.
  - intros [H|[([i' c] & [=] & _)|[H|(l & Hl & Hin)]]]; [fixed_line H|fixed_line H|].
    apply list_elem_of_fmap in Hl as (c & -> & Hc). unfold md_samples in Hin.
    apply elem_of_cons in Hin as [[= ->]|Hin]; [by exists c|].
    by apply list_elem_of_fmap in Hin as (jv & [=] & _).
  - intros (c & -> & Hc). do 3 right. exists (md_samples c).
    split; [by apply list_elem_of_fmap_2|left].
Qed.

Lemma md_sample_elem df p fmt j s :
  MdSample j s ∈ md_of df p fmt ↔
  1 ≤ j ≤ 2 ∧
  ∃ c v, c ∈ df_data df ∧ textual c ∧ dropna c !! (j - 1) = Some v ∧
         s = str_take 200 (str v).
Proof.
  unfold md_of. rewrite !elem_of_app, !elem_of_cons, elem_of_nil.
  rewrite list_elem_of_fmap, elem_of_concat. split.
  - intros [H|[([i' c] & [=] & _)|[H|(l & Hl & Hin)]]]; [fixed_line H|fixed_line H|].
    apply list_elem_of_fmap in Hl as (c & -> & [Htxt Hc]%list_elem_of_filter).
    unfold md_samples in Hin. apply elem_of_cons in Hin as [[=]|Hin].
    apply list_elem_of_fmap in Hin as ([j' v] & [= -> ->] & Hin).
    apply enumerate_take2 in Hin as [Hj Hv]. cbn in *.
    split; [done|]. by exists c, v.
  - intros (Hj & c & v & Hc & Htxt & Hv & ->). do 3 right.
    exists (md_samples c). split.
    + apply list_elem_of_fmap_2. by apply list_elem_of_filter.
    + unfold md_samples. right. apply list_elem_of_fmap.
      exists (j, v). split; [done|].
      replace j with (S (j - 1)) at 1 by lia. apply enumerate_lookup.
      rewrite lookup_take_lt by lia. done.
Qed.

Lemma md_column_elem df p fmt i c :
  df_data df !! i = Some c →
  MdColumn (S i) (s_name c) (dtype_str (s_dtype c)) (count c) ∈ md_of df p fmt.
Proof.
  intros Hc. unfold md_of. rewrite !elem_of_app. right. left.
  apply list_elem_of_fmap. exists (S i, c). split; [done|].
  by apply enumerate_lookup.
Qed.

Lemma md_count_elem df p fmt n :
  MdTextCount n ∈ md_of df p fmt ↔ n = length (text_cols df).
Proof.
  unfold md_of. rewrite !elem_of_app, !elem_of_cons, elem_of_nil.
  rewrite list_elem_of_fmap, elem_of_concat. split.
  - intros [H|[([i' c] & [=] & _)|[H|(l & Hl & Hin)]]]; [fixed_line H| |].
    + destruct H as [[=]|[[= ->]|[]]]. done.
    + apply list_elem_of_fmap in Hl as (c & -> & _). unfold md_samples in Hin.
      apply elem_of_cons in Hin as [[=]|Hin].
      by apply list_elem_of_fmap in Hin as (jv & [=] & _).
  - intros ->. do 2 right. left. right. by left.
Qed.

(** X7 (l.128-148).  In a run that ends well the prose report is whole,
    closed and holds exactly [md_of]: the column overview has one line
    per column, and the details have one heading for EVERY text column
    (the limit of five of the structured report does not apply), each
    followed by at most two samples, numbered from 1 and cut to 200
    characters; the count announced is the number of text columns. *)
Theorem prose_report_content env fs flt pre p post df fmt :
  decodes env pre p post df fmt →
  serialisable (report_of df p fmt) = true → true ∉ flt →
  files (final env fs flt) !! report_md = Some (complete (Md <$> md_of df p fmt)) ∧
  (∀ n, MdTextCount n ∈ md_of df p fmt → n = length (text_cols df)) ∧
  (∀ col, MdHeading col ∈ md_of df p fmt ↔ col ∈ text_cols df) ∧
  (∀ i c, df_data df !! i = Some c →
     MdColumn (S i) (s_name c) (dtype_str (s_dtype c)) (count c) ∈ md_of df p fmt) ∧
  (∀ j s, MdSample j s ∈ md_of df p fmt →
     1 ≤ j ≤ 2 ∧ String.length s ≤ 200 ∧
     ∃ c v, c ∈ df_data df ∧ textual c ∧ dropna c !! (j - 1) = Some v ∧
            s = str_take 200 (str v)).
Proof.
  intros Hdec Hok Hflt. split.
  { destruct (main_written env fs flt pre p post df fmt) as [_ ->]; try done.
    unfold written, outputs. rewrite lookup_insert_ne by done. apply lookup_insert_eq. }
  split_and!.
  - intros n. apply md_count_elem.
  - apply md_heading_elem.
  - intros i c. apply md_column_elem.
  - intros j s (Hj & c & v & Hc & Htxt & Hv & ->)%md_sample_elem.
    split; [done|]. split; [rewrite str_take_length; lia|]. by exists c, v.
Qed.

Lemma prose_report_content_witness :
  files (final ex_env_two ∅ [false]) !! report_md =
    Some (complete (Md <$> md_of ex_df ex_csv "csv")) ∧
  MdHeading "name" ∈ md_of ex_df ex_csv "csv".
Proof.
  destruct (prose_report_content ex_env_two ∅ [false] [ex_bad] ex_csv [] ex_df "csv")
    as (Hfile & _ & Hhead & _).
  - ex_decodes.
  - reflexivity.
  - refine (bool_decide_unpack _ _). vm_compute. exact I.
  - split; [exact Hfile|]. apply Hhead.
    refine (bool_decide_unpack _ _). vm_compute. exact I.
Defined.

(** *** Running again *)

Lemma written_json df p fmt fs :
  written df p fmt fs !! report_json = Some (complete [Json (report_of df p fmt)]).
Proof.
  unfold written, outputs. do 2 rewrite lookup_insert_ne by done.
  apply lookup_insert_eq.
Qed.

Lemma written_md df p fmt fs :
  written df p fmt fs !! report_md = Some (complete (Md <$> md_of df p fmt)).
Proof.
  unfold written, outputs. rewrite lookup_insert_ne by done. apply lookup_insert_eq.
Qed.

Lemma written_csv df p fmt fs :
  written df p fmt fs !! sample_file = Some (complete [sample_csv df]).
Proof. apply lookup_insert_eq. Qed.

Lemma written_complete df p fmt k :
  k ∈ [report_json; report_md; sample_file] →
  ∃ cs, ∀ fs, written df p fmt fs !! k = Some (complete cs).
Proof.
  rewrite !elem_of_cons, elem_of_nil. intros [->|[->|[->|[]]]]; eexists; intros fs0.
  - apply written_json.
  - apply written_md.
  - apply written_csv.
Qed.

Lemma written_other df p fmt fs k :
  k ∉ [report_json; report_md; sample_file] →
  written df p fmt fs !! k = fs !! k.
Proof.
  unfold written, outputs. rewrite !not_elem_of_cons. intros (? & ? & ? & _).
  by rewrite !lookup_insert_ne by done.
Qed.

Lemma written_idem df p fmt fs :
  written df p fmt (written df p fmt fs) = written df p fmt fs.
Proof.
  apply map_eq. intros k.
  destruct (decide (k ∈ [report_json; report_md; sample_file])) as [Hk|Hk].
  - destruct (written_complete df p fmt k Hk) as [cs Hcs]. by rewrite !Hcs.
  - by rewrite !written_other.
Qed.

(** X8 (l.124, l.128, l.184).  The three outputs are opened for
    writing, not for appending: what a run that ends well leaves in them
    does not depend on what they held before, and running again on the
    same input changes no file at all. *)
Theorem outputs_overwritten env fs fs' flt flt' pre p post df fmt :
  decodes env pre p post df fmt →
  serialisable (report_of df p fmt) = true → true ∉ flt → true ∉ flt' →
  (∀ k, k ∈ [report_json; report_md; sample_file] →
     files (final env fs flt) !! k = files (final env fs' flt') !! k ∧
     ∃ cs, files (final env fs flt) !! k = Some (complete cs)) ∧
  files (final env (files (final env fs flt)) flt') = files (final env fs flt).
Proof.
  intros Hdec Hok Hflt Hflt'.
  destruct (main_written env fs flt pre p post df fmt) as [_ Hfs]; try done.
  destruct (main_written env fs' flt' pre p post df fmt) as [_ Hfs']; try done.
  destruct (main_written env (files (final env fs flt)) flt' pre p post df fmt)
    as [_ Hfs'']; try done.
  split.
  - intros k Hk. rewrite Hfs, Hfs'.
    destruct (written_complete df p fmt k Hk) as [cs Hcs].
    rewrite !Hcs. split; [done|by exists cs].
  - rewrite Hfs'', Hfs. apply written_idem.
Qed.

Lemma outputs_overwritten_witness :
  files (final ex_env_two (files (final ex_env_two stale [false])) []) =
  files (final ex_env_two stale [false]).
Proof.
  apply (outputs_overwritten ex_env_two stale ∅ [false] [] [ex_bad] ex_csv [] ex_df "csv").
  - ex_decodes.
  - reflexivity.
  - refine (bool_decide_unpack _ _). vm_compute. exact I.
  - apply not_elem_of_nil.
Defined.

(** ** Every run without a write failure *)

Lemma first_decoded_some env l p df fmt :
  first_decoded env l = Some (p, df, fmt) →
  ∃ pre post, l = pre ++ p :: post ∧
              Forall (λ q, probe env q = None) pre ∧ probe env p = Some (df, fmt).
Proof.
  induction l as [|q l IH]; [done|]. cbn.
  destruct (probe env q) as [[df' fmt']|] eqn:Hq.
  - intros [= -> -> ->]. by exists [], l.
  - intros (pre & post & -> & Hpre & Hp)%IH. exists (q :: pre), post.
    split_and!; [done| |done]. by constructor.
Qed.

Lemma first_decoded_none env l :
  first_decoded env l = None → Forall (λ q, probe env q = None) l.
Proof.
  induction l as [|q l IH]; [by constructor|]. cbn.
  destruct (probe env q) as [[df' fmt']|] eqn:Hq; [done|].
  intros ?%IH. by constructor.
Qed.

Lemma main_no_input env w :
  located env = Ok [] →
  main env w = (Ok tt, after w (banner ++ listing_lines env ++ no_input) []).
Proof.
  intros Hdir. unfold main.
  rewrite bind_run, print_run, bind_run, print_run, bind_run.
  rewrite find_data_files_run, Hdir, for_each_print_run.
  by rewrite !after_after, <- ?(assoc_L (++)), ?(right_id_L [] (++)).
Qed.

(** A run ends in the File Locator when an entry has no size. *)
Lemma main_unlisted env w e :
  located env = Raise e →
  main env w = (Raise e, after w (banner ++ listing_lines env) []).
Proof.
  intros Hdir. unfold main.
  rewrite bind_run, print_run, bind_run, print_run, bind_run.
  rewrite find_data_files_run, Hdir.
  by rewrite !after_after, <- ?(assoc_L (++)), ?(right_id_L [] (++)).
Qed.

Lemma located_ok env l : located env = Ok l → l ≠ [] → listed env l.
Proof.
  unfold located, listed. destruct (data_dir env) as [l'|]; [|by intros [= <-]].
  destruct (decide (Forall sized l')); [|done]. by intros [= <-].
Qed.

Lemma located_raise env e :
  located env = Raise e →
  e = OSError ∧ ∃ l, data_dir env = Some l ∧ ¬ Forall sized l.
Proof.
  unfold located. destruct (data_dir env) as [l|]; [|done].
  destruct (decide (Forall sized l)); [done|]. intros [= <-]. split; [done|by exists l].
Qed.

Lemma fault_free_run env fs flt :
  true ∉ flt →
  (outcome env fs flt, files (final env fs flt)) = verdict env fs.
Proof.
  intros Hflt. unfold verdict.
  destruct (located env) as [l|e] eqn:Hloc.
  2: { unfold outcome, final. by rewrite (main_unlisted env _ e). }
  destruct (first_decoded env l) as [[[p df] fmt]|] eqn:Hfirst.
  - apply first_decoded_some in Hfirst as (pre & post & Hl & Hpre & Hp).
    assert (listed env (pre ++ p :: post)) as Hdir.
    { rewrite <- Hl. apply located_ok; [done|]. rewrite Hl. by destruct pre. }
    destruct (blocked df) as [e|] eqn:Hb.
    { by destruct (main_blocked env fs flt pre p post df fmt e) as [-> ->]. }
    apply blocked_none in Hb as [Hnd Hfmt].
    destruct (serialisable (report_of df p fmt)) eqn:Hok.
    + destruct (main_written env fs flt pre p post df fmt) as [-> ->]; done.
    + destruct (main_unserialisable env fs flt pre p post df fmt) as [-> ->]; done.
  - unfold outcome, final. destruct l as [|q l].
    + by rewrite main_no_input.
    + apply first_decoded_none in Hfirst.
      destruct (main_all_fail env (start fs flt) (q :: l)) as [out ->];
        [by apply located_ok|done..].
Qed.

(** X9 (l.154-199).  When no write operation fails, the listing and
    the first candidate that decodes settle the run.  An entry whose
    size cannot be had ends it with [OSError] in the File Locator.
    Without a candidate that decodes, it returns and leaves the files
    as they were.  With one, it ends in the Analyzer, nothing written,
    with [AttributeError] or [TypeError], on the first label that
    repeats or that does not take the format spec of l.82; else it
    raises [TypeError], leaving only a truncated structured report, if a
    label or a sampled value cannot be serialised; otherwise it returns,
    having written the three outputs.  A candidate after the first that
    decodes plays no part. *)
Theorem fault_free_verdict env fs flt :
  true ∉ flt →
  (outcome env fs flt, files (final env fs flt)) = verdict env fs.
Proof. apply fault_free_run. Qed.

Lemma fault_free_verdict_witness :
  (outcome ex_env_two ∅ [false], files (final ex_env_two ∅ [false])) =
  (None, written ex_df ex_csv "csv" ∅).
Proof.
  apply (fault_free_verdict ex_env_two ∅ [false]).
  refine (bool_decide_unpack _ _). vm_compute. exact I.
Defined.

(** ** The report, whatever the text columns passed *)

Lemma dtypes_of_run df :
  NoDup (df_columns df) →
  dtypes_of df (df_columns df) [] = Ok (dtype_entry <$> df_data df).
Proof.
  intros Hnd. unfold df_columns.
  rewrite (fill_run df (λ c, dtype_str (s_dtype c)) (dtypes_of df)); try done.
  - intros c Hc. by apply column_lookup.
  - intros c _. apply not_elem_of_nil.
Qed.

(** X10 (l.105-116).  Whenever [save_report] gets as far as a report, the
    labels of the table are distinct and the report lists them in column
    order, with one kind per label, in the same order; the file name,
    the tag and the text columns are those it was given. *)
Theorem report_kinds df tc p fmt r :
  build_report df tc p fmt = Ok r →
  NoDup (df_columns df) ∧
  r_columns r = df_columns df ∧
  dtypes r = dtype_entry <$> df_data df ∧
  dict_keys (dtypes r) = r_columns r ∧
  (∀ i c, df_data df !! i = Some c →
     dtypes r !! i = Some (s_name c, dtype_str (s_dtype c))) ∧
  file_name r = e_name p ∧ file_format r = fmt ∧ text_columns r = tc.
Proof.
  intros Hrun. pose proof (build_report_labels _ _ _ _ _ Hrun) as Hnd.
  unfold build_report in Hrun. rewrite dtypes_of_run in Hrun by done. cbn in Hrun.
  destruct (samples_of df (take 5 tc) []) as [sd|]; [|done].
  injection Hrun as <-. cbn [r_columns dtypes file_name file_format text_columns].
  split_and!; try done.
  - unfold dict_keys, df_columns. rewrite <- list_fmap_compose. done.
  - intros i c Hc. unfold dict. by rewrite list_lookup_fmap, Hc.
Qed.

Lemma report_kinds_witness :
  dtypes (report_of ex_df ex_csv "csv") = dtype_entry <$> df_data ex_df.
Proof.
  apply (report_kinds ex_df (text_cols ex_df) ex_csv "csv"). reflexivity.
Defined.

(** *** A label that is not in the table *)

Lemma column_absent df col : col ∉ df_columns df → column df col = Raise KeyError.
Proof.
  intros Hcol. unfold column. rewrite filter_none; [done|].
  intros c Hc <-. apply Hcol. by apply list_elem_of_fmap_2.
Qed.

Lemma column_total df col :
  NoDup (df_columns df) →
  (∃ c, column df col = Ok c) ∨ ((col ∉ df_columns df) ∧ column df col = Raise KeyError).
Proof.
  intros Hnd. destruct (decide (col ∈ df_columns df)) as [Hcol|Hcol].
  - left. apply list_elem_of_fmap in Hcol as (c & -> & Hc). exists c.
    by apply column_lookup.
  - right. split; [done|by apply column_absent].
Qed.

Lemma samples_of_absent df cols d col :
  NoDup (df_columns df) → col ∈ cols → col ∉ df_columns df →
  samples_of df cols d = Raise KeyError.
Proof.
  intros Hnd. revert d. induction cols as [|c cols IH]; intros d Hin Hcol.
  - by apply elem_of_nil in Hin.
  - cbn. destruct (column_total df c Hnd) as [[s Hs]|[Hc Hs]]; rewrite Hs; [|done].
    cbn. apply elem_of_cons in Hin as [Heq|Hin]; [|by apply IH].
    subst c. by rewrite column_absent in Hs.
Qed.

(** X11 (l.113-125).  [save_report] looks up the first five labels it is
    given before it opens any file: if one of them is not a label of the
    table (the labels of the table being distinct), it raises [KeyError]
    and nothing has been printed, written or attempted. *)
Theorem save_report_unknown_label df tc p fmt w col :
  NoDup (df_columns df) → col ∈ take 5 tc → col ∉ df_columns df →
  save_report df tc p fmt w = (Raise KeyError, w).
Proof.
  intros Hnd Hin Hcol. unfold save_report. rewrite bind_run. unfold lift at 1.
  unfold build_report. rewrite dtypes_of_run by done. cbn.
  by rewrite (samples_of_absent df (take 5 tc) [] col).
Qed.

Lemma save_report_unknown_label_witness :
  save_report ex_df [LStr "name"; LStr "nom"] ex_csv "csv" (start ∅ [false]) =
  (Raise KeyError, start ∅ [false]).
Proof.
  apply (save_report_unknown_label ex_df [LStr "name"; LStr "nom"] ex_csv "csv" _ "nom");
    refine (bool_decide_unpack _ _); vm_compute; exact I.
Defined.

(** ** A table without rows *)

Lemma no_values_no_text df :
  Forall (λ c, s_values c = []) (df_data df) → filter textual (df_data df) = [].
Proof.
  intros Hempty. apply filter_none. intros c Hc [_ Hex].
  rewrite Forall_forall in Hempty. rewrite (Hempty c Hc) in Hex.
  by apply Exists_nil in Hex.
Qed.

Lemma json_labels_serialisable df p fmt :
  Forall (λ col, json_label col = true) (df_columns df) →
  filter textual (df_data df) = [] →
  serialisable (report_of df p fmt) = true.
Proof.
  intros Hall Htxt. unfold serialisable, report_of, text_cols. cbn. rewrite Htxt. cbn.
  rewrite !andb_true_r, andb_true_iff. rewrite Forall_forall in Hall.
  split; apply forallb_forall.
  - intros col Hcol%list_elem_of_In. by apply Hall.
  - intros [col dt] (c & [= -> ->] & Hc)%list_elem_of_In%list_elem_of_fmap.
    cbn. apply Hall. by apply list_elem_of_fmap_2.
Qed.

(** X12 (l.90-94, l.119, l.144, l.184).  A table without rows, such as a
    delimited file that holds only its header, goes through: whatever
    the kinds of its columns the Analyzer, when the labels take the
    format spec of l.82, finds no text column; the report has no sample;
    and when [json.dump] can write the labels and no write operation
    fails, the run returns and the extract holds the header alone. *)
Theorem table_without_rows env fs flt pre p post df fmt :
  decodes env pre p post df fmt →
  index_len df = 0 → Forall (λ c, s_values c = []) (df_data df) →
  (formattable df → ∀ w, (analyze_dataframe df fmt w).1 = Ok []) ∧
  (∃ r, build_report df [] p fmt = Ok r ∧ text_columns r = [] ∧ sample_data r = []) ∧
  (∀ col, MdHeading col ∉ md_of df p fmt) ∧
  (Forall (λ col, json_label col = true) (df_columns df) → true ∉ flt →
   outcome env fs flt = None ∧
   files (final env fs flt) !! sample_file = Some (complete [Csv (df_columns df) []])).
Proof.
  intros Hdec Hrows Hempty. pose proof Hdec as (_ & _ & _ & Hnd).
  pose proof (no_values_no_text df Hempty) as Htxt.
  assert (text_cols df = []) as Hcols by (unfold text_cols; by rewrite Htxt).
  assert (report_of df p fmt =
          {| file_name := e_name p; file_format := fmt; rows := index_len df;
             columns := length (df_data df); r_columns := df_columns df;
             dtypes := dtype_entry <$> df_data df; text_columns := [];
             sample_data := [] |}) as Hrep.
  { unfold report_of. by rewrite Hcols, Htxt. }
  split_and!.
  - intros Hfmt w. by rewrite analyze_dataframe_lines, Hcols.
  - eexists. rewrite <- Hcols at 1. rewrite build_report_run, Hrep by done. done.
  - intros col Hin. unfold md_of in Hin. rewrite Htxt in Hin.
    rewrite !elem_of_app, !elem_of_cons, elem_of_nil, list_elem_of_fmap in Hin.
    destruct Hin as [H|[([i c] & [=] & _)|[H|H]]]; [fixed_line H|fixed_line H|].
    by apply elem_of_nil in H.
  - intros Hjson Hflt.
    destruct (main_written env fs flt pre p post df fmt) as [-> ->]; try done.
    { by apply json_labels_serialisable. }
    split; [done|]. rewrite written_csv. unfold sample_csv.
    rewrite head_columns. cbn [index_len head]. by rewrite Hrows.
Qed.

Lemma table_without_rows_witness :
  outcome ex_env_header ∅ [] = None ∧
  files (final ex_env_header ∅ []) !! sample_file =
    Some (complete [Csv [LStr "name"; LStr "dose"] []]).
Proof.
  apply (table_without_rows ex_env_header ∅ [] [] ex_csv [] header_only "csv").
  - ex_decodes.
  - reflexivity.
  - repeat constructor.
  - repeat constructor.
  - apply not_elem_of_nil.
Defined.

(** ** The listing *)

Lemma entry_lines_cut pre e post :
  Forall sized pre → st_size e = None →
  entry_lines (pre ++ e :: post) = entry_lines pre.
Proof.
  intros Hpre He. induction Hpre as [|q pre [n Hq] Hpre IH]; cbn.
  - by rewrite He.
  - by rewrite Hq, IH.
Qed.

Lemma entry_lines_lookup l i e :
  Forall sized l → l !! i = Some e →
  ∃ n, st_size e = Some n ∧ entry_lines l !! i = Some (FileEntry (e_name e) n).
Proof.
  intros Hl. revert i. induction Hl as [|q l [n Hq] Hl IH]; intros i; [done|].
  cbn [entry_lines]. rewrite Hq. destruct i as [|i]; cbn.
  - intros [= <-]. by exists n.
  - apply IH.
Qed.

Lemma entry_lines_length l : Forall sized l → length (entry_lines l) = length l.
Proof.
  intros Hl. induction Hl as [|q l [n Hq] Hl IH]; [done|].
  cbn [entry_lines]. rewrite Hq. cbn. by rewrite IH.
Qed.

Lemma not_sized_split l :
  ¬ Forall sized l →
  ∃ pre e post, l = pre ++ e :: post ∧ Forall sized pre ∧ st_size e = None.
Proof.
  induction l as [|q l IH]; intros Hl; [by destruct Hl|].
  destruct (st_size q) as [n|] eqn:Hq.
  - destruct IH as (pre & e & post & -> & Hpre & He).
    { intros Hall. apply Hl. constructor; [by exists n|done]. }
    exists (q :: pre), e, post. split_and!; [done| |done].
    constructor; [by exists n|done].
  - by exists [], q, l.
Qed.

(** X13 (l.11-28).  The File Locator touches nothing but the console.
    Without the directory it prints two lines and returns the empty
    list, which its caller cannot tell from an empty directory.  With
    the directory it prints the number of entries, then one line per
    entry, name and size, in listing order: when every entry has a size
    it returns the entries, in that order; at the first entry whose
    size cannot be had it raises [OSError], the lines of the entries
    before it printed, and it raises in no other case. *)
Theorem locator_result env w :
  ∃ r out,
    find_data_files env w = (r, after w out []) ∧
    (r = Ok [] ↔ data_dir env = None ∨ data_dir env = Some []) ∧
    (data_dir env = None → length out = 2 ∧ ∀ n, FoundFiles n ∉ out) ∧
    (∀ l, data_dir env = Some l → Forall sized l →
       r = Ok l ∧ length out = S (length l) ∧ out !! 0 = Some (FoundFiles (length l)) ∧
       ∀ i e, l !! i = Some e →
         ∃ n, st_size e = Some n ∧ out !! S i = Some (FileEntry (e_name e) n)) ∧
    (∀ pre e post, data_dir env = Some (pre ++ e :: post) →
       Forall sized pre → st_size e = None →
       r = Raise OSError ∧ length out = S (length pre) ∧
       out !! 0 = Some (FoundFiles (length (pre ++ e :: post))) ∧
       ∀ i q, pre !! i = Some q →
         ∃ n, st_size q = Some n ∧ out !! S i = Some (FileEntry (e_name q) n)) ∧
    (∀ e, r = Raise e →
       e = OSError ∧ ∃ pre q post, data_dir env = Some (pre ++ q :: post) ∧
                                   Forall sized pre ∧ st_size q = None).
Proof.
  exists (located env), (listing_lines env). split; [apply find_data_files_run|].
  unfold located, listing_lines. destruct (data_dir env) as [l|]; cbn.
  2: { split_and!; try done.
       - by split; [left|].
       - intros _. split; [done|]. intros n. rewrite !elem_of_cons, elem_of_nil.
         by intros [[=]|[[=]|[]]]. }
  split_and!.
  - destruct (decide (Forall sized l)) as [|Hl].
    + split; [intros [= ->]; by right|]. by intros [[=]|[= ->]].
    + split; [done|]. intros [[=]|[= ->]]. destruct Hl. by apply Forall_nil.
  - done.
  - intros l' [= <-] Hl. rewrite decide_True by done.
    split; [done|]. split; [by rewrite entry_lines_length|]. split; [done|].
    intros i e. by apply entry_lines_lookup.
  - intros pre e post [= ->] Hpre He. rewrite decide_False.
    2: { intros [_ [[n Hn] _]%Forall_cons]%Forall_app. congruence. }
    rewrite entry_lines_cut by done.
    split; [done|]. split; [by rewrite entry_lines_length|]. split; [done|].
    intros i q. by apply entry_lines_lookup.
  - intros e. destruct (decide (Forall sized l)) as [|Hl]; [done|].
    intros [= <-]. split; [done|].
    destruct (not_sized_split l Hl) as (pre & q & post & -> & Hpre & Hq).
    by exists pre, q, post.
Qed.

(** ** Write failures after the structured report *)

Lemma add_no_chunks path (fs : gmap string file) : alter (add_chunks []) path fs = fs.
Proof.
  apply alter_id. intros [cs b] _. unfold add_chunks. cbn.
  by rewrite (right_id_L [] (++)).
Qed.

Lemma io_cases w :
  ∃ w', files w' = files w ∧ (io w = (Ok tt, w') ∨ io w = (Raise OSError, w')).
Proof.
  unfold io. destruct (faults w) as [|[] fl]; eexists; (split; [|eauto]); done.
Qed.

Lemma appends_skip path : appends path [] (mret tt).
Proof. intros w. exists 0. cbn. rewrite add_no_chunks. eauto. Qed.

Lemma appends_write path c : appends path [c] (f_write path c).
Proof.
  intros w. unfold f_write. rewrite bind_run.
  destruct (io_cases w) as (w' & Hfiles & [-> | ->]).
  - exists 1. cbn. rewrite Hfiles. eauto.
  - exists 0. cbn. rewrite Hfiles, add_no_chunks. eauto.
Qed.

Lemma appends_seq path cs cs' (c c' : M unit) :
  appends path cs c → appends path cs' c' → appends path (cs ++ cs') (c;; c').
Proof.
  intros Hc Hc' w. rewrite bind_run.
  destruct (Hc w) as (k & Hk & Hfiles & Hres).
  destruct (c w) as [[[]|e] w1]; cbn [fst snd] in *.
  - destruct Hres as [[_ ->]|[=]].
    destruct (Hc' w1) as (k' & Hk' & Hfiles' & Hres').
    exists (length cs + k'). rewrite length_app. split; [lia|].
    rewrite take_app_add, Hfiles', Hfiles, firstn_all, alter_alter_eq.
    split.
    + apply alter_ext. intros [cs0 b] _. unfold add_chunks. cbn.
      by rewrite (assoc_L (++)).
    + destruct Hres' as [[-> ->]| ->]; eauto.
  - destruct Hres as [[[=] _]|[= ->]].
    exists k. rewrite length_app. split; [lia|].
    rewrite take_app_le by done. eauto.
Qed.

(** The file a [with] block leaves: untouched when it could not be
    opened; otherwise it starts empty and holds what the body appended,
    closed unless closing failed. *)
Lemma with_open_appends path cs (body : M unit) w :
  appends path cs body →
  ∃ r w', with_open path body w = (r, w') ∧
    (r = Raise OSError ∧ files w' = files w
     ∨ ∃ k b, k ≤ length cs ∧
         files w' = <[path := {| f_chunks := take k cs; f_closed := b |}]> (files w) ∧
         (r = Ok tt ∧ k = length cs ∧ b = true ∨ r = Raise OSError)).
Proof.
  intros Hbody. unfold with_open, f_open. rewrite !bind_run.
  destruct (io_cases w) as (w1 & Hfiles1 & [-> | ->]); [|eexists _, _; eauto].
  unfold modify at 1. unfold finally.
  match goal with |- context [body ?w0] =>
    destruct (Hbody w0) as (k & Hk & Hfiles2 & Hres);
    destruct (body w0) as [[[]|e] w2] end;
    cbn [fst snd files set_files] in *;
    rewrite Hfiles1, alter_insert_eq in Hfiles2; cbn in Hfiles2.
  - destruct Hres as [[_ ->]|[=]]. unfold f_close. rewrite !bind_run.
    destruct (io_cases w2) as (w3 & Hfiles3 & [-> | ->]);
      eexists _, _; (split; [reflexivity|]); right.
    + exists (length cs), true. split; [done|]. cbn.
      rewrite Hfiles3, Hfiles2, alter_insert_eq. cbn. eauto.
    + exists (length cs), false. split; [done|]. cbn.
      rewrite Hfiles3, Hfiles2. eauto.
  - destruct Hres as [[[=] _]|[= ->]]. unfold f_close. rewrite !bind_run.
    destruct (io_cases w2) as (w3 & Hfiles3 & [-> | ->]);
      eexists _, _; (split; [reflexivity|]); right.
    + exists k, true. split; [done|]. cbn.
      rewrite Hfiles3, Hfiles2, alter_insert_eq. cbn. eauto.
    + exists k, false. split; [done|]. cbn.
      rewrite Hfiles3, Hfiles2. eauto.
Qed.

Lemma write_md_faulty df p fmt w :
  NoDup (df_columns df) →
  ∃ r w', write_md df (text_cols df) p fmt w = (r, w') ∧
    (r = Raise OSError ∧ files w' = files w
     ∨ ∃ k b, k ≤ length (Md <$> md_of df p fmt) ∧
         files w' = <[report_md := {| f_chunks := take k (Md <$> md_of df p fmt);
                                      f_closed := b |}]> (files w) ∧
         (r = Ok tt ∧ k = length (Md <$> md_of df p fmt) ∧ b = true
          ∨ r = Raise OSError)).
Proof.
  intros Hnd.
  destruct (md_body appends appends_skip appends_write appends_seq df p fmt Hnd)
    as (body & -> & Hbody).
  by apply with_open_appends.
Qed.

(** X14 (l.124-148, l.184).  Once the structured report is written (its
    three write operations succeed), the run either returns with the
    three outputs whole, or ends with [OSError]; no other exception is
    possible.  In the second case the prose report is untouched or holds
    a beginning of the full document, and the extract is touched only
    if the prose report is whole and closed. *)
Theorem failure_after_json env fs flt pre p post df fmt :
  decodes env pre p post df fmt →
  serialisable (report_of df p fmt) = true → true ∉ take 3 flt →
  outcome env fs flt = None ∧ files (final env fs flt) = written df p fmt fs
  ∨ outcome env fs flt = Some OSError ∧
    (files (final env fs flt) !! report_md = fs !! report_md
     ∨ partial (Md <$> md_of df p fmt) (files (final env fs flt) !! report_md)) ∧
    (files (final env fs flt) !! sample_file = fs !! sample_file
     ∨ files (final env fs flt) !! report_md =
         Some (complete (Md <$> md_of df p fmt)) ∧
       partial [sample_csv df] (files (final env fs flt) !! sample_file)).
Proof.
  intros (Hdir & Hpre & Hp & Hnd) Hok Hflt. unfold outcome, final.
  destruct (main_hit env fs flt pre p post df fmt) as (w0 & -> & <- & <-);
    try done.
  pose proof (serialisable_formattable df p fmt Hok) as Hfmt.
  destruct (process_to_json p df fmt w0 Hnd Hfmt) as (w1 & Hfs & Hf & ->).
  rewrite <- Hf in Hflt. rewrite <- Hfs.
  destruct (write_json_ok (report_of df p fmt) w1 Hok Hflt) as (w2 & Hrun & Hfiles2).
  rewrite bind_run, Hrun, 2!bind_run.
  destruct (write_md_faulty df p fmt w2 Hnd) as (r & w3 & -> & Hmd).
  destruct Hmd as [[-> Hfiles3]|(k & b & Hk & Hfiles3 & [(-> & -> & ->)| ->])].
  - right. cbn [fst snd raised]. rewrite Hfiles3, Hfiles2.
    split; [done|]. split; left; by rewrite lookup_insert_ne.
  - rewrite firstn_all in Hfiles3.
    do 2 rewrite bind_run, print_run. rewrite print_run, bind_run.
    unfold to_csv.
    match goal with |- context [with_open sample_file ?body ?w] =>
      destruct (with_open_appends sample_file [sample_csv df] body w)
        as (r & w4 & -> & Hcsv); [apply appends_write|] end.
    cbn [files after] in Hcsv.
    destruct Hcsv as [[-> Hfiles4]|(k & b & Hk' & Hfiles4 & [(-> & -> & ->)| ->])].
    + right. cbn [fst snd raised]. rewrite Hfiles4, Hfiles3, Hfiles2.
      split; [done|]. split.
      * right. exists (length (Md <$> md_of df p fmt)), true.
        by rewrite firstn_all, lookup_insert_eq.
      * left. by do 2 rewrite lookup_insert_ne by done.
    + left. do 5 rewrite bind_run, print_run. rewrite print_run.
      cbn [fst snd raised files after]. by rewrite Hfiles4, Hfiles3, Hfiles2.
    + right. cbn [fst snd raised]. rewrite Hfiles4, Hfiles3, Hfiles2.
      split; [done|]. split.
      * right. exists (length (Md <$> md_of df p fmt)), true.
        rewrite firstn_all, lookup_insert_ne by done. by rewrite lookup_insert_eq.
      * right. split.
        -- rewrite lookup_insert_ne by done. by rewrite lookup_insert_eq.
        -- exists k, b. by rewrite lookup_insert_eq.
  - right. cbn [fst snd raised]. rewrite Hfiles3, Hfiles2.
    split; [done|]. split.
    + right. exists k, b. by rewrite lookup_insert_eq.
    + left. by do 2 rewrite lookup_insert_ne by done.
Qed.

Lemma failure_after_json_witness :
  outcome ex_env_two ∅ [false; false; false; false; false; true] = None ∧
    files (final ex_env_two ∅ [false; false; false; false; false; true]) =
      written ex_df ex_csv "csv" ∅
  ∨ outcome ex_env_two ∅ [false; false; false; false; false; true] = Some OSError ∧
    (files (final ex_env_two ∅ [false; false; false; false; false; true]) !! report_md
       = (∅ : gmap string file) !! report_md
     ∨ partial (Md <$> md_of ex_df ex_csv "csv")
         (files (final ex_env_two ∅ [false; false; false; false; false; true])
            !! report_md)) ∧
    (files (final ex_env_two ∅ [false; false; false; false; false; true]) !! sample_file
       = (∅ : gmap string file) !! sample_file
     ∨ files (final ex_env_two ∅ [false; false; false; false; false; true]) !! report_md =
         Some (complete (Md <$> md_of ex_df ex_csv "csv")) ∧
       partial [sample_csv ex_df]
         (files (final ex_env_two ∅ [false; false; false; false; false; true])
            !! sample_file)).
Proof.
  apply (failure_after_json ex_env_two ∅ [false; false; false; false; false; true]
           [ex_bad] ex_csv [] ex_df "csv").
  - ex_decodes.
  - reflexivity.
  - refine (bool_decide_unpack _ _). vm_compute. exact I.
Defined.

(** The sixth write operation is the second line of the prose report:
    when it fails the report is cut after its first line, and closed. *)
Example prose_report_cut :
  outcome ex_env_two ∅ [false; false; false; false; false; true] = Some OSError ∧
  files (final ex_env_two ∅ [false; false; false; false; false; true]) !! report_md =
    Some {| f_chunks := take 1 (Md <$> md_of ex_df ex_csv "csv"); f_closed := true |} ∧
  files (final ex_env_two ∅ [false; false; false; false; false; true]) !! sample_file
    = None.
Proof. vm_compute. done. Qed.

(** ** The console of a run *)

Lemma main_loop_skip_lines env pre l w :
  Forall (λ p, probe env p = None) pre →
  main_loop env (pre ++ l) w =
  main_loop env l (after w (concat (probe_lines env <$> pre))
                           (concat (attempts env <$> pre))).
Proof.
  revert w. induction pre as [|p pre IH]; intros w Hpre.
  - cbn. by rewrite after_nil.
  - apply Forall_cons in Hpre as [Hp Hpre]. cbn.
    rewrite bind_run, try_read_file_exact, Hp, IH by done.
    by rewrite after_after.
Qed.

Lemma main_hit_lines env fs flt pre p post df fmt :
  listed env (pre ++ p :: post) →
  Forall (λ q, probe env q = None) pre →
  probe env p = Some (df, fmt) →
  main env (start fs flt) =
  process p df fmt
    (after (start fs flt) (prologue env pre p)
           (concat (attempts env <$> pre) ++ attempts env p)).
Proof.
  intros Hdir Hpre Hp. rewrite (main_run env _ _ Hdir) by (by destruct pre).
  rewrite main_loop_skip_lines by done. cbn [main_loop].
  rewrite bind_run, try_read_file_exact, Hp, !after_after.
  unfold prologue. by rewrite <- !(assoc_L (++)).
Qed.

Lemma main_all_fail_lines env fs flt l :
  listed env l → l ≠ [] →
  Forall (λ p, probe env p = None) l →
  main env (start fs flt) =
  (Ok tt, after (start fs flt)
            (banner ++ listing_lines env ++ concat (probe_lines env <$> l)
               ++ no_file_readable)
            (concat (attempts env <$> l))).
Proof.
  intros Hdir Hne Hfail. rewrite (main_run env _ l Hdir Hne).
  rewrite <- (right_id_L [] (++) l) at 1.
  rewrite main_loop_skip_lines by done. cbn [main_loop].
  rewrite for_each_print_run, !after_after.
  by rewrite <- !(assoc_L (++)), ?(right_id_L [] (++)).
Qed.

(** *** The write operations print nothing *)

#[global] Instance silent_sound : Sound T_silent (λ _, False) (λ _, True).
Proof.
  split; unfold sat, T_silent; cbn; try done.
  - intros w w' w'' _ ??. by etrans.
  - intros w _ w' _ w'' ?? _. by etrans.
  - intros w. unfold io. by destruct (faults w) as [|[] ?].
Qed.

(** The structured report, whatever the write operations do. *)
Lemma write_json_stage r w :
  ∃ res w', write_json r w = (res, w') ∧ stdout w' = stdout w ∧
    (res = Ok tt ∧ files w' = <[report_json := complete [Json r]]> (files w)
     ∨ res = Raise OSError
     ∨ res = Raise TypeError ∧ serialisable r = false).
Proof.
  pose proof (sat_write_json (T:=T_silent) r I w) as Hout. unfold T_silent in Hout.
  destruct (write_json r w) as [res w'] eqn:Hrun. exists res, w'.
  split; [done|]. split; [done|]. clear Hout.
  unfold write_json, json_dump in Hrun. destruct (serialisable r) eqn:Hser.
  - destruct (with_open_appends report_json [Json r] (f_write report_json (Json r)) w)
      as (res' & w'' & Hrun' & Hcases); [apply appends_write|].
    rewrite Hrun in Hrun'. injection Hrun' as <- <-.
    destruct Hcases as [[-> _]|(k & b & _ & Hfiles & [(-> & -> & ->)| ->])]; auto.
  - right. revert Hrun. destruct w as [o rd fs flt].
    destruct flt as [|[] [|[] [|[] flt]]];
      unfold with_open, finally, f_open, f_write, f_close, io, modify, lift,
        mbind, M_bind, mret, M_ret;
      cbn [faults files stdout reads set_files set_faults fst snd];
      intros [= <- <-]; auto.
Qed.

(** Where [process] can stop: before the prose report is whole, before
    the extract is whole, or at its end. *)
Lemma process_stages p df fmt w :
  NoDup (df_columns df) → formattable df →
  ∃ r w', process p df fmt w = (r, w') ∧
    ((r = Raise OSError
       ∨ r = Raise TypeError ∧ serialisable (report_of df p fmt) = false) ∧
      stdout w' = stdout w ++ opening p df fmt
     ∨ files w' !! report_json = Some (complete [Json (report_of df p fmt)]) ∧
       files w' !! report_md = Some (complete (Md <$> md_of df p fmt)) ∧
       (r = Raise OSError ∧ stdout w' = stdout w ++ opening p df fmt ++ report_saved
        ∨ r = Ok tt ∧ files w' = written df p fmt (files w) ∧
          stdout w' = stdout w ++ opening p df fmt ++ report_saved ++ closing)).
Proof.
  intros Hnd Hfmt. unfold process.
  rewrite bind_run, print_run, bind_run, analyze_dataframe_lines by done.
  unfold save_report. rewrite 2!bind_run. unfold lift at 1.
  rewrite build_report_run by done. rewrite bind_run.
  match goal with |- context [write_json _ ?w0] =>
    destruct (write_json_stage (report_of df p fmt) w0)
      as (r1 & w1 & -> & Hout1 & Hjson) end.
  cbn [stdout files after] in Hout1, Hjson.
  rewrite <- (assoc_L (++)) in Hout1. cbn [app] in Hout1. fold (opening p df fmt) in Hout1.
  destruct Hjson as [[-> Hfiles1]|[-> |[-> Hser]]];
    [|eexists _, _; split; [done|]; left; auto..].
  rewrite bind_run.
  pose proof (sat_write_md (T:=T_silent) df (text_cols df) p fmt I w1) as Hout2.
  unfold T_silent in Hout2.
  destruct (write_md_faulty df p fmt w1 Hnd) as (r2 & w2 & Hrun2 & Hmd).
  rewrite Hrun2 in Hout2 |- *. cbn [snd] in Hout2.
  destruct Hmd as [[-> Hfiles2]|(k & b & Hk & Hfiles2 & [(-> & -> & ->)| ->])];
    [eexists _, _; split; [done|]; left; split; [auto|congruence]| |
     eexists _, _; split; [done|]; left; split; [auto|congruence]].
  rewrite firstn_all in Hfiles2.
  do 2 rewrite bind_run, print_run. rewrite print_run, bind_run.
  match goal with |- context [to_csv ?d ?f ?w0] =>
    pose proof (sat_to_csv (T:=T_silent) d f I w0) as Hout3;
    unfold T_silent in Hout3; unfold to_csv in Hout3 |- *;
    destruct (with_open_appends f [sample_csv df] (f_write f (sample_csv df)) w0)
      as (r3 & w3 & Hrun3 & Hcsv); [apply appends_write|] end.
  unfold sample_csv in Hrun3 at 1. rewrite Hrun3 in Hout3 |- *.
  cbn [snd stdout files after] in Hout3, Hcsv.
  assert (stdout w3 = stdout w ++ opening p df fmt ++ report_saved) as Hout.
  { rewrite Hout3, Hout2, Hout1. unfold report_saved.
    by rewrite <- !(assoc_L (++)). }
  destruct Hcsv as [[-> Hfiles3]|(k & b & Hk' & Hfiles3 & [(-> & -> & ->)| ->])].
  - eexists _, _. split; [done|]. right. rewrite Hfiles3, Hfiles2, Hfiles1.
    split_and!.
    + rewrite lookup_insert_ne by done. apply lookup_insert_eq.
    + apply lookup_insert_eq.
    + left. by split.
  - do 5 rewrite bind_run, print_run. rewrite print_run.
    eexists _, _. split; [done|]. right. cbn [files stdout after].
    rewrite Hfiles3, Hfiles2, Hfiles1. split_and!.
    + do 2 rewrite lookup_insert_ne by done. apply lookup_insert_eq.
    + rewrite lookup_insert_ne by done. apply lookup_insert_eq.
    + right. split_and!; [done..|]. rewrite Hout. unfold closing.
      by rewrite <- !(assoc_L (++)).
  - eexists _, _. split; [done|]. right. rewrite Hfiles3, Hfiles2, Hfiles1.
    split_and!.
    + do 2 rewrite lookup_insert_ne by done. apply lookup_insert_eq.
    + rewrite lookup_insert_ne by done. apply lookup_insert_eq.
    + left. by split.
Qed.

(** X15 (l.154-199).  What a run prints, line for line.  A run that
    writes its three outputs prints the banner, the listing, the status
    lines of every candidate up to the first that decodes, the analysis
    of that table, the three lines on the reports and the closing lines.
    A run in which the File Locator returns candidates and none decodes
    prints the status lines of every candidate, then the six lines of
    the total-failure guidance; a run without candidates prints the five
    lines of the suggestions right after the listing; a run whose
    listing meets an entry without a size ends there with [OSError],
    the banner and the listing so far printed and nothing after. *)
Theorem console_transcript env fs flt :
  (∀ pre p post df fmt,
     decodes env pre p post df fmt →
     serialisable (report_of df p fmt) = true → true ∉ flt →
     stdout (final env fs flt) =
       prologue env pre p ++ opening p df fmt ++ report_saved ++ closing) ∧
  (∀ l, listed env l → l ≠ [] →
     Forall (λ p, probe env p = None) l →
     stdout (final env fs flt) =
       banner ++ listing_lines env ++ concat (probe_lines env <$> l) ++ guidance) ∧
  (default [] (data_dir env) = [] →
     stdout (final env fs flt) = banner ++ listing_lines env ++ suggestions) ∧
  (∀ l, data_dir env = Some l → ¬ Forall sized l →
     outcome env fs flt = Some OSError ∧
     stdout (final env fs flt) = banner ++ listing_lines env).
Proof.
  unfold final. split_and!.
  - intros pre p post df fmt Hdec Hok Hflt.
    destruct (main_written env fs flt pre p post df fmt Hdec Hok Hflt) as [Hout _].
    pose proof (serialisable_formattable df p fmt Hok) as Hfmt.
    destruct Hdec as (Hdir & Hpre & Hp & Hnd). unfold outcome in Hout.
    rewrite (main_hit_lines env fs flt pre p post df fmt) in Hout |- * by done.
    match goal with |- context [process p df fmt ?w0] =>
      destruct (process_stages p df fmt w0 Hnd Hfmt) as (r & w' & Hrun & Hcases) end.
    rewrite Hrun in Hout |- *. cbn [fst snd] in *.
    destruct Hcases as [[[-> |[-> _]] _]|(_ & _ & [[-> _]|(_ & _ & ->)])]; done.
  - intros l Hdir Hne Hfail. by rewrite (main_all_fail_lines env fs flt l).
  - intros Hdir. rewrite main_no_input; [done|].
    unfold located. destruct (data_dir env) as [l|]; [|done].
    cbn in Hdir. subst l. by rewrite decide_True by constructor.
  - intros l Hdir Hl. unfold outcome.
    rewrite (main_unlisted env _ OSError); [done|].
    unfold located. by rewrite Hdir, decide_False.
Qed.

Lemma console_transcript_witness :
  stdout (final ex_env_two ∅ []) =
  prologue ex_env_two [ex_bad] ex_csv ++ opening ex_csv ex_df "csv"
    ++ report_saved ++ closing.
Proof.
  apply (proj1 (console_transcript ex_env_two ∅ []) [ex_bad] ex_csv [] ex_df "csv").
  - ex_decodes.
  - reflexivity.
  - apply not_elem_of_nil.
Defined.

(** *** Lines that announce an output *)

Lemma announces_spec l :
  announces l = false → l ≠ json_announced ∧ l ≠ extract_announced.
Proof.
  unfold announces. intros [H1 H2]%orb_false_elim.
  split; intros ->; by rewrite bool_decide_eq_true_2 in *.
Qed.

Lemma quiet_probe_lines env p : Forall (λ l, announces l = false) (probe_lines env p).
Proof.
  unfold probe_lines. constructor; [done|].
  induction (priority p) as [|[r tag] l IH]; cbn; [constructor|].
  destruct (pd_read env r (path_str p)); by repeat constructor.
Qed.

Lemma quiet_entry_lines l : Forall (λ l, announces l = false) (entry_lines l).
Proof.
  induction l as [|e l IH]; cbn; [constructor|].
  destruct (st_size e); by constructor.
Qed.

Lemma quiet_prologue env pre p l0 :
  data_dir env = Some l0 → Forall (λ l, announces l = false) (prologue env pre p).
Proof.
  intros Hdir. unfold prologue, listing_lines. rewrite Hdir, !Forall_app. split_and!.
  - by repeat constructor.
  - constructor; [done|]. apply quiet_entry_lines.
  - apply Forall_concat, Forall_fmap, Forall_forall. intros q _. apply quiet_probe_lines.
  - apply quiet_probe_lines.
Qed.

Lemma quiet_opening p df fmt : Forall (λ l, announces l = false) (opening p df fmt).
Proof.
  unfold opening, analysis_lines. constructor; [done|]. rewrite !Forall_app. split_and!.
  - by repeat constructor.
  - apply Forall_fmap, Forall_forall. done.
  - by repeat constructor.
  - apply Forall_concat, Forall_fmap, Forall_forall. intros c _.
    unfold sample_previews. constructor; [done|]. apply Forall_fmap, Forall_forall. done.
Qed.

(** The overview of l.79-82 prints lines on columns only. *)
Lemma quiet_overview df cols i w :
  (∀ col, col ∈ cols → col ∈ df_columns df) →
  ∃ out,
    for_each (enumerate i cols)
      (λ '(i, col),
         s ← lift (column df col);
         lift (format_spec col);;
         print (ColumnInfo i col (dtype_str (s_dtype s)) (count s) (shape0 df))) w =
    (match stops_at df cols with None => Ok tt | Some e => Raise e end,
     after w out []) ∧
    Forall (λ l, announces l = false) out.
Proof.
  revert i w. induction cols as [|col cols IH]; intros i w Hcols.
  - exists []. cbn. by rewrite after_nil.
  - rewrite enumerate_cons. cbn [for_each stops_at]. rewrite !bind_run.
    unfold lift at 1. destruct (decide (repeated df col)) as [Hrep|Hrep].
    { rewrite (column_repeated df col Hrep). exists []. by rewrite after_nil. }
    destruct (column_single df col) as [c ->]; [apply Hcols; left|done|].
    rewrite bind_run. unfold lift at 1, format_spec.
    destruct (formats col).
    + rewrite print_run. edestruct (IH (S i)) as (out & -> & Hout).
      { intros c' Hc'. apply Hcols. by right. }
      eexists (_ :: out). rewrite after_after. split; [done|]. by constructor.
    + exists []. by rewrite after_nil.
Qed.

(** A table that stops the Analyzer ends the run there: what has been
    printed announces no output. *)
Lemma quiet_blocked p df fmt w e :
  blocked df = Some e →
  ∃ out, process p df fmt w = (Raise e, after w out []) ∧
         Forall (λ l, announces l = false) out.
Proof.
  intros Hb. unfold process, analyze_dataframe.
  rewrite bind_run, print_run, bind_run.
  do 6 rewrite bind_run, print_run. rewrite bind_run.
  edestruct (quiet_overview df (df_columns df) 1) as (out & -> & Hout); [done|].
  unfold blocked in Hb. rewrite Hb. eexists. rewrite !after_after.
  split; [done|]. by repeat constructor.
Qed.

Lemma quiet_not_elem l (out : list line) :
  announces l = true → Forall (λ l, announces l = false) out → l ∉ out.
Proof.
  intros Hl Hout Hin. rewrite Forall_forall in Hout. specialize (Hout l Hin). congruence.
Qed.

(** X16 (l.150-152, l.185).  The console does not run ahead of the
    files.  In a run that decodes a table whose labels are distinct,
    whatever the write operations do: the line that announces the
    structured report is printed only when both reports are on disk,
    whole and closed; the line that announces the extract is printed
    exactly when the run returns; and a run that returns has written the
    three outputs. *)
Theorem announcements_truthful env fs flt pre p post df fmt :
  decodes env pre p post df fmt →
  (json_announced ∈ stdout (final env fs flt) →
     files (final env fs flt) !! report_json =
       Some (complete [Json (report_of df p fmt)]) ∧
     files (final env fs flt) !! report_md =
       Some (complete (Md <$> md_of df p fmt))) ∧
  (extract_announced ∈ stdout (final env fs flt) ↔ outcome env fs flt = None) ∧
  (outcome env fs flt = None → files (final env fs flt) = written df p fmt fs).
Proof.
  intros (Hdir & Hpre & Hp & Hnd). unfold final, outcome.
  rewrite (main_hit_lines env fs flt pre p post df fmt) by done.
  pose proof (quiet_prologue env pre p _ (proj1 Hdir)) as Hq1.
  destruct (blocked df) as [e|] eqn:Hb.
  { match goal with |- context [process p df fmt ?w0] =>
      destruct (quiet_blocked p df fmt w0 e Hb) as (out & -> & Hout) end.
    cbn [fst snd stdout files after start app raised].
    assert (∀ l, announces l = true → l ∉ prologue env pre p ++ out) as Hq.
    { intros l Hl. apply quiet_not_elem; [done|]. by apply Forall_app. }
    split_and!; [|split|]; try done; intros Hin; by apply Hq in Hin. }
  apply blocked_none in Hb as [_ Hfmt].
  match goal with |- context [process p df fmt ?w0] =>
    destruct (process_stages p df fmt w0 Hnd Hfmt) as (r & w' & -> & Hcases) end.
  cbn [fst snd stdout files after start app] in *.
  pose proof (quiet_opening p df fmt) as Hq2.
  assert (∀ l, announces l = true → l ∉ prologue env pre p ++ opening p df fmt) as Hq.
  { intros l Hl. apply quiet_not_elem; [done|]. by apply Forall_app. }
  destruct Hcases as [[Hr Hout]|(Hjson & Hmd & [[-> Hout]|(-> & Hfiles & Hout)])];
    rewrite Hout.
  - split_and!.
    + intros Hin. by apply Hq in Hin.
    + split; [intros Hin; by apply Hq in Hin|]. by destruct Hr as [-> |[-> _]].
    + by destruct Hr as [-> |[-> _]].
  - split_and!; [done| |done].
    split; [|done].
    rewrite (assoc_L (++)), elem_of_app. intros [Hin|Hin]; [by apply Hq in Hin|].
    unfold report_saved in Hin. by repeat (apply elem_of_cons in Hin as [[=]|Hin]);
      apply elem_of_nil in Hin.
  - split_and!; [done| |done]. split; [done|]. intros _.
    rewrite !elem_of_app. do 3 right. left.
Qed.

Lemma announcements_truthful_witness :
  extract_announced ∈ stdout (final ex_env_two ∅ [false; false; false; true]) ↔
  outcome ex_env_two ∅ [false; false; false; true] = None.
Proof.
  apply (announcements_truthful ex_env_two ∅ [false; false; false; true]
           [ex_bad] ex_csv [] ex_df "csv").
  ex_decodes.
Defined.

(** ** The overview and the text columns *)

Lemma count_pos c : 0 < count c ↔ Exists is_Some (s_values c).
Proof.
  rewrite <- has_samples_spec. unfold count, dropna.
  rewrite Nat.ltb_lt, length_take. lia.
Qed.

Lemma dtype_str_object d : dtype_str d = "object" ↔ d = DObject.
Proof. by destruct d. Qed.

(** X17 (l.79-82, l.90-94).  On a table whose labels are distinct and
    take the format spec of l.82, the columns the Analyzer returns as
    text columns are exactly those that its overview shows with the kind
    [object] and a non-missing count that is not zero. *)
Theorem text_column_by_count df fmt w :
  NoDup (df_columns df) → formattable df →
  ∃ tc out,
    analyze_dataframe df fmt w = (Ok tc, after w out []) ∧
    ∀ col, col ∈ tc ↔ ∃ i n rows, ColumnInfo i col "object" n rows ∈ out ∧ 0 < n.
Proof.
  intros Hnd Hfmt. exists (text_cols df), (analysis_lines df fmt).
  split; [by apply analyze_dataframe_lines|]. intros col. split.
  - intros (c & -> & [[Hobj Hval] Hc]%list_elem_of_filter)%list_elem_of_fmap.
    apply list_elem_of_lookup in Hc as [i Hi].
    exists (S i), (count c), (shape0 df). split; [|by apply count_pos].
    apply column_info_elem. split; [lia|]. split; [done|].
    exists c. cbn. rewrite Nat.sub_0_r. by rewrite Hobj.
  - intros (i & n & rows & (Hi & _ & c & Hc & -> & Hobj & ->)%column_info_elem & Hn).
    apply list_elem_of_fmap_2, list_elem_of_filter. split.
    + split; [by apply dtype_str_object|by apply count_pos].
    + by eapply list_elem_of_lookup_2.
Qed.

Lemma text_column_by_count_witness :
  ∃ tc out,
    analyze_dataframe ex_df "csv" (start ∅ []) = (Ok tc, after (start ∅ []) out []) ∧
    ∀ col, col ∈ tc ↔ ∃ i n rows, ColumnInfo i col "object" n rows ∈ out ∧ 0 < n.
Proof.
  apply (text_column_by_count ex_df "csv" (start ∅ [])); ex_labels.
Defined.

(** ** The three outputs side by side *)

Lemma elem_of_take_list {A} (x : A) n (l : list A) : x ∈ take n l → x ∈ l.
Proof. intros Hx. eapply elem_of_sublist; [done|apply sublist_take]. Qed.

(** X18 (l.105-148, l.184).  The outputs of a run that ends well agree.
    The prose report states the file name, the tag, the shape and the
    number of text columns that the structured report records, has one
    overview line per entry of its kinds, in the same order, and one
    heading per text column it lists; every column sampled in the
    structured report has its heading, and its first two samples are the
    samples of the prose report, cut to 200 characters.  The header of
    the extract is the column list of the structured report, and the
    extract has as many records as the report counts rows, up to 100. *)
Theorem outputs_agree env fs flt pre p post df fmt :
  decodes env pre p post df fmt →
  serialisable (report_of df p fmt) = true → true ∉ flt →
  ∃ r mdc header records,
    files (final env fs flt) !! report_json = Some (complete [Json r]) ∧
    files (final env fs flt) !! report_md = Some (complete (Md <$> mdc)) ∧
    files (final env fs flt) !! sample_file = Some (complete [Csv header records]) ∧
    header = r_columns r ∧ length header = columns r ∧
    length records = rows r `min` 100 ∧
    MdFileName (file_name r) ∈ mdc ∧ MdFormat (file_format r) ∈ mdc ∧
    MdShape (rows r) (columns r) ∈ mdc ∧ MdColumnCount (columns r) ∈ mdc ∧
    MdTextCount (length (text_columns r)) ∈ mdc ∧
    (∀ i col dt, dtypes r !! i = Some (col, dt) → ∃ n, MdColumn (S i) col dt n ∈ mdc) ∧
    (∀ col, MdHeading col ∈ mdc ↔ col ∈ text_columns r) ∧
    (∀ col samples, (col, samples) ∈ sample_data r →
       MdHeading col ∈ mdc ∧
       ∀ j v, j < 2 → samples !! j = Some v →
              MdSample (S j) (str_take 200 (str v)) ∈ mdc).
Proof.
  intros Hdec Hok Hflt.
  destruct (main_written env fs flt pre p post df fmt) as [_ Hfiles]; try done.
  exists (report_of df p fmt), (md_of df p fmt). eexists _, _.
  rewrite Hfiles, written_json, written_md, written_csv.
  split; [done|]. split; [done|]. split; [reflexivity|].
  rewrite head_columns. cbn [report_of r_columns columns rows file_name file_format
                              text_columns dtypes sample_data].
  split_and!.
  - done.
  - unfold df_columns. by rewrite length_fmap.
  - by rewrite length_fmap, length_seq.
  - unfold md_of. rewrite !elem_of_app, !elem_of_cons. tauto.
  - unfold md_of. rewrite !elem_of_app, !elem_of_cons. tauto.
  - unfold md_of, shape0, shape1. rewrite !elem_of_app, !elem_of_cons. tauto.
  - unfold md_of, shape1. rewrite !elem_of_app, !elem_of_cons. tauto.
  - by apply md_count_elem.
  - intros i col dt. unfold dict. rewrite list_lookup_fmap.
    destruct (df_data df !! i) as [c|] eqn:Hc; [|done]. intros [= <- <-].
    exists (count c). by apply md_column_elem.
  - apply md_heading_elem.
  - intros col samples (c & [= -> ->] & Hc%elem_of_take_list)%list_elem_of_fmap.
    split.
    + apply md_heading_elem. by apply list_elem_of_fmap_2.
    + apply list_elem_of_filter in Hc as [Htxt Hc]. intros j v Hj Hv.
      rewrite lookup_take_lt in Hv by lia.
      apply md_sample_elem. split; [lia|]. exists c, v. cbn.
      by rewrite Nat.sub_0_r.
Qed.

Lemma outputs_agree_witness :
  ∃ r mdc header records,
    files (final ex_env_two ∅ []) !! report_json = Some (complete [Json r]) ∧
    files (final ex_env_two ∅ []) !! report_md = Some (complete (Md <$> mdc)) ∧
    files (final ex_env_two ∅ []) !! sample_file = Some (complete [Csv header records]) ∧
    header = r_columns r ∧ length header = columns r ∧
    length records = rows r `min` 100 ∧
    MdFileName (file_name r) ∈ mdc ∧ MdFormat (file_format r) ∈ mdc ∧
    MdShape (rows r) (columns r) ∈ mdc ∧ MdColumnCount (columns r) ∈ mdc ∧
    MdTextCount (length (text_columns r)) ∈ mdc ∧
    (∀ i col dt, dtypes r !! i = Some (col, dt) → ∃ n, MdColumn (S i) col dt n ∈ mdc) ∧
    (∀ col, MdHeading col ∈ mdc ↔ col ∈ text_columns r) ∧
    (∀ col samples, (col, samples) ∈ sample_data r →
       MdHeading col ∈ mdc ∧
       ∀ j v, j < 2 → samples !! j = Some v →
              MdSample (S j) (str_take 200 (str v)) ∈ mdc).
Proof.
  apply (outputs_agree ex_env_two ∅ [] [ex_bad] ex_csv [] ex_df "csv").
  - ex_decodes.
  - reflexivity.
  - apply not_elem_of_nil.
Defined.
(** ** The exceptions of a run *)

Lemma outcome_cases env fs flt :
  match located env with
  | Raise e => outcome env fs flt = Some e
  | Ok l =>
      match first_decoded env l with
      | None => outcome env fs flt = None
      | Some (p, df, fmt) =>
          match blocked df with
          | Some e => outcome env fs flt = Some e
          | None =>
              outcome env fs flt = None ∨ outcome env fs flt = Some OSError ∨
              outcome env fs flt = Some TypeError ∧
                serialisable (report_of df p fmt) = false
          end
      end
  end.
Proof.
  destruct (located env) as [l|e] eqn:Hloc.
  2: { unfold outcome. by rewrite (main_unlisted env _ e). }
  destruct (first_decoded env l) as [[[p df] fmt]|] eqn:Hfirst.
  - apply first_decoded_some in Hfirst as (pre & post & -> & Hpre & Hp).
    apply located_ok in Hloc; [|by destruct pre].
    destruct (blocked df) as [e|] eqn:Hb.
    + by destruct (main_blocked env fs flt pre p post df fmt e) as [-> _].
    + apply blocked_none in Hb as [Hnd Hfmt]. unfold outcome.
      rewrite (main_hit_lines env fs flt pre p post df fmt) by done.
      match goal with |- context [process p df fmt ?w0] =>
        destruct (process_stages p df fmt w0 Hnd Hfmt) as (r & w' & -> & Hcases) end.
      cbn [fst].
      destruct Hcases as [[[-> |[-> Hser]] _]|(_ & _ & [[-> _]|(-> & _)])]; cbn; auto.
  - unfold outcome. destruct l as [|q l].
    + by rewrite main_no_input.
    + apply located_ok in Hloc; [|done]. apply first_decoded_none in Hfirst.
      by destruct (main_all_fail env (start fs flt) (q :: l) Hloc) as [out ->].
Qed.

Lemma candidates_located env l : located env = Ok l → candidates env = l.
Proof. unfold candidates. by intros ->. Qed.

Lemma candidates_unlisted env e : located env = Raise e → candidates env = [].
Proof. unfold candidates. by intros ->. Qed.

(** X19 (l.154-199).  The exceptions a run can end with, whatever the
    listing, the readers and the write operations do.  It never ends
    with [KeyError]: every label the script looks up comes from the
    table itself.  It ends with [AttributeError] exactly when the
    overview of the first table decoded stops at a label that repeats,
    and then the labels of that table are not distinct.  It ends with
    [TypeError] only if that overview stops at a label that does not
    take the format spec of l.82, or the table goes through the Analyzer
    and its report holds a label or a sampled value that [json.dump]
    cannot write.  It ends with [OSError] only if an entry of [data/]
    has no size, or a table went through the Analyzer and a write
    operation fails.  When the File Locator returns and no candidate
    decodes, the run returns. *)
Theorem exceptions_of_a_run env fs flt :
  outcome env fs flt ≠ Some KeyError ∧
  (outcome env fs flt = Some AttributeError ↔
     ∃ p df fmt, first_decoded env (candidates env) = Some (p, df, fmt) ∧
                 blocked df = Some AttributeError) ∧
  (outcome env fs flt = Some AttributeError →
     ∃ p df fmt, first_decoded env (candidates env) = Some (p, df, fmt) ∧
                 ¬ NoDup (df_columns df)) ∧
  (outcome env fs flt = Some TypeError →
     ∃ p df fmt, first_decoded env (candidates env) = Some (p, df, fmt) ∧
       (¬ formattable df ∧ blocked df = Some TypeError
        ∨ NoDup (df_columns df) ∧ formattable df ∧
          serialisable (report_of df p fmt) = false)) ∧
  (outcome env fs flt = Some OSError →
     (∃ l, data_dir env = Some l ∧ ¬ Forall sized l)
     ∨ true ∈ flt ∧
       ∃ p df fmt, first_decoded env (candidates env) = Some (p, df, fmt) ∧
                   NoDup (df_columns df) ∧ formattable df) ∧
  (∀ l, located env = Ok l → first_decoded env l = None → outcome env fs flt = None).
Proof.
  pose proof (outcome_cases env fs flt) as Hcases.
  destruct (located env) as [l|e0] eqn:Hloc.
  2: { apply located_raise in Hloc as Hraise. destruct Hraise as (-> & l & Hdir & Hl).
       rewrite (candidates_unlisted env OSError Hloc), Hcases. cbn.
       split_and!; try done.
       - split; [done|]. by intros (p & df & fmt & [=] & _).
       - intros _. left. by exists l. }
  rewrite (candidates_located env l Hloc).
  destruct (first_decoded env l) as [[[p df] fmt]|] eqn:Hfirst.
  2: { rewrite Hcases. split_and!; try done.
       split; [done|]. by intros (p & df & fmt & [=] & _). }
  destruct (blocked df) as [e|] eqn:Hb.
  - rewrite Hcases.
    destruct (blocked_some df e Hb) as [[-> Hdup]|[-> Hfmt]].
    + split_and!; try done.
      * split; [|done]. intros _. by exists p, df, fmt.
      * intros _. by exists p, df, fmt.
      * intros l' [= <-]. by rewrite Hfirst.
    + split_and!; try done.
      * split; [done|]. intros (p' & df' & fmt' & [= <- <- <-] & Hb'). congruence.
      * intros _. exists p, df, fmt. split; [done|]. by left.
      * intros l' [= <-]. by rewrite Hfirst.
  - apply blocked_none in Hb as Hgood. destruct Hgood as [Hnd Hfmt]. split_and!.
    + by destruct Hcases as [-> |[-> |[-> _]]].
    + split.
      * by destruct Hcases as [-> |[-> |[-> _]]].
      * intros (p' & df' & fmt' & [= <- <- <-] & Hb'). congruence.
    + by destruct Hcases as [-> |[-> |[-> _]]].
    + intros Hty. exists p, df, fmt. split; [done|]. right. split_and!; [done..|].
      destruct Hcases as [H|[H|[_ Hser]]]; [congruence..|done].
    + intros Hos. right. split; [|by exists p, df, fmt].
      destruct (decide (true ∈ flt)) as [|Hflt]; [done|].
      pose proof (fault_free_run env fs flt Hflt) as Hrun. unfold verdict in Hrun.
      rewrite Hloc, Hfirst, Hb, Hos in Hrun.
      by destruct (serialisable (report_of df p fmt)).
    + intros l' [= <-]. by rewrite Hfirst.
Qed.

(** ** The reader calls of a run *)

Lemma tried_hit env pre p post df fmt :
  Forall (λ q, probe env q = None) pre → probe env p = Some (df, fmt) →
  tried env (pre ++ p :: post) = pre ++ [p].
Proof.
  intros Hpre Hp. induction Hpre as [|q pre Hq Hpre IH]; cbn.
  - by rewrite Hp.
  - by rewrite Hq, IH.
Qed.

Lemma tried_all_fail env l :
  Forall (λ q, probe env q = None) l → tried env l = l.
Proof. intros Hl. induction Hl as [|q l Hq Hl IH]; cbn; [done|]. by rewrite Hq, IH. Qed.

Lemma tried_prefix env l : tried env l `prefix_of` l.
Proof.
  induction l as [|p l IH]; cbn; [done|]. apply prefix_cons.
  destruct (probe env p); [apply prefix_nil|done].
Qed.

Lemma reads_final env fs flt :
  reads (final env fs flt) = concat (attempts env <$> tried env (candidates env)).
Proof.
  unfold final, candidates. destruct (located env) as [l|e] eqn:Hloc.
  2: { by rewrite (main_unlisted env _ e). }
  destruct (first_decoded env l) as [[[p df] fmt]|] eqn:Hfirst.
  - apply first_decoded_some in Hfirst as (pre & post & -> & Hpre & Hp).
    apply located_ok in Hloc; [|by destruct pre].
    rewrite (tried_hit env pre p post df fmt) by done.
    rewrite (main_hit_lines env fs flt pre p post df fmt) by done.
    rewrite (frames_process reads) by done. cbn.
    rewrite fmap_app, concat_app. cbn. by rewrite ?(right_id_L [] (++)).
  - apply first_decoded_none in Hfirst. rewrite tried_all_fail by done.
    destruct l as [|q l].
    + by rewrite main_no_input.
    + apply located_ok in Hloc; [|done].
      by rewrite (main_all_fail_lines env fs flt (q :: l)).
Qed.

Lemma candidates_listing env : candidates env `sublist_of` default [] (data_dir env).
Proof.
  unfold candidates, located. destruct (data_dir env) as [l|]; cbn; [|done].
  destruct (decide (Forall sized l)); [done|apply sublist_nil_l].
Qed.

Lemma first_match_tried env p l r :
  r ∈ (first_match env p l).1 → r ∈ l.*1.
Proof.
  induction l as [|[r' tag] l IH]; cbn; [done|].
  destruct (pd_read env r' (path_str p)).
  - intros ->%list_elem_of_singleton. left.
  - destruct (first_match env p l) as [t found]. cbn in *.
    intros [->|Hr]%elem_of_cons; [left|right; by apply IH].
Qed.

Lemma first_match_length env p l : length (first_match env p l).1 ≤ length l.
Proof.
  induction l as [|[r' tag] l IH]; cbn; [done|].
  destruct (pd_read env r' (path_str p)); cbn; [lia|].
  destruct (first_match env p l) as [t found]. cbn in *. lia.
Qed.

Lemma priority_length p : length (priority p) ≤ 4.
Proof. unfold priority. destruct (endswith _ _); cbn; lia. Qed.

Lemma concat_length_le {A} (ls : list (list A)) n :
  Forall (λ l, length l ≤ n) ls → length (concat ls) ≤ n * length ls.
Proof.
  induction 1 as [|l ls Hl Hls IH]; cbn; [lia|]. rewrite length_app. lia.
Qed.

(** X20 (l.30-67, l.170-192).  The readers are called on the candidates
    the File Locator returns (the entries of [data/], when each has a
    size; none when the listing raises), up to the first that decodes,
    and on nothing else: every call is made on the path of an entry of
    [data/], the explicit engine is asked for only on a path that ends
    in [.gzip], and a run makes at most four calls per entry of the
    listing. *)
Theorem readers_stay_in_listing env fs flt :
  reads (final env fs flt) = concat (attempts env <$> tried env (candidates env)) ∧
  tried env (candidates env) `prefix_of` candidates env ∧
  (Forall sized (default [] (data_dir env)) →
     candidates env = default [] (data_dir env)) ∧
  (¬ Forall sized (default [] (data_dir env)) → reads (final env fs flt) = []) ∧
  (∀ r path, (r, path) ∈ reads (final env fs flt) →
     ∃ e, e ∈ default [] (data_dir env) ∧ path = path_str e ∧
          (r = read_parquet_pyarrow → endswith path ".gzip" = true)) ∧
  length (reads (final env fs flt)) ≤ 4 * length (default [] (data_dir env)).
Proof.
  split; [apply reads_final|]. split; [apply tried_prefix|].
  split.
  { unfold candidates, located. destruct (data_dir env) as [l|]; cbn; [|done].
    intros Hl. by rewrite decide_True. }
  split.
  { rewrite reads_final. unfold candidates, located.
    destruct (data_dir env) as [l|]; cbn; [|by intros []].
    intros Hl. by rewrite decide_False. }
  rewrite reads_final. split.
  - intros r path (l & (e & -> & He)%list_elem_of_fmap & Hin)%elem_of_concat.
    unfold attempts in Hin.
    apply list_elem_of_fmap in Hin as (r' & [= <- ->] & Hr%first_match_tried).
    exists e. split_and!; [|done|].
    + eapply elem_of_sublist; [|apply candidates_listing].
      destruct (tried_prefix env (candidates env)) as [k Hk].
      rewrite Hk. apply elem_of_app. by left.
    + intros ->. unfold path_str. rewrite endswith_data.
      unfold priority in Hr. destruct (endswith (e_name e) ".gzip"); [done|].
      cbn in Hr. by repeat (apply elem_of_cons in Hr as [[=]|Hr]);
        apply elem_of_nil in Hr.
  - etrans; [apply (concat_length_le _ 4)|].
    + apply Forall_fmap, Forall_forall. intros e _. cbn. unfold attempts.
      rewrite length_fmap. etrans; [apply first_match_length|apply priority_length].
    + rewrite length_fmap. apply Nat.mul_le_mono_l.
      etrans; [apply prefix_length, tried_prefix|].
      apply sublist_length, candidates_listing.
Qed.

(** ** The extract, in every run *)

(** C6 does not hold of every decoded table.  A table whose only column
    holds calendar dates decodes, its labels are distinct and no write
    operation fails; the run ends with [TypeError] while the structured
    report is written, and there is no extract at all. *)
Lemma extract_missing :
  probe (ex_env_of ex_dated) ex_csv = Some (ex_dated, "csv") ∧
  NoDup (df_columns ex_dated) ∧
  outcome (ex_env_of ex_dated) ∅ [] = Some TypeError ∧
  files (final (ex_env_of ex_dated) ∅ []) !! sample_file = None.
Proof.
  split; [reflexivity|]. split; [ex_labels|]. split; vm_compute; reflexivity.
Qed.

(** C6, amended.  For the table the run decodes, the first of the
    listing that decodes: whenever the run returns, the extract written
    to [pesticide_data_sample.csv] is one header, the labels of the
    table in column order, and min(rowcount, 100) records, record [i]
    being row [i] of the table, cell by cell in column order.  The run
    returns when the labels are distinct, the report can be serialised
    and no write operation fails; when no write operation fails it
    returns in that case only. *)
Theorem sample_extract_rows env fs flt pre p post df fmt :
  listed env (pre ++ p :: post) →
  Forall (λ q, probe env q = None) pre →
  probe env p = Some (df, fmt) →
  (outcome env fs flt = None →
   ∃ header records,
     files (final env fs flt) !! sample_file =
       Some (complete [Csv header records]) ∧
     header = df_columns df ∧
     length records = index_len df `min` 100 ∧
     ∀ i, i < length records →
       records !! i = Some ((λ c, mjoin (s_values c !! i)) <$> df_data df)) ∧
  (NoDup (df_columns df) → serialisable (report_of df p fmt) = true →
   true ∉ flt → outcome env fs flt = None) ∧
  (true ∉ flt → outcome env fs flt = None →
   NoDup (df_columns df) ∧ serialisable (report_of df p fmt) = true).
Proof.
  intros Hdir Hpre Hp. split_and!.
  - destruct (blocked df) as [e|] eqn:Hb.
    { destruct (main_blocked env fs flt pre p post df fmt e) as [-> _]; done. }
    apply blocked_none in Hb as [Hnd Hfmt]. unfold outcome, final.
    rewrite (main_hit_lines env fs flt pre p post df fmt) by done.
    match goal with |- context [process p df fmt ?w0] =>
      destruct (process_stages p df fmt w0 Hnd Hfmt) as (r & w' & -> & Hcases) end.
    cbn [fst snd files after start].
    destruct Hcases as [[[-> |[-> _]] _]|(_ & _ & [[-> _]|(_ & -> & _)])]; try done.
    intros _. rewrite written_csv. eexists _, _. split; [reflexivity|].
    rewrite head_columns.
    split; [done|]. rewrite length_fmap, length_seq. cbn [index_len head].
    split; [done|]. intros i Hi.
    rewrite list_lookup_fmap, lookup_seq_lt by done. cbn.
    f_equal. apply head_row. lia.
  - intros Hnd Hok Hflt.
    by destruct (main_written env fs flt pre p post df fmt) as [-> _].
  - intros Hflt Hout.
    destruct (blocked df) as [e|] eqn:Hb.
    { destruct (main_blocked env fs flt pre p post df fmt e) as [Hout' _]; try done.
      congruence. }
    apply blocked_none in Hb as [Hnd Hfmt]. split; [done|].
    destruct (serialisable (report_of df p fmt)) eqn:Hok; [done|].
    destruct (main_unserialisable env fs flt pre p post df fmt) as [Hout' _];
      try done. congruence.
Qed.

Lemma sample_extract_rows_witness :
  (outcome ex_env_two ∅ [false] = None →
   ∃ header records,
     files (final ex_env_two ∅ [false]) !! sample_file =
       Some (complete [Csv header records]) ∧
     header = df_columns ex_df ∧
     length records = index_len ex_df `min` 100 ∧
     ∀ i, i < length records →
       records !! i = Some ((λ c, mjoin (s_values c !! i)) <$> df_data ex_df)) ∧
  (NoDup (df_columns ex_df) → serialisable (report_of ex_df ex_csv "csv") = true →
   true ∉ [false] → outcome ex_env_two ∅ [false] = None) ∧
  (true ∉ [false] → outcome ex_env_two ∅ [false] = None →
   NoDup (df_columns ex_df) ∧ serialisable (report_of ex_df ex_csv "csv") = true).
Proof.
  apply (sample_extract_rows ex_env_two ∅ [false] [ex_bad] ex_csv [] ex_df "csv").
  - ex_listed.
  - repeat constructor.
  - reflexivity.
Defined.

(** ** Tables off the beaten track *)

(** Floats in an object column are sampled and serialised: the run
    returns and writes the three outputs. *)
Example floats_go_through :
  text_cols ex_floats = [LStr "dose"] ∧
  outcome (ex_env_of ex_floats) ∅ [] = None ∧
  files (final (ex_env_of ex_floats) ∅ []) = written ex_floats ex_csv "csv" ∅.
Proof. split; [reflexivity|]. split; vm_compute; reflexivity. Qed.

(** A label that is a timestamp goes through the Analyzer, and stops
    [json.dump] although no value is sampled: the run ends with
    [TypeError], the structured report cut short, and nothing else is
    written. *)
Example timestamp_label :
  blocked ex_time_label = None ∧
  sample_data (report_of ex_time_label ex_csv "csv") = [] ∧
  outcome (ex_env_of ex_time_label) ∅ [] = Some TypeError ∧
  files (final (ex_env_of ex_time_label) ∅ []) =
    {[ report_json :=
         {| f_chunks := [JsonPrefix (report_of ex_time_label ex_csv "csv")];
            f_closed := true |} ]}.
Proof. split; [reflexivity|]. split; [reflexivity|]. split; vm_compute; reflexivity. Qed.

(** A label that is a tuple stops the overview of the Analyzer at the
    format spec of l.82: [TypeError], and no file is written. *)
Example tuple_label :
  blocked ex_tuple_label = Some TypeError ∧
  outcome (ex_env_of ex_tuple_label) ∅ [] = Some TypeError ∧
  files (final (ex_env_of ex_tuple_label) ∅ []) = ∅.
Proof. split; [reflexivity|]. split; vm_compute; reflexivity. Qed.

(** A label that repeats stops it at l.80: [AttributeError], and no
    file is written. *)
Example repeated_label :
  blocked ex_twice = Some AttributeError ∧
  outcome (ex_env_of ex_twice) ∅ [] = Some AttributeError ∧
  files (final (ex_env_of ex_twice) ∅ []) = ∅.
Proof. split; [reflexivity|]. split; vm_compute; reflexivity. Qed.

(** An entry of [data/] whose size cannot be had ends the run in the
    File Locator: the banner, the count and the line of the entry
    before it are all that is printed. *)
Example dangling_link :
  outcome ex_env_dangling ∅ [] = Some OSError ∧
  stdout (final ex_env_dangling ∅ []) =
    banner ++ [FoundFiles 2; FileEntry "a.bin" 10] ∧
  reads (final ex_env_dangling ∅ []) = [] ∧
  files (final ex_env_dangling ∅ []) = ∅.
Proof. split; [reflexivity|]. split; [reflexivity|]. split; vm_compute; reflexivity. Qed.
